(** * opfonts: a shallow embedding of the font composition pipeline

    The Python sources embedded here are
    - [subset.py]   ([parse_unicode_ranges], [subset_font]),
    - [charsets.py] ([load_charset_file], [save_charset_file],
      [_parse_unihan_mappings]),
    - [merge.py]    ([merge_fonts] and its helpers),
    - [download.py] ([_download], [ensure_font], [get_download_plan]),
    - [extract.py]  ([extract_from_pot], [_extract_from_quoted]),
    - [naming.py]   (the name table [rename_font] writes),
    - [pipeline.py] ([_resolve_codepoints], the download, subsetting and
      scaling steps of [build], [_get_cap_ratio], [_scale_to_target],
      [_fix_metrics], the per-weight configurations of [build_all]).

    Python values are modelled as follows.  A [str] is the list of its
    Unicode code points ([pystr]); an [int] is a [Z]; a [float] is a
    binary64 primitive float; a [set] of ints is a [gset Z]; a [dict] is a
    [gmap]; an exception is a value of [exn] carried by [result].  The parts
    of the Unicode character database that the string methods consult for
    non-ASCII text, the fontTools library, and the few pathlib and tempfile
    calls are interfaces (type classes): every statement below holds for any
    implementation of them. *)

From Stdlib Require Import ZArith List String Ascii Lia Bool Sorting.Sorted.
From Stdlib Require Import PrimFloat FloatOps SpecFloat Uint63.
From stdpp Require Import base option list sorting gmap sets strings pretty.

Open Scope Z_scope.

(** ** Python runtime *)

Module Py.

(** A Python [str]: its code points. *)
Definition pystr := list Z.

(** The code points of an ASCII literal. *)
Definition lit (s : string) : pystr :=
  List.map (fun a => Z.of_N (N_of_ascii a)) (list_ascii_of_string s).

(** Messages of the [ValueError]s raised by the sources and by [int()],
    [round()], [Request()]. *)
Inductive value_error :=
| invalid_unicode_range (r : pystr)   (* subset.py:21 *)
| invalid_literal (s : pystr)         (* int(s, 16) *)
| ranges_or_codepoints_required       (* subset.py:45 *)
| no_codepoints_resolved              (* subset.py:48 *)
| no_matching_glyphs (font : string)  (* subset.py:61 *)
| no_fonts_to_merge                   (* merge.py:296 *)
| cannot_convert_nan                  (* round(nan) *)
| unknown_url_type (url : string).    (* Request(url) *)

Inductive runtime_error :=
| nothing_enabled                     (* pipeline.py:75 *)
| all_subsets_empty                   (* pipeline.py:112 *)
| merged_too_large (glyph_count : Z)  (* merge.py:331 *)
| download_failed (url : string).     (* download.py:35 *)

Inductive exn :=
| ValueError (v : value_error)
| RuntimeError (r : runtime_error)
| KeyError (key : string)
| AttributeError (attr : string)
| FileNotFoundError (path : string)
| ZeroDivisionError
| OverflowError
| LibraryError (what : string).

Inductive result (A : Type) :=
| Ok (a : A)
| Raise (e : exn).
Arguments Ok {A} a.
Arguments Raise {A} e.

#[export] Instance result_ret : MRet result := fun _ a => Ok a.
#[export] Instance result_bind : MBind result := fun _ _ f r =>
  match r with
  | Ok a => f a
  | Raise e => Raise e
  end.

#[export] Instance value_error_eq_dec : EqDecision value_error.
Proof. solve_decision. Defined.
#[export] Instance runtime_error_eq_dec : EqDecision runtime_error.
Proof. solve_decision. Defined.
#[export] Instance exn_eq_dec : EqDecision exn.
Proof. solve_decision. Defined.
#[export] Instance result_eq_dec {A} `{EqDecision A} : EqDecision (result A).
Proof. solve_decision. Defined.

Definition is_ok {A} (r : result A) : bool :=
  match r with Ok _ => true | Raise _ => false end.

(** The Unicode character database, as far as [str.strip], [str.upper] and
    [int()] consult it for code points outside ASCII. *)
Class UnicodeData := {
  (** [Py_UNICODE_ISSPACE] *)
  uni_isspace : Z -> bool;
  (** [Py_UNICODE_TODECIMAL]: the value of a decimal digit *)
  uni_decimal : Z -> option Z;
  (** the full upper-case mapping of one character *)
  uni_upper : Z -> pystr
}.

Section Str.
Context {U : UnicodeData}.

(** [ch.isspace()] as [str.strip()] tests it. *)
Definition isspace (c : Z) : bool :=
  if c <? 128
  then ((9 <=? c) && (c <=? 13)) || ((28 <=? c) && (c <=? 32))
  else uni_isspace c.

Fixpoint lstrip_by (p : Z -> bool) (s : pystr) : pystr :=
  match s with
  | c :: s' => if p c then lstrip_by p s' else s
  | [] => []
  end.

Definition rstrip_by (p : Z -> bool) (s : pystr) : pystr :=
  rev (lstrip_by p (rev s)).

(** [s.strip()] *)
Definition strip (s : pystr) : pystr := rstrip_by isspace (lstrip_by isspace s).

(** [s.rstrip(chars)] *)
Definition rstrip (chars : pystr) (s : pystr) : pystr :=
  rstrip_by (fun c => bool_decide (c ∈ chars)) s.

Definition upper_char (c : Z) : pystr :=
  if c <? 128
  then [if (97 <=? c) && (c <=? 122) then c - 32 else c]
  else uni_upper c.

(** [s.upper()] *)
Definition upper (s : pystr) : pystr := flat_map upper_char s.

(** [s.startswith(p)] *)
Fixpoint startswith (p s : pystr) : bool :=
  match p, s with
  | [], _ => true
  | a :: p', b :: s' => (a =? b) && startswith p' s'
  | _ :: _, [] => false
  end.

(** [ch in s] for a single character [ch] *)
Definition contains (c : Z) (s : pystr) : bool := existsb (Z.eqb c) s.

(** [s.split(ch, 1)] when [ch] occurs in [s]: the text before and after the
    first occurrence. *)
Fixpoint split_first (c : Z) (s : pystr) : pystr * pystr :=
  match s with
  | [] => ([], [])
  | d :: s' =>
      if d =? c then ([], s')
      else let '(a, b) := split_first c s' in (d :: a, b)
  end.

(** *** [int(s, 16)]

    CPython first maps each non-ASCII character to a space (if it is
    white space), to an ASCII digit (if it is a decimal digit) or to ['?'],
    then reads: white space, an optional sign, an optional [0x] or [0X]
    followed by at most one underscore, digits separated by single
    underscores, white space. *)

Definition int_transform (c : Z) : Z :=
  if c <? 128 then c
  else if uni_isspace c then 32
  else match uni_decimal c with
       | Some d => 48 + d
       | None => 63
       end.

(** [Py_ISSPACE] *)
Definition int_space (c : Z) : bool :=
  ((9 <=? c) && (c <=? 13)) || (c =? 32).

(** [_PyLong_DigitValue], for base 16 *)
Definition digit16 (c : Z) : option Z :=
  if (48 <=? c) && (c <=? 57) then Some (c - 48)
  else if (65 <=? c) && (c <=? 70) then Some (c - 55)
  else if (97 <=? c) && (c <=? 102) then Some (c - 87)
  else None.

(** The digit scan of [long_from_binary_base]: the value read, whether a
    digit was read, and the rest of the text; [None] on a doubled or
    trailing underscore. *)
Fixpoint scan_digits (acc : Z) (seen prev_us : bool) (s : pystr)
  : option (Z * bool * pystr) :=
  match s with
  | [] => if prev_us then None else Some (acc, seen, [])
  | c :: s' =>
      if c =? 95 then
        if prev_us then None else scan_digits acc seen true s'
      else
        match digit16 c with
        | Some d => scan_digits (16 * acc + d) true false s'
        | None => if prev_us then None else Some (acc, seen, s)
        end
  end.

Definition int_sign (s : pystr) : bool * pystr :=
  match s with
  | c :: s' =>
      if c =? 43 then (false, s')
      else if c =? 45 then (true, s')
      else (false, s)
  | [] => (false, [])
  end.

Definition int_prefix (s : pystr) : pystr :=
  match s with
  | z :: x :: r =>
      if (z =? 48) && ((x =? 120) || (x =? 88))
      then match r with
           | u :: r' => if u =? 95 then r' else r
           | [] => r
           end
      else s
  | _ => s
  end.

Definition int16_opt (s : pystr) : option Z :=
  let s := List.map int_transform s in
  let s := lstrip_by int_space s in
  let '(neg, s) := int_sign s in
  let s := int_prefix s in
  if startswith [95] s then None
  else
    match scan_digits 0 false false s with
    | Some (v, true, rest) =>
        match lstrip_by int_space rest with
        | [] => Some (if neg then - v else v)
        | _ :: _ => None
        end
    | _ => None
    end.

(** [int(s, 16)] *)
Definition int16 (s : pystr) : result Z :=
  match int16_opt s with
  | Some v => Ok v
  | None => Raise (ValueError (invalid_literal s))
  end.

End Str.

(** [s.endswith(p)] *)
Definition endswith (p s : pystr) : bool := startswith (rev p) (rev s).

(** [s[1:-1]] *)
Definition slice_1_m1 (s : pystr) : pystr := removelast (drop 1 s).

(** [s.replace(old, new)]: the occurrences of [old] are replaced from the
    left, none overlapping another; an empty [old] matches before every
    character and at the end.  [skip] counts the characters of a match
    still to be passed over. *)
Section Replace.
Context {A : Type} `{EqDecision A}.

Fixpoint replace_from (old new : list A) (skip : nat) (s : list A) : list A :=
  match s with
  | [] => []
  | c :: s' =>
      match skip with
      | S k => replace_from old new k s'
      | O =>
          if bool_decide (old `prefix_of` s)
          then new ++ replace_from old new (length old - 1) s'
          else c :: replace_from old new O s'
      end
  end.

Definition replace (old new s : list A) : list A :=
  match old with
  | [] => new ++ flat_map (fun c => c :: new) s
  | _ :: _ => replace_from old new 0 s
  end.

End Replace.

(** [replace] for the strings that hold names and paths *)
Definition str_replace (old new s : string) : string :=
  string_of_list_ascii
    (replace (list_ascii_of_string old) (list_ascii_of_string new)
       (list_ascii_of_string s)).

(** The line boundaries of [str.splitlines]: [\n], [\v], [\f], [\r],
    FS, GS, RS, NEL, LS and PS. *)
Definition is_linebreak (c : Z) : bool :=
  ((10 <=? c) && (c <=? 13)) || ((28 <=? c) && (c <=? 30))
  || (c =? 133) || (c =? 8232) || (c =? 8233).

(** [s.splitlines()]: [\r\n] is one boundary, and a boundary at the end
    of the text opens no further line. *)
Fixpoint splitlines_from (cur : pystr) (s : pystr) : list pystr :=
  match s with
  | [] => match cur with [] => [] | _ :: _ => [cur] end
  | c :: s' =>
      if is_linebreak c then
        cur :: match s' with
               | d :: s'' =>
                   if (c =? 13) && (d =? 10) then splitlines_from [] s''
                   else splitlines_from [] s'
               | [] => []
               end
      else splitlines_from (cur ++ [c]) s'
  end.

Definition splitlines (s : pystr) : list pystr := splitlines_from [] s.

(** [s.split(ch)] for a single character [ch] *)
Fixpoint split_from (c : Z) (cur : pystr) (s : pystr) : list pystr :=
  match s with
  | [] => [cur]
  | d :: s' =>
      if d =? c then cur :: split_from c [] s'
      else split_from c (cur ++ [d]) s'
  end.

Definition split (c : Z) (s : pystr) : list pystr := split_from c [] s.

(** The upper-case hexadecimal digit of [d], for [0 <= d < 16]. *)
Definition hex_digit_upper (d : Z) : Z :=
  if d <? 10 then 48 + d else 55 + d.

(** [format(n, "X")] for [n >= 0] *)
Definition hex_upper (n : Z) : pystr :=
  let k := Z.to_nat (Z.log2 n / 4 + 1) in
  (fun i => hex_digit_upper ((n / 16 ^ Z.of_nat i) mod 16)) <$> rev (seq 0 k).

(** Zero padding to a width *)
Definition zero_pad (width : nat) (s : pystr) : pystr :=
  replicate (width - length s) 48 ++ s.

(** [f"{n:04X}"]: the sign counts towards the width, the zeros follow
    it. *)
Definition format_04X (n : Z) : pystr :=
  if n <? 0 then 45 :: zero_pad 3 (hex_upper (- n))
  else zero_pad 4 (hex_upper n).

(** [range(a, b)] *)
Definition range (a b : Z) : list Z := seqZ a (b - a).

(** [sorted(s)] for a set of ints *)
Definition sorted (s : gset Z) : list Z := merge_sort Z.le (elements s).

End Py.

Import Py.

(** ** Floats and rounding *)

Module PyFloat.

(** [float(n)] for an int [n]: the nearest binary64 value, ties to even;
    [OverflowError] when [n] is too large. *)
Definition of_int (n : Z) : result float :=
  let f := SF2Prim (binary_normalize prec emax n 0 false) in
  if PrimFloat.is_infinity f then Raise OverflowError else Ok f.

Definition sf_of_int (n : Z) : spec_float :=
  match n with
  | Z0 => S754_zero false
  | Zpos p => S754_finite false p 0
  | Zneg p => S754_finite true p 0
  end.

(** [a / b] for ints: the correctly rounded quotient. *)
Definition int_truediv (a b : Z) : result float :=
  if b =? 0 then Raise ZeroDivisionError
  else
    let f := SF2Prim (SFdiv prec emax (sf_of_int a) (sf_of_int b)) in
    if PrimFloat.is_infinity f then Raise OverflowError else Ok f.

(** [x / y] for floats *)
Definition truediv (x y : float) : result float :=
  if PrimFloat.eqb y 0%float then Raise ZeroDivisionError
  else Ok (PrimFloat.div x y).

(** [n * x] for an int [n] and a float [x] *)
Definition int_mul (n : Z) (x : float) : result float :=
  f ← of_int n;
  Ok (PrimFloat.mul f x).

(** [round(x)]: the nearest int, ties to even. *)
Definition round (x : float) : result Z :=
  match Prim2SF x with
  | S754_zero _ => Ok 0
  | S754_infinity _ => Raise OverflowError
  | S754_nan => Raise (ValueError cannot_convert_nan)
  | S754_finite s m e =>
      let n :=
        match e with
        | Z0 => Zpos m
        | Zpos k => Z.shiftl (Zpos m) (Zpos k)
        | Zneg k =>
            let d := Z.shiftl 1 (Zpos k) in
            let q := Zpos m / d in
            let r := Zpos m mod d in
            if 2 * r <? d then q
            else if d <? 2 * r then q + 1
            else if Z.even q then q else q + 1
        end in
      Ok (if s then - n else n)
  end.

End PyFloat.

(** ** Fonts, files and the libraries outside the repository *)

Definition blob := list Z.

Module Font.

Record OS2 := {
  sTypoAscender : Z;
  sTypoDescender : Z;
  sTypoLineGap : Z;
  usWinAscent : Z;
  usWinDescent : Z;
  (** present from table version 2 on *)
  sxHeight : option Z;
  sCapHeight : option Z
}.

Record Hhea := {
  ascent : Z;
  descent : Z;
  lineGap : Z
}.

Record CmapSubtable := {
  platformID : Z;
  platEncID : Z;
  format : Z;
  language : Z;
  cmap : gmap Z string
}.

Record CFF := {
  (** the top dict has a [ROS] entry: the font is CID-keyed *)
  ROS : bool;
  CharStrings : list (string * blob)
}.

Record GSUB := {
  Version : Z;
  ScriptList : option blob;
  FeatureList : option blob;
  LookupList : option blob
}.

(** A [TTFont]: its glyph order and its tables.  The tables the sources
    read or write field by field are typed; every other table is kept by
    tag with its bytes. *)
Record TTFont := {
  glyphOrder : list string;
  head_unitsPerEm : option Z;
  os2 : option OS2;
  hhea : option Hhea;
  hmtx_metrics : option (list (string * (Z * Z)));
  cmap_tables : option (list CmapSubtable);
  cff : option CFF;
  gsub : option GSUB;
  other_tables : gmap string blob
}.

#[export] Instance OS2_eq_dec : EqDecision OS2.
Proof. solve_decision. Defined.
#[export] Instance Hhea_eq_dec : EqDecision Hhea.
Proof. solve_decision. Defined.
#[export] Instance CmapSubtable_eq_dec : EqDecision CmapSubtable.
Proof. solve_decision. Defined.
#[export] Instance CFF_eq_dec : EqDecision CFF.
Proof. solve_decision. Defined.
#[export] Instance GSUB_eq_dec : EqDecision GSUB.
Proof. solve_decision. Defined.
#[export] Instance TTFont_eq_dec : EqDecision TTFont.
Proof. solve_decision. Defined.

Definition set_os2 (t : OS2) (f : TTFont) : TTFont :=
  {| glyphOrder := glyphOrder f; head_unitsPerEm := head_unitsPerEm f;
     os2 := Some t; hhea := hhea f; hmtx_metrics := hmtx_metrics f;
     cmap_tables := cmap_tables f; cff := cff f; gsub := gsub f;
     other_tables := other_tables f |}.

Definition set_hhea (t : Hhea) (f : TTFont) : TTFont :=
  {| glyphOrder := glyphOrder f; head_unitsPerEm := head_unitsPerEm f;
     os2 := os2 f; hhea := Some t; hmtx_metrics := hmtx_metrics f;
     cmap_tables := cmap_tables f; cff := cff f; gsub := gsub f;
     other_tables := other_tables f |}.

Definition set_hmtx (m : list (string * (Z * Z))) (f : TTFont) : TTFont :=
  {| glyphOrder := glyphOrder f; head_unitsPerEm := head_unitsPerEm f;
     os2 := os2 f; hhea := hhea f; hmtx_metrics := Some m;
     cmap_tables := cmap_tables f; cff := cff f; gsub := gsub f;
     other_tables := other_tables f |}.

Definition set_cmap (t : list CmapSubtable) (f : TTFont) : TTFont :=
  {| glyphOrder := glyphOrder f; head_unitsPerEm := head_unitsPerEm f;
     os2 := os2 f; hhea := hhea f; hmtx_metrics := hmtx_metrics f;
     cmap_tables := Some t; cff := cff f; gsub := gsub f;
     other_tables := other_tables f |}.

Definition set_cff (t : CFF) (f : TTFont) : TTFont :=
  {| glyphOrder := glyphOrder f; head_unitsPerEm := head_unitsPerEm f;
     os2 := os2 f; hhea := hhea f; hmtx_metrics := hmtx_metrics f;
     cmap_tables := cmap_tables f; cff := Some t; gsub := gsub f;
     other_tables := other_tables f |}.

Definition set_gsub (t : GSUB) (f : TTFont) : TTFont :=
  {| glyphOrder := glyphOrder f; head_unitsPerEm := head_unitsPerEm f;
     os2 := os2 f; hhea := hhea f; hmtx_metrics := hmtx_metrics f;
     cmap_tables := cmap_tables f; cff := cff f; gsub := Some t;
     other_tables := other_tables f |}.

Definition set_other (tag : string) (data : blob) (f : TTFont) : TTFont :=
  {| glyphOrder := glyphOrder f; head_unitsPerEm := head_unitsPerEm f;
     os2 := os2 f; hhea := hhea f; hmtx_metrics := hmtx_metrics f;
     cmap_tables := cmap_tables f; cff := cff f; gsub := gsub f;
     other_tables := <[tag := data]> (other_tables f) |}.

(** [tag in font] *)
Definition has_table (tag : string) (f : TTFont) : bool :=
  if decide (tag = "head"%string) then bool_decide (is_Some (head_unitsPerEm f))
  else if decide (tag = "OS/2"%string) then bool_decide (is_Some (os2 f))
  else if decide (tag = "hhea"%string) then bool_decide (is_Some (hhea f))
  else if decide (tag = "hmtx"%string) then bool_decide (is_Some (hmtx_metrics f))
  else if decide (tag = "cmap"%string) then bool_decide (is_Some (cmap_tables f))
  else if decide (tag = "CFF "%string) then bool_decide (is_Some (cff f))
  else if decide (tag = "GSUB"%string) then bool_decide (is_Some (gsub f))
  else bool_decide (is_Some (other_tables f !! tag)).

(** [del font[tag]] *)
Definition del_table (tag : string) (f : TTFont) : TTFont :=
  {| glyphOrder := glyphOrder f;
     head_unitsPerEm :=
       if decide (tag = "head"%string) then None else head_unitsPerEm f;
     os2 := if decide (tag = "OS/2"%string) then None else os2 f;
     hhea := if decide (tag = "hhea"%string) then None else hhea f;
     hmtx_metrics :=
       if decide (tag = "hmtx"%string) then None else hmtx_metrics f;
     cmap_tables :=
       if decide (tag = "cmap"%string) then None else cmap_tables f;
     cff := if decide (tag = "CFF "%string) then None else cff f;
     gsub := if decide (tag = "GSUB"%string) then None else gsub f;
     other_tables := delete tag (other_tables f) |}.

(** The fields of [OS/2] and [hhea] are 16 bits wide in the file.  When
    a table is compiled, [struct.pack] takes a signed field (format [h])
    from -32768 to 32767 and an unsigned one (format [H]) from 0 to 65535,
    and raises for any other value. *)
Definition fits_int16 (v : Z) : bool := (-32768 <=? v) && (v <=? 32767).

Definition fits_uint16 (v : Z) : bool := (0 <=? v) && (v <=? 65535).

Definition os2_packs (t : OS2) : bool :=
  fits_int16 (sTypoAscender t) && fits_int16 (sTypoDescender t)
  && fits_int16 (sTypoLineGap t)
  && fits_uint16 (usWinAscent t) && fits_uint16 (usWinDescent t)
  && from_option fits_int16 true (sxHeight t)
  && from_option fits_int16 true (sCapHeight t).

Definition hhea_packs (t : Hhea) : bool :=
  fits_int16 (ascent t) && fits_int16 (descent t) && fits_int16 (lineGap t).

(** [font[tag]] for the typed tables; [KeyError] when the table is absent. *)
Definition table {A} (tag : string) (t : option A) : result A :=
  match t with
  | Some a => Ok a
  | None => Raise (KeyError tag)
  end.

(** [table.getcmap(platformID, platEncID)] *)
Definition getcmap (tables : list CmapSubtable) (p e : Z)
  : option CmapSubtable :=
  List.find (fun t => (platformID t =? p) && (platEncID t =? e)) tables.

Definition cmapPreferences : list (Z * Z) :=
  [(3, 10); (0, 6); (0, 4); (3, 1); (0, 3); (0, 2); (0, 1); (0, 0)].

Fixpoint best_of (tables : list CmapSubtable) (prefs : list (Z * Z))
  : option (gmap Z string) :=
  match prefs with
  | [] => None
  | (p, e) :: prefs' =>
      match getcmap tables p e with
      | Some t => Some (cmap t)
      | None => best_of tables prefs'
      end
  end.

(** [font.getBestCmap()]: the mapping of the preferred Unicode subtable,
    [None] when there is none. *)
Definition getBestCmap (f : TTFont) : result (option (gmap Z string)) :=
  tables ← table "cmap" (cmap_tables f);
  Ok (best_of tables cmapPreferences).

End Font.

Import Font.

(** What the rebuilding conversions of merge.py hand to [FontBuilder]
    before they read the source font's [hhea] table. *)
Record BuilderInput := {
  b_unitsPerEm : Z;
  b_isTTF : bool;
  b_glyphOrder : list string;
  b_cmap : gmap Z string;
  b_outlines : list (string * blob);
  b_metrics : list (string * (Z * Z));
  b_psName : string
}.

(** fontTools.  The operations take and return font objects; where the
    library mutates its argument the new value is returned. *)
Class FontTools := {
  (** [Subsetter(options).populate(unicodes=...)] and [.subset(font)], with
      the options of [subset_font] *)
  ft_subset : list Z -> TTFont -> TTFont;
  (** [glyph_set[gname].draw(T2CharStringPen(width, glyph_set))] and
      [pen.getCharString()] *)
  ft_draw_t2 : TTFont -> string -> Z -> blob;
  (** [glyph_set[gname].drawPoints(Cu2QuPointPen(TTGlyphPointPen(None),
      max_err=1.0, reverse_direction=True))] and [pen.glyph()] *)
  ft_draw_quadratic : TTFont -> string -> blob;
  (** the charstring redrawn through [TransformPen(pen, (s,0,0,s,0,0))] into
      a [T2CharStringPen] of the given width, keeping [private] and
      [globalSubrs] *)
  ft_scale_charstring : float -> Z -> blob -> blob;
  (** [FontBuilder(upm, isTTF)], [setupGlyphOrder], [setupCharacterMap],
      [setupCFF] or [setupGlyf], [setupHorizontalMetrics] *)
  ft_build_glyphs : BuilderInput -> result TTFont;
  (** [setupHorizontalHeader(ascent, descent)], [setupNameTable] with the
      given family name, [setupOS2()], [setupPost()] *)
  ft_build_tables : TTFont -> Z -> Z -> string -> result TTFont;
  (** [scale_upem(font, upm)] *)
  ft_scale_upem : TTFont -> Z -> result TTFont;
  (** [Merger().merge(fonts)] *)
  ft_merge : list TTFont -> result TTFont
}.

(** pathlib and tempfile.  Paths are strings. *)
Class Platform := {
  (** [p.with_suffix(s)] *)
  with_suffix : string -> string -> string;
  (** [p.name] *)
  path_name : string -> string;
  (** [p.stem] *)
  path_stem : string -> string;
  (** [p.parent] *)
  path_parent : string -> string;
  (** [p / q] *)
  path_join : string -> string -> string;
  (** [p.is_absolute()] *)
  is_absolute : string -> bool;
  (** [p.is_dir()]: the directory [p] exists *)
  is_dir : string -> bool;
  (** the name of the [n]-th temporary file, made with the given suffix *)
  temp_name : nat -> string -> string;
  (** the name of the [n]-th temporary directory, made with the given
      prefix *)
  temp_dir : nat -> string -> string
}.

(** What one attempt, [urlopen(req, timeout=60)] and [resp.read()], comes
    to. *)
Inductive response :=
(** the data read *)
| Body (data : TTFont)
(** [HTTPError], [URLError] or another [OSError] *)
| Refused
(** an exception of any other class *)
| Broken (what : string).

(** urllib: the request built for a URL, and what it returns at a given
    attempt. *)
Class Network := {
  (** [Request(url).type]: the scheme found in the URL; the constructor
      raises [ValueError] when there is none *)
  url_type : string -> option string;
  fetch : string -> nat -> response
}.

(** ** The file system and the calls that leave the program *)

Inductive event :=
(** [subsetter.populate(unicodes); subsetter.subset(font)] on the font read
    from [src]: the request and the font the library left *)
| Subsetted (src : string) (unicodes : list Z) (res : TTFont)
(** [merger.merge(paths)]: the fonts read from the paths *)
| Merged (inputs : list TTFont).

#[export] Instance event_eq_dec : EqDecision event.
Proof. solve_decision. Defined.

Record World := {
  fonts : gmap string TTFont;
  texts : gmap string pystr;
  temps : nat;
  trace : list event
}.

Definition M (A : Type) : Type := World -> World * result A.

#[export] Instance M_ret : MRet M := fun _ a w => (w, Ok a).
#[export] Instance M_bind : MBind M := fun _ _ f c w =>
  match c w with
  | (w', Ok a) => f a w'
  | (w', Raise e) => (w', Raise e)
  end.

Module IO.

Definition raise {A} (e : exn) : M A := fun w => (w, Raise e).

Definition lift {A} (r : result A) : M A := fun w => (w, r).

(** [TTFont(path)] *)
Definition open_font (path : string) : M TTFont := fun w =>
  match fonts w !! path with
  | Some f => (w, Ok f)
  | None => (w, Raise (FileNotFoundError path))
  end.

(** [font.save(path)] *)
Definition save (path : string) (f : TTFont) : M unit := fun w =>
  ({| fonts := <[path := f]> (fonts w); texts := texts w;
      temps := temps w; trace := trace w |}, Ok tt).

(** [open(path, encoding="utf-8")]: the decoded text *)
Definition read_text (path : string) : M pystr := fun w =>
  match texts w !! path with
  | Some t => (w, Ok t)
  | None => (w, Raise (FileNotFoundError path))
  end.

(** [tempfile.NamedTemporaryFile(suffix=..., delete=False).name] *)
Definition named_temporary_file {P : Platform} (suffix : string) : M string :=
  fun w =>
  ({| fonts := fonts w; texts := texts w; temps := S (temps w);
      trace := trace w |}, Ok (temp_name (temps w) suffix)).

(** [tempfile.mkdtemp(prefix=...)] *)
Definition mkdtemp {P : Platform} (prefix : string) : M string :=
  fun w =>
  ({| fonts := fonts w; texts := texts w; temps := S (temps w);
      trace := trace w |}, Ok (temp_dir (temps w) prefix)).

(** [path.exists()] *)
Definition exists_ (path : string) : M bool := fun w =>
  (w, Ok (bool_decide (is_Some (fonts w !! path))
          || bool_decide (is_Some (texts w !! path)))).

(** [with open(path, "w") as f: f.write(text)].  The file system holds
    the text of a file, not its bytes: the encoding the text is written
    in is taken to be the one it is read in. *)
Definition write_text (path : string) (text : pystr) : M unit := fun w =>
  ({| fonts := fonts w; texts := <[path := text]> (texts w);
      temps := temps w; trace := trace w |}, Ok tt).

Definition emit (e : event) : M unit := fun w =>
  ({| fonts := fonts w; texts := texts w; temps := temps w;
      trace := trace w ++ [e] |}, Ok tt).

(** [try: body  except ValueError as exc: handler(exc)] *)
Definition try_except_ValueError {A} (body : M A)
  (handler : value_error -> M A) : M A := fun w =>
  match body w with
  | (w', Raise (ValueError v)) => handler v w'
  | r => r
  end.

End IO.

Import IO.

(** ** charsets.py *)

Module Charsets.
Section Load.
Context {U : UnicodeData}.

(** Text mode with the default [newline=None]: [\r\n] and [\r] are read
    as [\n]. *)
Fixpoint universal_newlines (s : pystr) : pystr :=
  match s with
  | [] => []
  | c :: s' =>
      if c =? 13 then
        10 :: match s' with
              | d :: s'' =>
                  if d =? 10 then universal_newlines s''
                  else universal_newlines s'
              | [] => []
              end
      else c :: universal_newlines s'
  end.

(** The lines [for line in f] yields, each with its newline. *)
Fixpoint lines_from (cur : pystr) (s : pystr) : list pystr :=
  match s with
  | [] => match cur with [] => [] | _ :: _ => [cur] end
  | c :: s' =>
      if c =? 10 then (cur ++ [10]) :: lines_from [] s'
      else lines_from (cur ++ [c]) s'
  end.

Definition file_lines (text : pystr) : list pystr :=
  lines_from [] (universal_newlines text).

(** The body of the [for line in f] loop. *)
Definition load_line (codepoints : gset Z) (line : pystr) : result (gset Z) :=
  let line := rstrip [10] line in
  match line with
  | [] => Ok codepoints
  | c :: _ =>
      if startswith (lit "#") line then Ok codepoints
      else if (length line =? 1)%nat then Ok (codepoints ∪ {[c]})
      else
        match int16 line with
        | Ok v => Ok (codepoints ∪ {[v]})
        | Raise (ValueError _) => Ok (codepoints ∪ {[c]})
        | Raise e => Raise e
        end
  end.

Fixpoint load_lines (codepoints : gset Z) (lines : list pystr)
  : result (gset Z) :=
  match lines with
  | [] => Ok codepoints
  | line :: rest =>
      codepoints' ← load_line codepoints line;
      load_lines codepoints' rest
  end.

Definition load_charset_text (text : pystr) : result (list Z) :=
  codepoints ← load_lines ∅ (file_lines text);
  Ok (sorted codepoints).

Definition load_charset_file (path : string) : M (list Z) :=
  text ← read_text path;
  lift (load_charset_text text).

(** What [save_charset_file] writes: the header lines as comments and a
    blank line, when there is a header, then one [%04X] code point per
    line, in increasing order. *)
Definition charset_text (codepoints : gset Z) (header : pystr) : pystr :=
  match header with
  | [] => []
  | _ :: _ =>
      flat_map (fun line => lit "# " ++ line ++ [10]) (splitlines header)
      ++ [10]
  end
  ++ flat_map (fun cp => format_04X cp ++ [10]) (sorted codepoints).

Definition save_charset_file (path : string) (codepoints : gset Z)
  (header : pystr) : M unit :=
  write_text path (charset_text codepoints header).

(** [LOCALE_FIELDS.keys()] *)
Definition LOCALE_FIELDS : list pystr :=
  [lit "kGB0"; lit "kBigFive"; lit "kJis0"].

(** The body of the [for line in data.splitlines()] loop of
    [_parse_unihan_mappings]. *)
Definition unihan_line (result : gmap pystr (gset Z)) (line : pystr)
  : Py.result (gmap pystr (gset Z)) :=
  match line with
  | [] => Ok result
  | _ :: _ =>
      if startswith (lit "#") line then Ok result
      else
        match split 9 line with
        | cp_str :: field :: value :: _ =>
            if bool_decide (field ∈ LOCALE_FIELDS) then
              cp ← int16 (drop 2 cp_str);
              let add :=
                match result !! field with
                | Some s => Ok (<[field := s ∪ {[cp]}]> result)
                | None => Raise (KeyError "field")
                end in
              if bool_decide (field = lit "kBigFive") then
                let hex_part := take 4 (strip value) in
                match int16 hex_part with
                | Ok big5_code =>
                    if (big5_code <? 42048) || (50814 <? big5_code)
                    then Ok result
                    else add
                | Raise (ValueError _) => Ok result
                | Raise e => Raise e
                end
              else add
            else Ok result
        | _ => Ok result
        end
  end.

Fixpoint unihan_lines (result : gmap pystr (gset Z)) (lines : list pystr)
  : Py.result (gmap pystr (gset Z)) :=
  match lines with
  | [] => Ok result
  | line :: rest =>
      result' ← unihan_line result line;
      unihan_lines result' rest
  end.

Definition _parse_unihan_mappings (data : pystr)
  : Py.result (gmap pystr (gset Z)) :=
  unihan_lines (list_to_map ((fun f => (f, ∅)) <$> LOCALE_FIELDS))
    (splitlines data).

End Load.
End Charsets.

Import Charsets.

(** ** subset.py *)

Module Subset.
Section Ranges.
Context {U : UnicodeData}.

(** The body of the [for r in ranges] loop of [parse_unicode_ranges]. *)
Definition parse_one (codepoints : gset Z) (r : pystr) : result (gset Z) :=
  let r := upper (strip r) in
  if negb (startswith (lit "U+") r) then
    Raise (ValueError (invalid_unicode_range r))
  else
    let r := drop 2 r in
    if contains 45 r then
      let '(start_s, end_s) := split_first 45 r in
      start ← int16 start_s;
      end_ ← int16 end_s;
      Ok (codepoints ∪ list_to_set (range start (end_ + 1)))
    else
      cp ← int16 r;
      Ok (codepoints ∪ {[cp]}).

Fixpoint parse_loop (codepoints : gset Z) (ranges : list pystr)
  : result (gset Z) :=
  match ranges with
  | [] => Ok codepoints
  | r :: rest =>
      codepoints' ← parse_one codepoints r;
      parse_loop codepoints' rest
  end.

Definition parse_unicode_ranges (ranges : list pystr) : result (list Z) :=
  codepoints ← parse_loop ∅ ranges;
  Ok (sorted codepoints).

End Ranges.

Section SubsetFont.
Context {U : UnicodeData} {FT : FontTools} {P : Platform}.

(** [[cp for cp in codepoints if cp in cmap]] *)
Definition present_in (cmap : gmap Z string) (codepoints : list Z) : list Z :=
  List.filter (fun cp => bool_decide (is_Some (cmap !! cp))) codepoints.

Definition subset_font (font_path : string)
  (unicode_ranges : option (list pystr)) (output_path : option string)
  (codepoints : option (list Z)) : M string :=
  codepoints ←
    match codepoints with
    | Some cps => mret cps
    | None =>
        match unicode_ranges with
        | None | Some [] => raise (ValueError ranges_or_codepoints_required)
        | Some ranges => lift (parse_unicode_ranges ranges)
        end
    end;
  match codepoints with
  | [] => raise (ValueError no_codepoints_resolved)
  | _ :: _ =>
      font ← open_font font_path;
      best ← lift (getBestCmap font);
      let cmap := default ∅ best in
      let present := present_in cmap codepoints in
      match present with
      | [] => raise (ValueError (no_matching_glyphs (path_name font_path)))
      | _ :: _ =>
          let font := ft_subset codepoints font in
          _ ← emit (Subsetted font_path codepoints font);
          output_path ←
            match output_path with
            | Some p => mret p
            | None => named_temporary_file ".ttf"
            end;
          _ ← save output_path font;
          mret output_path
      end
  end.

End SubsetFont.
End Subset.

Import Subset.

(** ** config.py *)

Module Config.

Record ScriptEntry := {
  name : string;
  enabled : bool;
  font : string;
  unicode_ranges : list pystr;
  url : string;
  charset_file : option string;
  scale : bool;
  weights : list string
}.

Record MetricsConfig := {
  ascender : Z;
  descender : Z;
  target_cap_ratio : float
}.

Record MergeConfig := {
  drop_tables : list string;
  keep_features : list string
}.

Record BuildConfig := {
  cfg_name : string;
  style : string;
  output : string;
  cache_dir : string;
  output_dir : string;
  scripts : list ScriptEntry;
  merge : MergeConfig;
  metrics : MetricsConfig
}.

End Config.

Import Config.

(** ** merge.py *)

Module Merge.

Definition _TTF_GLYPH_LIMIT : Z := 65535.

Section Merge.
Context {FT : FontTools} {P : Platform}.

Definition has_cff_outlines (font : TTFont) : bool :=
  has_table "CFF " font || has_table "CFF2" font.

Definition _is_cff (font_path : string) : M bool :=
  font ← open_font font_path;
  mret (has_cff_outlines font).

(** [hmtx[gname]] *)
Definition hmtx_lookup (metrics : list (string * (Z * Z))) (gname : string)
  : result (Z * Z) :=
  match List.find (fun e => bool_decide (e.1 = gname)) metrics with
  | Some e => Ok e.2
  | None => Raise (KeyError gname)
  end.

Fixpoint for_each {A B} (f : A -> result B) (l : list A) : result (list B) :=
  match l with
  | [] => Ok []
  | a :: l' =>
      b ← f a;
      bs ← for_each f l';
      Ok (b :: bs)
  end.

(** [for tag in ("GSUB", "GPOS", "GDEF"): if tag in font: new_font[tag] =
    font[tag]] *)
Definition copy_layout_tables (font new_font : TTFont) : TTFont :=
  let new_font :=
    match gsub font with
    | Some t => set_gsub t new_font
    | None => new_font
    end in
  let new_font :=
    match other_tables font !! "GPOS"%string with
    | Some t => set_other "GPOS" t new_font
    | None => new_font
    end in
  match other_tables font !! "GDEF"%string with
  | Some t => set_other "GDEF" t new_font
  | None => new_font
  end.

(** The text [_ensure_cff] and [_decid_cff] share: redraw every glyph of
    the source font as a charstring, build a new CFF font and copy the
    layout tables. *)
Definition rebuild_cff (font_path : string) (font : TTFont) : result TTFont :=
  upm ← table "head" (head_unitsPerEm font);
  let glyph_order := glyphOrder font in
  best ← getBestCmap font;
  let cmap := default ∅ best in
  hmtx ← table "hmtx" (hmtx_metrics font);
  metrics ← for_each (fun gname =>
               m ← hmtx_lookup hmtx gname; Ok (gname, m)) glyph_order;
  let outlines :=
    List.map (fun e : string * (Z * Z) => (e.1, ft_draw_t2 font e.1 e.2.1))
      metrics in
  fb ← ft_build_glyphs
    {| b_unitsPerEm := upm; b_isTTF := false; b_glyphOrder := glyph_order;
       b_cmap := cmap; b_outlines := outlines; b_metrics := metrics;
       b_psName := path_stem font_path |};
  hh ← table "hhea" (hhea font);
  new_font ← ft_build_tables fb (ascent hh) (descent hh)
                (path_stem font_path);
  Ok (copy_layout_tables font new_font).

Definition _ensure_cff (font_path : string) : M string :=
  font ← open_font font_path;
  if has_cff_outlines font then mret font_path
  else
    new_font ← lift (rebuild_cff font_path font);
    let out_path := with_suffix font_path ".cff.otf" in
    _ ← save out_path new_font;
    mret out_path.

Definition _ensure_quadratic (font_path : string) : M string :=
  font ← open_font font_path;
  if negb (has_cff_outlines font) then mret font_path
  else
    upm ← lift (table "head" (head_unitsPerEm font));
    let glyph_order := glyphOrder font in
    best ← lift (getBestCmap font);
    let cmap := default ∅ best in
    let glyphs :=
      List.map (fun gname => (gname, ft_draw_quadratic font gname))
        glyph_order in
    hmtx ← lift (table "hmtx" (hmtx_metrics font));
    metrics ← lift (for_each (fun gname =>
                 m ← hmtx_lookup hmtx gname; Ok (gname, m)) glyph_order);
    fb ← lift (ft_build_glyphs
      {| b_unitsPerEm := upm; b_isTTF := true; b_glyphOrder := glyph_order;
         b_cmap := cmap; b_outlines := glyphs; b_metrics := metrics;
         b_psName := path_stem font_path |});
    hh ← lift (table "hhea" (hhea font));
    new_font ← lift (ft_build_tables fb (ascent hh) (descent hh)
                       (path_stem font_path));
    let new_font := copy_layout_tables font new_font in
    let out_path := with_suffix font_path ".conv.ttf" in
    _ ← save out_path new_font;
    mret out_path.

Definition _decid_cff (font_path : string) : M string :=
  font ← open_font font_path;
  match cff font with
  | None => mret font_path
  | Some c =>
      if negb (ROS c) then mret font_path
      else
        new_font ← lift (rebuild_cff font_path font);
        let out_path := with_suffix font_path ".nk.otf" in
        _ ← save out_path new_font;
        mret out_path
  end.

(** The [for tag in table_tags] loop of [_strip_tables]: the font and the
    [changed] flag. *)
Fixpoint strip_loop (table_tags : list string) (font : TTFont)
  (changed : bool) : TTFont * bool :=
  match table_tags with
  | [] => (font, changed)
  | tag :: rest =>
      if has_table tag font then strip_loop rest (del_table tag font) true
      else strip_loop rest font changed
  end.

Definition _strip_tables (font_path : string) (table_tags : list string)
  : M unit :=
  font ← open_font font_path;
  let '(font, changed) := strip_loop table_tags font false in
  if changed then save font_path font else mret tt.

Definition _normalize_upm (font_path : string) (target_upm : Z) : M string :=
  font ← open_font font_path;
  current_upm ← lift (table "head" (head_unitsPerEm font));
  if current_upm =? target_upm then mret font_path
  else
    font ← lift (ft_scale_upem font target_upm);
    let out_path := with_suffix font_path ".scaled.otf" in
    _ ← save out_path font;
    mret out_path.

Definition empty_gsub : GSUB :=
  {| Version := 65536; ScriptList := None; FeatureList := None;
     LookupList := None |}.

Definition _ensure_gsub (font_path : string) : M unit :=
  font ← open_font font_path;
  if negb (has_table "GSUB" font) then
    save font_path (set_gsub empty_gsub font)
  else mret tt.

(** [all_mappings.update(table.cmap)] over the subtables, in order. *)
Definition all_mappings (tables : list CmapSubtable) : gmap Z string :=
  fold_left (fun acc t => cmap t ∪ acc) tables ∅.

Definition _rebuild_cmap (font : TTFont) : result TTFont :=
  tables ← table "cmap" (cmap_tables font);
  let fmt12 :=
    {| platformID := 3; platEncID := 10; format := 12; language := 0;
       cmap := all_mappings tables |} in
  Ok (set_cmap [fmt12] font).

(** [convert_fn = _ensure_cff if use_cff else _ensure_quadratic] *)
Definition convert_fn (use_cff : bool) : string -> M string :=
  if use_cff then _ensure_cff else _ensure_quadratic.

(** The body of the [for p in font_paths] loop of [merge_fonts]. *)
Definition process_font (use_cff : bool) (target_upm : Z)
  (drop_tables : option (list string)) (p : string) : M string :=
  converted ← _decid_cff p;
  converted ← convert_fn use_cff converted;
  converted ← _normalize_upm converted target_upm;
  _ ← _ensure_gsub converted;
  _ ← match drop_tables with
      | None | Some [] => mret tt
      | Some tags => _strip_tables converted tags
      end;
  mret converted.

Fixpoint for_each_M {A B} (f : A -> M B) (l : list A) : M (list B) :=
  match l with
  | [] => mret []
  | a :: l' =>
      b ← f a;
      bs ← for_each_M f l';
      mret (b :: bs)
  end.

(** [sum(1 for p in font_paths if _is_cff(p))] *)
Definition count_cff (font_paths : list string) : M Z :=
  flags ← for_each_M _is_cff font_paths;
  mret (Z.of_nat (length (List.filter id flags))).

(** [cff_count > len(font_paths) // 2] *)
Definition majority_cff (cff_count : Z) (font_paths : list string) : bool :=
  Z.of_nat (length font_paths) / 2 <? cff_count.

(** [shutil.copy2(src, dst)] to a file path [dst]: the source is read,
    then [dst] is opened for writing, which fails with [FileNotFoundError]
    when its directory does not exist ([merge_fonts] makes no directory
    before this call). *)
Definition copy2 (src dst : string) : M unit :=
  f ← open_font src;
  if decide (src = dst) then raise (LibraryError "SameFileError")
  else if is_dir (path_parent dst) then save dst f
  else raise (FileNotFoundError dst).

Definition merge_fonts (font_paths : list string) (output_path : string)
  (drop_tables : option (list string)) : M string :=
  match font_paths with
  | [] => raise (ValueError no_fonts_to_merge)
  | [p] =>
      _ ← copy2 p output_path;
      mret output_path
  | p0 :: _ :: _ =>
      cff_count ← count_cff font_paths;
      let use_cff := majority_cff cff_count font_paths in
      f ← open_font p0;
      target_upm ← lift (table "head" (head_unitsPerEm f));
      processed ← for_each_M (process_font use_cff target_upm drop_tables)
                    font_paths;
      inputs ← for_each_M open_font processed;
      _ ← emit (Merged inputs);
      merged ← lift (ft_merge inputs);
      let glyph_count := Z.of_nat (length (glyphOrder merged)) in
      if _TTF_GLYPH_LIMIT <? glyph_count then
        raise (RuntimeError (merged_too_large glyph_count))
      else
        merged ← lift (_rebuild_cmap merged);
        _ ← save output_path merged;
        mret output_path
  end.

End Merge.
End Merge.

Import Merge.

(** ** download.py *)

Module Download.
Section Download.
Context {P : Platform} {N : Network}.

Definition _MAX_RETRIES : nat := 3.

(** The [for attempt in range(1, _MAX_RETRIES + 1)] loop of [_download]:
    an attempt that fails with one of the exceptions caught is followed by
    the next one, the last by [RuntimeError]; any other exception leaves
    the loop. *)
Fixpoint download_from (attempt remaining : nat) (url dest : string)
  : M unit :=
  match remaining with
  | O => raise (RuntimeError (download_failed url))
  | S remaining' =>
      match fetch url attempt with
      | Body data => save dest data
      | Refused => download_from (S attempt) remaining' url dest
      | Broken what => raise (LibraryError what)
      end
  end.

(** [_download]: the request is built before the first attempt, outside
    the [try]. *)
Definition _download (url dest : string) : M unit :=
  match url_type url with
  | None => raise (ValueError (unknown_url_type url))
  | Some _ => download_from 1 _MAX_RETRIES url dest
  end.

Definition _cache_path (cache_dir font_name : string) : string :=
  path_join cache_dir font_name.

Definition ensure_font (cache_dir font_name url : string) : M string :=
  let cached := _cache_path cache_dir font_name in
  there ← exists_ cached;
  if there : bool then mret cached
  else
    _ ← _download url cached;
    mret cached.

(** [get_download_plan]: font name, URL and cache path of every enabled
    script. *)
Definition get_download_plan (config : BuildConfig)
  : list (string * string * string) :=
  (fun script : ScriptEntry =>
     (font script, url script, _cache_path (cache_dir config) (font script)))
  <$> List.filter enabled (scripts config).

End Download.
End Download.

Import Download.

(** ** pipeline.py *)

Module Pipeline.
Section Pipeline.
Context {U : UnicodeData} {FT : FontTools} {P : Platform} {N : Network}.

Definition _resolve_codepoints (script : ScriptEntry) (config : BuildConfig)
  : M (list Z) :=
  match charset_file script with
  | Some cf =>
      if decide (cf = ""%string) then
        lift (parse_unicode_ranges (unicode_ranges script))
      else
        let charset_path :=
          if is_absolute cf then cf
          else path_join (path_parent (cache_dir config)) cf in
        loaded ← Charsets.load_charset_file charset_path;
        let charset_cps : gset Z := list_to_set loaded in
        match unicode_ranges script with
        | [] => mret (sorted charset_cps)
        | _ :: _ =>
            parsed ← lift (parse_unicode_ranges (unicode_ranges script));
            let range_cps : gset Z := list_to_set parsed in
            mret (sorted (charset_cps ∪ range_cps))
        end
  | None => lift (parse_unicode_ranges (unicode_ranges script))
  end.

(** [[cp for cp in codepoints if cp not in covered_cps]], done only for a
    non-empty [covered_cps]. *)
Definition not_covered (covered_cps : gset Z) (codepoints : list Z)
  : list Z :=
  if decide (covered_cps = ∅) then codepoints
  else List.filter (fun cp => bool_decide (cp ∉ covered_cps)) codepoints.

(** The state of the subsetting loop of [build]. *)
Record subsets := {
  covered_cps : gset Z;
  subset_entries : list (string * bool)
}.

(** The body of the [for script in enabled] loop of step 2. *)
Definition subset_script (config : BuildConfig)
  (font_paths : gmap string string) (work_dir : string) (st : subsets)
  (script : ScriptEntry) : M subsets :=
  src ← lift (match font_paths !! name script with
              | Some p => Ok p
              | None => Raise (KeyError (name script))
              end);
  let out :=
    path_join work_dir ("subset_" ++ name script ++ ".otf")%string in
  codepoints ← _resolve_codepoints script config;
  let codepoints := not_covered (covered_cps st) codepoints in
  match codepoints with
  | [] => mret st
  | _ :: _ =>
      try_except_ValueError
        (_ ← subset_font src None (Some out) (Some codepoints);
         font ← open_font out;
         best ← lift (getBestCmap font);
         match best with
         | None => raise (AttributeError "keys")
         | Some cmap =>
             mret {| covered_cps := covered_cps st ∪ dom cmap;
                     subset_entries :=
                       subset_entries st ++ [(out, scale script)] |}
         end)
        (fun _ => mret st)
  end.

Fixpoint subset_loop (config : BuildConfig)
  (font_paths : gmap string string) (work_dir : string) (st : subsets)
  (enabled : list ScriptEntry) : M subsets :=
  match enabled with
  | [] => mret st
  | script :: rest =>
      st' ← subset_script config font_paths work_dir st script;
      subset_loop config font_paths work_dir st' rest
  end.

(** Step 1 of [build]: the [font_paths] dict. *)
Fixpoint download_all (config : BuildConfig) (font_paths : gmap string string)
  (enabled : list ScriptEntry) : M (gmap string string) :=
  match enabled with
  | [] => mret font_paths
  | script :: rest =>
      p ← ensure_font (cache_dir config) (font script) (url script);
      download_all config (<[name script := p]> font_paths) rest
  end.

(** [build] up to the end of step 2: the subset entries handed to the
    scaling and merging steps. *)
Definition build_subsets (config : BuildConfig) : M (list (string * bool)) :=
  let enabled := List.filter Config.enabled (scripts config) in
  match enabled with
  | [] => raise (RuntimeError nothing_enabled)
  | _ :: _ =>
      font_paths ← download_all config ∅ enabled;
      work_dir ← mkdtemp "op_fonts_";
      st ← subset_loop config font_paths work_dir
             {| covered_cps := ∅; subset_entries := [] |} enabled;
      match subset_entries st with
      | [] => raise (RuntimeError all_subsets_empty)
      | _ :: _ => mret (subset_entries st)
      end
  end.

(** [obj.attr] for an attribute that only later table versions have *)
Definition attr {A} (a : string) (v : option A) : result A :=
  match v with
  | Some x => Ok x
  | None => Raise (AttributeError a)
  end.

Definition _get_cap_ratio (font_path : string) : M float :=
  font ← open_font font_path;
  upm ← lift (table "head" (head_unitsPerEm font));
  os2 ← lift (table "OS/2" (os2 font));
  cap ← lift (attr "sCapHeight" (sCapHeight os2));
  if negb (upm =? 0) && (0 <? cap) then lift (PyFloat.int_truediv cap upm)
  else mret 0%float.

(** [round(n * scale)] *)
Definition scaled (scale : float) (n : Z) : result Z :=
  x ← PyFloat.int_mul n scale;
  PyFloat.round x.

(** [round(v * scale) if v else 0] *)
Definition scaled_or_zero (scale : float) (v : Z) : result Z :=
  if v =? 0 then Ok 0 else scaled scale v.

(** [hmtx.metrics[gname][0] if gname in hmtx.metrics else 0] *)
Definition width_of (metrics : list (string * (Z * Z))) (gname : string) : Z :=
  match List.find (fun e => bool_decide (e.1 = gname)) metrics with
  | Some e => e.2.1
  | None => 0
  end.

(** The [if "CFF " in font] block of [_scale_to_target]. *)
Definition scale_cff (scale : float) (font : TTFont) : result TTFont :=
  match cff font with
  | None => Ok font
  | Some c =>
      metrics ← table "hmtx" (hmtx_metrics font);
      cs ← for_each (fun e : string * blob =>
              w ← scaled scale (width_of metrics e.1);
              Ok (e.1, ft_scale_charstring scale w e.2)) (CharStrings c);
      metrics' ← for_each (fun e : string * (Z * Z) =>
              w ← scaled scale e.2.1;
              lsb ← scaled scale e.2.2;
              Ok (e.1, (w, lsb))) metrics;
      Ok (set_hmtx metrics'
            (set_cff {| ROS := ROS c; CharStrings := cs |} font))
  end.

(** [scale = target_cap_ratio / (source_cap / upm)] *)
Definition scale_factor (target_cap_ratio : float) (source_cap upm : Z)
  : result float :=
  source_ratio ← PyFloat.int_truediv source_cap upm;
  PyFloat.truediv target_cap_ratio source_ratio.

(** [abs(scale - 1.0) < 0.001] *)
Definition near_one (scale : float) : bool :=
  PrimFloat.ltb (PrimFloat.abs (PrimFloat.sub scale 1%float))
    0x1.0624dd2f1a9fcp-10%float.

Definition _scale_to_target (font_path : string) (target_cap_ratio : float)
  : M unit :=
  font ← open_font font_path;
  upm ← lift (table "head" (head_unitsPerEm font));
  os2 ← lift (table "OS/2" (os2 font));
  source_cap ← lift (attr "sCapHeight" (sCapHeight os2));
  if source_cap <=? 0 then mret tt
  else
    scale ← lift (scale_factor target_cap_ratio source_cap upm);
    if near_one scale then mret tt
    else
      font ← lift (scale_cff scale font);
      xh ← lift (attr "sxHeight" (sxHeight os2));
      xh' ← lift (scaled_or_zero scale xh);
      cap' ← lift (scaled_or_zero scale source_cap);
      let os2' :=
        {| sTypoAscender := sTypoAscender os2;
           sTypoDescender := sTypoDescender os2;
           sTypoLineGap := sTypoLineGap os2;
           usWinAscent := usWinAscent os2;
           usWinDescent := usWinDescent os2;
           sxHeight := Some xh';
           sCapHeight := Some cap' |} in
      save font_path (set_os2 os2' font).

(** The scaling loop of [build] that follows step 2. *)
Fixpoint scale_entries (target_ratio : float) (entries : list (string * bool))
  : M unit :=
  match entries with
  | [] => mret tt
  | (sp, should_scale) :: rest =>
      _ ← (if should_scale then _scale_to_target sp target_ratio
           else mret tt);
      scale_entries target_ratio rest
  end.

Definition scale_subsets (config : BuildConfig)
  (entries : list (string * bool)) : M unit :=
  let target_ratio := target_cap_ratio (metrics config) in
  target_ratio ←
    (if PrimFloat.leb target_ratio 0%float then
       match entries with
       | (p, _) :: _ => _get_cap_ratio p
       | [] => raise (LibraryError "IndexError")
       end
     else mret target_ratio);
  if PrimFloat.ltb 0%float target_ratio then scale_entries target_ratio entries
  else mret tt.

Definition _fix_metrics (font_path : string) (metrics : MetricsConfig)
  : M unit :=
  if (ascender metrics =? 0) && (descender metrics =? 0) then mret tt
  else
    font ← open_font font_path;
    let ascender := ascender metrics in
    let descender := descender metrics in
    os2 ← lift (table "OS/2" (os2 font));
    let os2 :=
      {| sTypoAscender := ascender;
         sTypoDescender := descender;
         sTypoLineGap := 0;
         usWinAscent := ascender;
         usWinDescent := Z.abs descender;
         sxHeight := sxHeight os2;
         sCapHeight := sCapHeight os2 |} in
    hhea ← lift (table "hhea" (hhea font));
    let hhea := {| ascent := ascender; descent := descender; lineGap := 0 |} in
    (* [font.save] compiles the two tables, which were loaded and changed,
       before it opens the file for writing *)
    if os2_packs os2 && hhea_packs hhea then
      save font_path (set_hhea hhea (set_os2 os2 font))
    else raise (LibraryError "struct.error").

(** The body of the [for script in cfg.scripts] loop of [build_all]. *)
Definition weight_script (weight : string) (script : ScriptEntry)
  : ScriptEntry :=
  if bool_decide (weights script = []) || bool_decide (weight ∈ weights script)
  then
    {| name := name script; enabled := enabled script;
       font := str_replace "Regular" weight (font script);
       unicode_ranges := unicode_ranges script;
       url := str_replace "Regular" weight (url script);
       charset_file := charset_file script; scale := scale script;
       weights := weights script |}
  else script.

(** The configuration [build_all] builds for one weight. *)
Definition weight_config (config : BuildConfig) (weight : string)
  : BuildConfig :=
  {| cfg_name := cfg_name config;
     style := weight;
     output := (cfg_name config ++ "-" ++ weight ++ ".otf")%string;
     cache_dir := cache_dir config;
     output_dir := output_dir config;
     scripts := weight_script weight <$> scripts config;
     merge := merge config;
     metrics := metrics config |}.

(** [build_all], over the weights of the configuration ([weight_values]
    in the order of the file) and the [build] it calls. *)
Definition build_all {A} (build : BuildConfig -> M A)
  (config_weights : list string) (config : BuildConfig) : M (list A) :=
  match config_weights with
  | [] => out ← build config; mret [out]
  | _ :: _ =>
      for_each_M (fun weight => build (weight_config config weight))
        config_weights
  end.

End Pipeline.
End Pipeline.

Import Pipeline.

(** ** extract.py *)

(** What [urlopen(...).read().decode("utf-8")] returns for a URL. *)
Class Web := {
  urlopen_text : string -> result pystr
}.

Module Extract.
Section Extract.
Context {U : UnicodeData} {W : Web}.

Definition _read_source (source : string) : M pystr :=
  if String.prefix "http://" source || String.prefix "https://" source
  then lift (urlopen_text source)
  else read_text source.

(** [_extract_from_quoted(s, out)]: the set [out] after the call.  Code
    point 34 is the double quote, 92 the backslash. *)
Definition _extract_from_quoted (s : pystr) (out : gset Z) : gset Z :=
  let s := strip s in
  if negb (startswith [34] s) || negb (endswith [34] s) then out
  else
    let s := slice_1_m1 s in
    let s := replace [92; 34] [34] s in
    let s := replace [92; 110] [10] s in
    let s := replace [92; 116] [9] s in
    out ∪ list_to_set s.

(** The [for line in text.splitlines()] loop of [extract_from_pot]: the
    [in_msgid] flag and the code points collected. *)
Fixpoint msgid_lines (in_msgid : bool) (codepoints : gset Z)
  (lines : list pystr) : gset Z :=
  match lines with
  | [] => codepoints
  | line :: rest =>
      if startswith (lit "msgid ") line then
        msgid_lines true (_extract_from_quoted (drop 6 line) codepoints) rest
      else if startswith (lit "msgstr ") line then
        msgid_lines false codepoints rest
      else if in_msgid && startswith [34] line then
        msgid_lines in_msgid (_extract_from_quoted line codepoints) rest
      else msgid_lines in_msgid codepoints rest
  end.

Definition extract_from_text (text : pystr) : gset Z :=
  filter (fun cp => 127 < cp) (msgid_lines false ∅ (splitlines text)).

Definition extract_from_pot (source : string) : M (gset Z) :=
  text ← _read_source source;
  mret (extract_from_text text).

End Extract.
End Extract.

Import Extract.

(** ** naming.py *)

Module Naming.

(** A record of the [name] table. *)
Record NameRecord := {
  nameID : Z;
  name_platformID : Z;
  name_platEncID : Z;
  langID : Z;
  name_string : string
}.

(** [name_table.setName(string, nameID, platformID, platEncID, langID)]:
    the first record with these four keys gets the string; without one a
    record is appended. *)
Fixpoint setName (value : string) (n p e l : Z) (names : list NameRecord)
  : list NameRecord :=
  match names with
  | [] =>
      [ {| nameID := n; name_platformID := p; name_platEncID := e;
           langID := l; name_string := value |} ]
  | r :: rest =>
      if (nameID r =? n) && (name_platformID r =? p)
         && (name_platEncID r =? e) && (langID r =? l)
      then {| nameID := n; name_platformID := p; name_platEncID := e;
              langID := l; name_string := value |} :: rest
      else r :: setName value n p e l rest
  end.

(** [name_table.getName(nameID, platformID, platEncID, langID)] *)
Definition getName (n p e l : Z) (names : list NameRecord)
  : option NameRecord :=
  List.find (fun r => (nameID r =? n) && (name_platformID r =? p)
                      && (name_platEncID r =? e) && (langID r =? l)) names.

(** The [entries] dict of [rename_font], in insertion order. *)
Definition name_entries (family_name style_name version copyright
  designer : string) : list (Z * string) :=
  let full_name := (family_name ++ "-" ++ style_name)%string in
  let ps_name := str_replace " " "" full_name in
  let unique_id := (version ++ ";" ++ ps_name)%string in
  let version_str := ("Version " ++ version)%string in
  [ (1, family_name); (2, style_name); (3, unique_id);
    (4, (family_name ++ " " ++ style_name)%string); (5, version_str);
    (6, ps_name) ]
  ++ (if decide (copyright = ""%string) then [] else [(0, copyright)])
  ++ (if decide (designer = ""%string) then [] else [(9, designer)]).

(** The [for name_id, value in entries.items()] loop. *)
Definition set_names (entries : list (Z * string)) (names : list NameRecord)
  : list NameRecord :=
  fold_left (fun names e =>
               setName e.2 e.1 1 0 0 (setName e.2 e.1 3 1 1033 names))
    entries names.

(** The name table of [rename_font]'s result, from the one it read. *)
Definition rename_names (family_name style_name version copyright
  designer : string) (names : list NameRecord) : list NameRecord :=
  set_names (name_entries family_name style_name version copyright designer)
    names.

End Naming.

Import Naming.

(** ** A small implementation of the interfaces

    Used to run the definitions on concrete fonts.  The Unicode data knows
    ASCII only; the font operations keep just what the sources inspect. *)

Module Sample.

Definition unicode : UnicodeData :=
  {| uni_isspace := fun _ => false;
     uni_decimal := fun _ => None;
     uni_upper := fun c => [c] |}.

Definition restrict (unicodes : list Z) (t : CmapSubtable) : CmapSubtable :=
  {| platformID := platformID t; platEncID := platEncID t;
     format := format t; language := language t;
     cmap := filter (fun kv => kv.1 ∈ unicodes) (cmap t) |}.

Definition subset (unicodes : list Z) (f : TTFont) : TTFont :=
  {| glyphOrder := glyphOrder f; head_unitsPerEm := head_unitsPerEm f;
     os2 := os2 f; hhea := hhea f; hmtx_metrics := hmtx_metrics f;
     cmap_tables := List.map (restrict unicodes) <$> cmap_tables f;
     cff := cff f; gsub := None;
     other_tables := delete "GDEF"%string (delete "GPOS"%string
                       (delete "meta"%string (other_tables f))) |}.

Definition default_os2 : OS2 :=
  {| sTypoAscender := 0; sTypoDescender := 0; sTypoLineGap := 0;
     usWinAscent := 0; usWinDescent := 0;
     sxHeight := Some 0; sCapHeight := Some 0 |}.

Definition build_glyphs (i : BuilderInput) : result TTFont :=
  Ok {| glyphOrder := b_glyphOrder i;
        head_unitsPerEm := Some (b_unitsPerEm i);
        os2 := None; hhea := None;
        hmtx_metrics := Some (b_metrics i);
        cmap_tables :=
          Some [ {| platformID := 3; platEncID := 1; format := 4;
                    language := 0; cmap := b_cmap i |} ];
        cff := if b_isTTF i then None
               else Some {| ROS := false; CharStrings := b_outlines i |};
        gsub := None;
        other_tables :=
          if b_isTTF i then {[ "glyf"%string := [] ]} else ∅ |}.

Definition build_tables (f : TTFont) (asc desc : Z) (family : string)
  : result TTFont :=
  Ok (set_hhea {| ascent := asc; descent := desc; lineGap := 0 |}
        (set_os2 default_os2 f)).

Definition scale_upem (f : TTFont) (upm : Z) : result TTFont :=
  Ok {| glyphOrder := glyphOrder f; head_unitsPerEm := Some upm;
        os2 := os2 f; hhea := hhea f; hmtx_metrics := hmtx_metrics f;
        cmap_tables := cmap_tables f; cff := cff f; gsub := gsub f;
        other_tables := other_tables f |}.

Definition merge_all (fs : list TTFont) : result TTFont :=
  match fs with
  | [] => Raise (LibraryError "nothing to merge")
  | f :: _ =>
      Ok {| glyphOrder := concat (glyphOrder <$> fs);
            head_unitsPerEm := head_unitsPerEm f;
            os2 := os2 f; hhea := hhea f;
            hmtx_metrics := Some (concat (default [] ∘ hmtx_metrics <$> fs));
            cmap_tables := Some (concat (default [] ∘ cmap_tables <$> fs));
            cff := cff f; gsub := gsub f;
            other_tables := other_tables f |}
  end.

Definition fonttools : FontTools :=
  {| ft_subset := subset;
     ft_draw_t2 := fun _ _ w => [w];
     ft_draw_quadratic := fun _ _ => [];
     ft_scale_charstring := fun _ w b => w :: b;
     ft_build_glyphs := build_glyphs;
     ft_build_tables := build_tables;
     ft_scale_upem := scale_upem;
     ft_merge := merge_all |}.

Definition platform : Platform :=
  {| with_suffix := fun p s => (p ++ s)%string;
     path_name := fun p => p;
     path_stem := fun p => p;
     path_parent := fun p => (p ++ "/..")%string;
     path_join := fun p q => (p ++ "/" ++ q)%string;
     is_absolute := fun p =>
       match p with String "/" _ => true | _ => false end;
     is_dir := fun p => negb (String.prefix "nowhere/" p);
     temp_name := fun n s => ("/tmp/tmp" ++ pretty n ++ s)%string;
     temp_dir := fun n s => ("/tmp/" ++ s ++ pretty n)%string |}.

(** The scheme of a URL: the text before its first [:], when that is not
    empty and has no [/]. *)
Fixpoint scheme_of (seen : string) (url : string) : option string :=
  match url with
  | EmptyString => None
  | String c rest =>
      if Ascii.eqb c ":" then
        match seen with EmptyString => None | _ => Some seen end
      else if Ascii.eqb c "/" then None
      else scheme_of (seen ++ String c EmptyString) rest
  end.

(** A network that refuses every request. *)
Definition network : Network :=
  {| url_type := scheme_of ""; fetch := fun _ _ => Refused |}.

(** A font with the given best character map ([3, 10] subtable), glyphs
    and outline tables. *)
Definition font_of (glyphs : list string) (mapping : list (Z * string))
  (cff_outlines : bool) (upm cap : Z) : TTFont :=
  {| glyphOrder := glyphs;
     head_unitsPerEm := Some upm;
     os2 := Some {| sTypoAscender := 800; sTypoDescender := -200;
                    sTypoLineGap := 90; usWinAscent := 900;
                    usWinDescent := 250;
                    sxHeight := Some 500; sCapHeight := Some cap |};
     hhea := Some {| ascent := 900; descent := -250; lineGap := 50 |};
     hmtx_metrics := Some ((fun g => (g, (600, 50))) <$> glyphs);
     cmap_tables :=
       Some [ {| platformID := 3; platEncID := 10; format := 12;
                 language := 0; cmap := list_to_map mapping |} ];
     cff := if cff_outlines
            then Some {| ROS := false;
                         CharStrings := (fun g => (g, [])) <$> glyphs |}
            else None;
     gsub := None;
     other_tables :=
       if cff_outlines then ∅ else {[ "glyf"%string := [] ]} |}.

Definition world_of (files : list (string * TTFont))
  (charsets : list (string * pystr)) : World :=
  {| fonts := list_to_map files; texts := list_to_map charsets;
     temps := 0; trace := [] |}.

(** Two source fonts: [font_ab] has CFF outlines, 1000 units per em and
    maps U+0041, U+0042; [font_bc] has TrueType outlines, 2048 units per
    em and maps U+0042, U+0043. *)
Definition cmap_ab : gmap Z string :=
  list_to_map [(65, "A"%string); (66, "B"%string)].

Definition font_ab : TTFont :=
  font_of ["A"; "B"]%string [(65, "A"%string); (66, "B"%string)]
    true 1000 700.

Definition font_bc : TTFont :=
  font_of ["B"; "C"]%string [(66, "B"%string); (67, "C"%string)]
    false 2048 1400.

Definition world_ab : World :=
  world_of [("cache/a.otf"%string, font_ab); ("cache/b.ttf"%string, font_bc)]
    [].

(** A third font, with CFF outlines, and the three together. *)
Definition font_d : TTFont :=
  font_of ["D"]%string [(68, "D"%string)] true 1000 700.

Definition world_abd : World :=
  world_of [("cache/a.otf"%string, font_ab); ("cache/b.ttf"%string, font_bc);
            ("cache/d.otf"%string, font_d)] [].

(** A merger whose result has 70000 glyphs, whatever it is given, and
    fontTools with that merger. *)
Definition large_font : TTFont :=
  {| glyphOrder := replicate (Z.to_nat 70000) ".notdef"%string;
     head_unitsPerEm := Some 1000;
     os2 := None; hhea := None; hmtx_metrics := None;
     cmap_tables := Some [];
     cff := None; gsub := None;
     other_tables := {[ "glyf"%string := [] ]} |}.

Definition fonttools_large : FontTools :=
  {| ft_subset := subset;
     ft_draw_t2 := fun _ _ w => [w];
     ft_draw_quadratic := fun _ _ => [];
     ft_scale_charstring := fun _ w b => w :: b;
     ft_build_glyphs := build_glyphs;
     ft_build_tables := build_tables;
     ft_scale_upem := scale_upem;
     ft_merge := fun _ => Ok large_font |}.

(** What [merge_fonts] hands to the merger for [font_ab] and [font_bc]. *)
Definition prepared_ab : list TTFont :=
  Eval vm_compute in
    match trace (merge_fonts (FT := fonttools) (P := platform)
                   ["cache/a.otf"; "cache/b.ttf"]%string "dist/out.otf" None
                   world_ab).1 with
    | [Merged inputs] => inputs
    | _ => []
    end.

(** Two enabled scripts over these fonts, both asking for U+0042. *)
Definition script_latin : ScriptEntry :=
  {| name := "latin"; enabled := true; font := "a.otf";
     unicode_ranges := [lit "U+0041-0043"]; url := "";
     charset_file := None; scale := true; weights := [] |}.

Definition script_other : ScriptEntry :=
  {| name := "other"; enabled := true; font := "b.ttf";
     unicode_ranges := [lit "U+0042-0044"]; url := "";
     charset_file := None; scale := true; weights := [] |}.

Definition config : BuildConfig :=
  {| cfg_name := "Sample"; style := "Regular"; output := "Sample.otf";
     cache_dir := "cache"; output_dir := "dist";
     scripts := [script_latin; script_other];
     merge := {| drop_tables := []; keep_features := [] |};
     metrics := {| ascender := 0; descender := 0;
                   target_cap_ratio := 0%float |} |}.

End Sample.

(** ** Specification vocabulary *)

Definition is_hex_digit (c : Z) : Prop :=
  48 <= c <= 57 \/ 65 <= c <= 70 \/ 97 <= c <= 102.

Definition hex_digit_value (c : Z) : Z :=
  if c <=? 57 then c - 48 else if c <=? 70 then c - 55 else c - 87.

Definition hex_value (ds : pystr) : Z :=
  fold_left (fun acc c => 16 * acc + hex_digit_value c) ds 0.

(** A non-empty run of hexadecimal digits. *)
Definition hex_number (ds : pystr) : Prop :=
  ds <> [] /\ Forall is_hex_digit ds.

(** [U+XXXX] and [U+XXXX-YYYY], with the numbers they denote. *)
Inductive range_text : pystr -> Z -> Z -> Prop :=
| range_single ds :
    hex_number ds ->
    range_text (lit "U+" ++ ds) (hex_value ds) (hex_value ds)
| range_span ds1 ds2 :
    hex_number ds1 -> hex_number ds2 ->
    range_text (lit "U+" ++ ds1 ++ lit "-" ++ ds2)
      (hex_value ds1) (hex_value ds2).

Definition well_formed_range (r : pystr) (span : Z * Z) : Prop :=
  range_text r span.1 span.2 /\ span.1 <= span.2.

(** ** The Python runtime *)

(** Membership in a list written out. *)
Ltac list_mem :=
  solve [repeat first [apply list_elem_of_here | apply list_elem_of_further]].

Lemma StronglySorted_le_lt (l : list Z) :
  StronglySorted Z.le l -> NoDup l -> StronglySorted Z.lt l.
Proof.
  induction 1 as [|a l Hl IH Ha]; intros Hnd; constructor.
  - apply IH. by inversion Hnd.
  - inversion Hnd as [|?? Hnotin _]; subst.
    rewrite Forall_forall in Ha |- *. intros x Hx.
    specialize (Ha x Hx).
    assert (a <> x) by (intros ->; apply Hnotin; by apply list_elem_of_In).
    lia.
Qed.

Lemma sorted_strictly (s : gset Z) : StronglySorted Z.lt (sorted s).
Proof.
  apply StronglySorted_le_lt.
  - apply StronglySorted_merge_sort; [ intros x y z; lia | intros x y; lia ].
  - unfold sorted. rewrite merge_sort_Permutation. apply NoDup_elements.
Qed.

Lemma elem_of_sorted (s : gset Z) (x : Z) : x ∈ sorted s <-> x ∈ s.
Proof.
  unfold sorted. rewrite merge_sort_Permutation. apply elem_of_elements.
Qed.


Section StrLemmas.
Context {U : UnicodeData}.

(** The upper-case image of an ASCII character. *)
Definition ascii_upper (c : Z) : Z :=
  if (97 <=? c) && (c <=? 122) then c - 32 else c.

Lemma upper_ascii (s : pystr) :
  Forall (fun c => c < 128) s -> upper s = List.map ascii_upper s.
Proof.
  induction 1 as [|c s Hc _ IH]; [done|].
  unfold upper in *. simpl. rewrite IH. unfold upper_char.
  destruct (Z.ltb_spec c 128); [done | lia].
Qed.

Lemma upper_app (s t : pystr) : upper (s ++ t) = upper s ++ upper t.
Proof. unfold upper. apply flat_map_app. Qed.

Lemma hex_digit_ascii (ds : pystr) :
  Forall is_hex_digit ds -> Forall (fun c => c < 128) ds.
Proof.
  intros Hds. eapply Forall_impl; [done|]. unfold is_hex_digit. lia.
Qed.

Lemma ascii_upper_hex (c : Z) :
  is_hex_digit c ->
  is_hex_digit (ascii_upper c) /\
  hex_digit_value (ascii_upper c) = hex_digit_value c.
Proof.
  unfold is_hex_digit, ascii_upper, hex_digit_value. intros Hc.
  repeat (match goal with
          | |- context [Z.leb ?a ?b] => destruct (Z.leb_spec a b)
          end; simpl); lia.
Qed.

Lemma upper_hex (ds : pystr) :
  Forall is_hex_digit ds ->
  exists ds', upper ds = ds' /\ Forall is_hex_digit ds' /\
              length ds' = length ds /\ hex_value ds' = hex_value ds.
Proof.
  intros Hds. exists (List.map ascii_upper ds).
  split; [by apply upper_ascii, hex_digit_ascii|].
  split; [|split].
  - induction Hds; constructor; [by apply ascii_upper_hex | done].
  - by rewrite length_map.
  - unfold hex_value. generalize 0.
    induction Hds as [|c ds Hc _ IH]; intros acc; [done|].
    simpl. rewrite IH. by destruct (ascii_upper_hex c Hc) as [_ ->].
Qed.

Lemma digit16_hex (c : Z) :
  is_hex_digit c -> digit16 c = Some (hex_digit_value c) /\ c <> 95.
Proof.
  unfold is_hex_digit, digit16, hex_digit_value. intros Hc.
  repeat (match goal with
          | |- context [Z.leb ?a ?b] => destruct (Z.leb_spec a b)
          end; simpl); first [lia | split; [f_equal|]; lia].
Qed.

Lemma scan_digits_hex (ds : pystr) (acc : Z) (seen : bool) :
  Forall is_hex_digit ds ->
  scan_digits acc seen false ds =
  Some (fold_left (fun a c => 16 * a + hex_digit_value c) ds acc,
        seen || bool_decide (ds <> []), []).
Proof.
  intros Hds. revert acc seen.
  induction Hds as [|c ds Hc _ IH]; intros acc seen.
  - simpl. by rewrite orb_false_r.
  - simpl. destruct (digit16_hex c Hc) as [-> Hne].
    destruct (Z.eqb_spec c 95); [done|].
    rewrite IH. by rewrite orb_true_r.
Qed.

Lemma int_transform_ascii (s : pystr) :
  Forall (fun c => c < 128) s -> List.map int_transform s = s.
Proof.
  induction 1 as [|c s Hc _ IH]; [done|]. simpl. rewrite IH.
  unfold int_transform. destruct (Z.ltb_spec c 128); [done | lia].
Qed.

Lemma lstrip_by_head (p : Z -> bool) (c : Z) (s : pystr) :
  p c = false -> lstrip_by p (c :: s) = c :: s.
Proof. intros Hc. simpl. by rewrite Hc. Qed.

(** [int(ds, 16)] on a run of hexadecimal digits is the number written. *)
Lemma int16_hex_number (ds : pystr) :
  hex_number ds -> int16 ds = Ok (hex_value ds).
Proof.
  intros [Hne Hds]. unfold int16, int16_opt.
  rewrite int_transform_ascii by by apply hex_digit_ascii.
  destruct Hds as [|c ds Hc Hds]; [done|].
  assert (Hc' := Hc). unfold is_hex_digit in Hc'.
  assert (Hsp : int_space c = false).
  { unfold int_space.
    repeat (match goal with
            | |- context [Z.leb ?a ?b] => destruct (Z.leb_spec a b)
            | |- context [Z.eqb ?a ?b] => destruct (Z.eqb_spec a b)
            end; simpl); lia. }
  rewrite (lstrip_by_head int_space c ds Hsp).
  assert (Hsign : int_sign (c :: ds) = (false, c :: ds)).
  { unfold int_sign.
    destruct (Z.eqb_spec c 43); [lia|].
    destruct (Z.eqb_spec c 45); [lia | done]. }
  rewrite Hsign.
  assert (Hpre : int_prefix (c :: ds) = c :: ds).
  { unfold int_prefix. destruct ds as [|x r]; [done|].
    inversion Hds as [|?? Hx _]; subst. unfold is_hex_digit in Hx.
    destruct (Z.eqb_spec x 120); [lia|]. destruct (Z.eqb_spec x 88); [lia|].
    by rewrite andb_false_r. }
  rewrite Hpre.
  assert (Hus : startswith [95] (c :: ds) = false).
  { unfold startswith. destruct (Z.eqb_spec 95 c); [lia | done]. }
  rewrite Hus.
  rewrite (scan_digits_hex (c :: ds) 0 false) by by constructor.
  done.
Qed.

(** [strip] leaves a text alone that neither begins nor ends with white
    space. *)
Lemma strip_id (c d : Z) (s : pystr) :
  isspace c = false -> isspace d = false ->
  strip (c :: s ++ [d]) = c :: s ++ [d].
Proof.
  intros Hc Hd. unfold strip, rstrip_by.
  rewrite lstrip_by_head by done.
  assert (E : rev (c :: s ++ [d]) = d :: rev (c :: s)).
  { change (c :: s ++ [d]) with ((c :: s) ++ [d]). by rewrite rev_app_distr. }
  rewrite E. rewrite lstrip_by_head by done. rewrite <- E.
  apply rev_involutive.
Qed.

Lemma strip_id_single (c : Z) :
  isspace c = false -> strip [c] = [c].
Proof.
  intros Hc. unfold strip, rstrip_by. rewrite lstrip_by_head by done.
  change (rev [c]) with [c]. by rewrite lstrip_by_head.
Qed.

Lemma hex_digit_not_space (c : Z) : is_hex_digit c -> isspace c = false.
Proof.
  unfold is_hex_digit, isspace. intros Hc.
  repeat (match goal with
          | |- context [Z.leb ?a ?b] => destruct (Z.leb_spec a b)
          | |- context [Z.ltb ?a ?b] => destruct (Z.ltb_spec a b)
          end; simpl); lia.
Qed.

Lemma contains_hex (ds : pystr) :
  Forall is_hex_digit ds -> contains 45 ds = false.
Proof.
  unfold contains.
  induction 1 as [|c ds Hc _ IH]; [done|]. cbn [existsb].
  rewrite IH. unfold is_hex_digit in Hc.
  destruct (Z.eqb_spec 45 c); [lia | done].
Qed.

Lemma split_first_hex (ds rest : pystr) :
  Forall is_hex_digit ds ->
  split_first 45 (ds ++ 45 :: rest) = (ds, rest).
Proof.
  induction 1 as [|c ds Hc _ IH]; [done|].
  cbn [app split_first]. rewrite IH.
  unfold is_hex_digit in Hc. destruct (Z.eqb_spec c 45); [lia | done].
Qed.

Lemma contains_app_dash (ds rest : pystr) :
  contains 45 (ds ++ 45 :: rest) = true.
Proof.
  unfold contains. rewrite existsb_app. cbn [existsb].
  by rewrite Z.eqb_refl, orb_true_r.
Qed.

End StrLemmas.


(** ** parse_unicode_ranges *)

Section ParseRanges.
Context {U : UnicodeData}.

Lemma lit_prefix : lit "U+" = [85; 43].
Proof. reflexivity. Qed.

Lemma lit_dash : lit "-" = [45].
Proof. reflexivity. Qed.

(** One step of the loop on a text of the form [U+XXXX] or [U+XXXX-YYYY]:
    the numbers from [a] to [b] are added, whatever their order. *)
Lemma parse_one_range_text (cps : gset Z) (r : pystr) (a b : Z) :
  range_text r a b ->
  exists cps', parse_one cps r = Ok cps' /\
    forall x, x ∈ cps' <-> x ∈ cps \/ a <= x <= b.
Proof.
  intros Hr. destruct Hr as [ds [Hne Hds] | ds1 ds2 [Hne1 Hds1] [Hne2 Hds2]].
  - destruct (upper_hex ds Hds) as (ds' & Hup & Hds' & Hlen & Hval).
    assert (Hne' : ds' <> []).
    { destruct ds', ds; simpl in Hlen; done. }
    assert (Hstrip : strip (lit "U+" ++ ds) = lit "U+" ++ ds).
    { rewrite lit_prefix.
      destruct (exists_last Hne) as (ds0 & d & ->).
      apply Forall_app in Hds as [_ Hd]. inversion Hd; subst.
      change ([85; 43] ++ ds0 ++ [d]) with (85 :: (43 :: ds0) ++ [d]).
      apply strip_id; [done | by apply hex_digit_not_space]. }
    unfold parse_one. rewrite Hstrip, upper_app, Hup.
    change (upper (lit "U+")) with (lit "U+"). rewrite lit_prefix.
    cbn [app startswith negb drop].
    rewrite !Z.eqb_refl. cbn [andb negb]. rewrite ?drop_0.
    rewrite (contains_hex ds') by done.
    rewrite (int16_hex_number ds') by done.
    eexists; split; [reflexivity|].
    intros x. rewrite elem_of_union, elem_of_singleton, Hval.
    split; (intros [?|?]; [by left | right; lia]).
  - destruct (upper_hex ds1 Hds1) as (ds1' & Hup1 & Hds1' & Hlen1 & Hval1).
    destruct (upper_hex ds2 Hds2) as (ds2' & Hup2 & Hds2' & Hlen2 & Hval2).
    assert (Hne1' : ds1' <> []).
    { destruct ds1', ds1; simpl in Hlen1; done. }
    assert (Hne2' : ds2' <> []).
    { destruct ds2', ds2; simpl in Hlen2; done. }
    assert (Hstrip : strip (lit "U+" ++ ds1 ++ lit "-" ++ ds2)
                     = lit "U+" ++ ds1 ++ lit "-" ++ ds2).
    { rewrite lit_prefix, lit_dash.
      destruct (exists_last Hne2) as (ds0 & d & ->).
      apply Forall_app in Hds2 as [_ Hd]. inversion Hd; subst.
      change ([85; 43] ++ ds1 ++ [45] ++ ds0 ++ [d])
        with (85 :: (43 :: ds1 ++ 45 :: ds0 ++ [d])).
      replace (43 :: ds1 ++ 45 :: ds0 ++ [d])
        with ((43 :: ds1 ++ 45 :: ds0) ++ [d])
        by (simpl; by rewrite <- app_assoc).
      apply strip_id; [done | by apply hex_digit_not_space]. }
    unfold parse_one. rewrite Hstrip, !upper_app, Hup1, Hup2.
    change (upper (lit "U+")) with (lit "U+").
    change (upper (lit "-")) with (lit "-").
    rewrite lit_prefix, lit_dash.
    cbn [app startswith negb drop].
    rewrite !Z.eqb_refl. cbn [andb negb]. rewrite ?drop_0.
    rewrite contains_app_dash, (split_first_hex ds1') by done.
    rewrite (int16_hex_number ds1'), (int16_hex_number ds2') by done.
    eexists; split; [reflexivity|].
    intros x. rewrite elem_of_union, elem_of_list_to_set. unfold range.
    rewrite elem_of_seqZ, Hval1, Hval2.
    split; (intros [?|?]; [by left | right; lia]).
Qed.

Lemma parse_loop_range_texts (cps : gset Z) (ranges : list pystr)
  (spans : list (Z * Z)) :
  Forall2 (fun r sp => range_text r sp.1 sp.2) ranges spans ->
  exists cps', parse_loop cps ranges = Ok cps' /\
    forall x, x ∈ cps' <->
      x ∈ cps \/ Exists (fun sp : Z * Z => sp.1 <= x <= sp.2) spans.
Proof.
  intros HF. revert cps.
  induction HF as [|r sp ranges spans Hr _ IH]; intros cps.
  - exists cps. split; [done|]. intros x. rewrite Exists_nil. tauto.
  - destruct (parse_one_range_text cps r _ _ Hr) as (cps1 & Hone & Hin1).
    destruct (IH cps1) as (cps2 & Hloop & Hin2).
    exists cps2. split.
    + cbn [parse_loop]. rewrite Hone. exact Hloop.
    + intros x. rewrite Hin2, Hin1, Exists_cons. tauto.
Qed.

Lemma parse_unicode_ranges_range_texts (ranges : list pystr)
  (spans : list (Z * Z)) :
  Forall2 (fun r sp => range_text r sp.1 sp.2) ranges spans ->
  exists cps, parse_unicode_ranges ranges = Ok cps /\
    StronglySorted Z.lt cps /\
    forall x, x ∈ cps <->
      Exists (fun sp : Z * Z => sp.1 <= x <= sp.2) spans.
Proof.
  intros HF.
  destruct (parse_loop_range_texts ∅ ranges spans HF) as (s & Hloop & Hin).
  exists (sorted s). unfold parse_unicode_ranges. rewrite Hloop.
  split; [done|]. split; [apply sorted_strictly|].
  intros x. rewrite elem_of_sorted, Hin.
  split; [intros [Hx|Hx]; [by apply not_elem_of_empty in Hx | done] | by right].
Qed.

(** C4. For every list of well-formed range strings ([U+XXXX] or
    [U+XXXX-YYYY], hexadecimal digits, start at most end),
    [parse_unicode_ranges] returns a strictly increasing list (sorted, no
    duplicates) whose members are exactly the code points lying in one of
    the inclusive ranges. *)
Theorem parse_unicode_ranges_well_formed (ranges : list pystr)
  (spans : list (Z * Z)) :
  Forall2 well_formed_range ranges spans ->
  exists cps, parse_unicode_ranges ranges = Ok cps /\
    StronglySorted Z.lt cps /\
    forall x, x ∈ cps <->
      exists sp, sp ∈ spans /\ sp.1 <= x <= sp.2.
Proof.
  intros HF.
  destruct (parse_unicode_ranges_range_texts ranges spans) as (cps & E & S & M).
  { eapply Forall2_impl; [exact HF|]. by intros r sp [Hr _]. }
  exists cps. split; [done|]. split; [done|].
  intros x. rewrite M, Exists_exists. done.
Qed.

End ParseRanges.

(** The theorem at two ranges, [U+0041-0043] and [U+0600]. *)
Lemma parse_unicode_ranges_well_formed_witness :
  exists cps,
    parse_unicode_ranges (U := Sample.unicode)
      [lit "U+0041-0043"; lit "U+0600"] = Ok cps /\
    StronglySorted Z.lt cps /\
    forall x, x ∈ cps <->
      exists sp, sp ∈ [(65, 67); (1536, 1536)] /\ sp.1 <= x <= sp.2.
Proof.
  apply (parse_unicode_ranges_well_formed (U := Sample.unicode)
           [lit "U+0041-0043"; lit "U+0600"] [(65, 67); (1536, 1536)]).
  assert (Hhex : forall ds,
             ds <> [] ->
             forallb (fun c => bool_decide (is_hex_digit c)) ds = true ->
             hex_number ds).
  { intros ds Hne Hall. split; [done|].
    apply Forall_forall. intros c Hc.
    rewrite forallb_forall in Hall.
    apply list_elem_of_In, Hall, bool_decide_eq_true in Hc. exact Hc. }
  constructor; [|constructor; [|constructor]].
  - split; [|simpl; lia].
    apply (range_span (lit "0041") (lit "0043"));
      (apply Hhex; [discriminate | reflexivity]).
  - split; [|simpl; lia].
    apply (range_single (lit "0600")).
    apply Hhex; [discriminate | reflexivity].
Defined.


(** ** Rejected range strings *)

Section Rejection.
Context {U : UnicodeData}.

(** The texts [parse_unicode_ranges] hands to [int()] for the range
    string [r]: what follows [U+], cut at the first dash. *)
Definition numbers_of (r : pystr) : list pystr :=
  let body := drop 2 (upper (strip r)) in
  if contains 45 body then
    let '(start_s, end_s) := split_first 45 body in [start_s; end_s]
  else [body].

(** Hexadecimal digits, each of which may have one underscore before
    it. *)
Inductive digits_tail : pystr -> Prop :=
| tail_end : digits_tail []
| tail_digit c s :
    is_hex_digit c -> digits_tail s -> digits_tail (c :: s)
| tail_underscore c s :
    is_hex_digit c -> digits_tail s -> digits_tail (95 :: c :: s).

(** A hexadecimal literal in the syntax of Python's [int(s, 16)]: white
    space, an optional sign, an optional [0x] or [0X] which one underscore
    may follow, a hexadecimal digit, further digits with single
    underscores between them, white space.  A character outside ASCII
    counts as what CPython reads it as: a space, a decimal digit, or a
    character of no literal. *)
Definition hex_literal (s : pystr) : Prop :=
  exists ws sign prefix d more ws',
    List.map int_transform s = ws ++ sign ++ prefix ++ d :: more ++ ws' /\
    Forall (fun c => int_space c = true) ws /\
    sign ∈ [[]; lit "+"; lit "-"] /\
    prefix ∈ [[]; lit "0x"; lit "0X"; lit "0x_"; lit "0X_"] /\
    is_hex_digit d /\ digits_tail more /\
    Forall (fun c => int_space c = true) ws'.

(** A range string the parser rejects: once trimmed and upper-cased it
    lacks the [U+] prefix, or one of its numbers is no hexadecimal
    literal. *)
Inductive rejected : pystr -> Prop :=
| missing_prefix r :
    startswith (lit "U+") (upper (strip r)) = false -> rejected r
| not_a_literal r p :
    p ∈ numbers_of r -> ~ hex_literal p -> rejected r.

Lemma lstrip_by_split (p : Z -> bool) (s : pystr) :
  exists pre, s = pre ++ lstrip_by p s /\ Forall (fun c => p c = true) pre.
Proof.
  induction s as [|c s (pre & E & F)].
  - by exists [].
  - simpl. destruct (p c) eqn:Hc.
    + exists (c :: pre). split; [simpl; by f_equal | by constructor].
    + by exists [].
Qed.

Lemma lstrip_by_all (p : Z -> bool) (s : pystr) :
  Forall (fun c => p c = true) s -> lstrip_by p s = [].
Proof. induction 1 as [|c s Hc _ IH]; [done|]. simpl. by rewrite Hc. Qed.

Lemma lstrip_by_app (p : Z -> bool) (ws : pystr) (c : Z) (s : pystr) :
  Forall (fun c => p c = true) ws -> p c = false ->
  lstrip_by p (ws ++ c :: s) = c :: s.
Proof.
  induction 1 as [|b ws Hb _ IH]; intros Hc; simpl.
  - by rewrite Hc.
  - rewrite Hb. by apply IH.
Qed.

Lemma digit16_is_hex (c : Z) : is_Some (digit16 c) -> is_hex_digit c.
Proof.
  unfold digit16, is_hex_digit.
  repeat (match goal with
          | |- context [Z.leb ?a ?b] => destruct (Z.leb_spec a b)
          end; simpl); intros [d Hd]; first [done | lia].
Qed.

Lemma hex_digit_plain (c : Z) :
  is_hex_digit c ->
  int_space c = false /\ c <> 95 /\ c <> 43 /\ c <> 45 /\ c <> 120 /\ c <> 88.
Proof.
  unfold is_hex_digit, int_space. intros Hc. split; [|lia].
  repeat (match goal with
          | |- context [Z.leb ?a ?b] => destruct (Z.leb_spec a b)
          | |- context [Z.eqb ?a ?b] => destruct (Z.eqb_spec a b)
          end; simpl); lia.
Qed.

Lemma space_plain (c : Z) :
  int_space c = true ->
  digit16 c = None /\ c <> 95 /\ c <> 120 /\ c <> 88.
Proof.
  unfold int_space, digit16.
  repeat (match goal with
          | |- context [Z.leb ?a ?b] => destruct (Z.leb_spec a b)
          | |- context [Z.eqb ?a ?b] => destruct (Z.eqb_spec a b)
          end; simpl); intros; first [done | split; [done | lia] | lia].
Qed.

(** What the digit scan passes over. *)
Lemma scan_digits_split (s : pystr) (acc : Z) (seen prev : bool)
  (v : Z) (seen' : bool) (rest : pystr) :
  scan_digits acc seen prev s = Some (v, seen', rest) ->
  exists used, s = used ++ rest /\
    (if prev
     then exists d tail,
            used = d :: tail /\ is_hex_digit d /\ digits_tail tail
     else digits_tail used) /\
    (used = [] -> seen' = seen).
Proof.
  revert acc seen prev. induction s as [|c s IH]; intros acc seen prev.
  - simpl. destruct prev; [done|]. intros [= <- <- <-].
    exists []. split; [done|]. split; [constructor | done].
  - cbn [scan_digits]. destruct (Z.eqb_spec c 95) as [->|Hc].
    + destruct prev; [done|]. intros Hs.
      destruct (IH _ _ _ Hs) as (used & -> & (d & tail & -> & Hd & Ht) & _).
      exists (95 :: d :: tail). split; [done|].
      split; [by constructor | done].
    + destruct (digit16 c) as [dv|] eqn:Hd.
      * intros Hs. destruct (IH _ _ _ Hs) as (used & -> & Ht & _).
        assert (Hhex : is_hex_digit c) by (apply digit16_is_hex; by rewrite Hd).
        exists (c :: used). split; [done|]. split; [|done].
        destruct prev; [by exists c, used | by constructor].
      * destruct prev; [done|]. intros [= <- <- <-].
        exists []. split; [done|]. split; [constructor | done].
Qed.

(** The digit scan reads such digits to their end. *)
Lemma scan_digits_tail (more ws' : pystr) (acc : Z) :
  digits_tail more -> Forall (fun c => int_space c = true) ws' ->
  exists v, scan_digits acc true false (more ++ ws') = Some (v, true, ws').
Proof.
  intros Hmore Hws. revert acc.
  induction Hmore as [|c s Hc _ IH|c s Hc _ IH]; intros acc.
  - destruct Hws as [|b ws' Hb _]; [by eexists|].
    cbn. destruct (space_plain b Hb) as (-> & Hne & _).
    destruct (Z.eqb_spec b 95); [done|]. by eexists.
  - cbn [app scan_digits].
    destruct (digit16_hex c Hc) as [-> Hne].
    destruct (Z.eqb_spec c 95); [done|]. apply IH.
  - cbn [app scan_digits]. cbn [Z.eqb Pos.eqb].
    destruct (digit16_hex c Hc) as [-> Hne].
    destruct (Z.eqb_spec c 95); [done|]. apply IH.
Qed.

(** [int(s, 16)] accepts the hexadecimal literals and nothing else. *)
Lemma int16_opt_literal (s : pystr) :
  is_Some (int16_opt s) <-> hex_literal s.
Proof.
  unfold int16_opt, hex_literal.
  set (s1 := List.map int_transform s). split.
  - destruct (lstrip_by_split int_space s1) as (ws & E1 & Fws).
    set (s2 := lstrip_by int_space s1) in *.
    assert (Hsign : exists sg, s2 = sg ++ (int_sign s2).2 /\
                      sg ∈ [[]; lit "+"; lit "-"]).
    { unfold int_sign. destruct s2 as [|c s2']; [exists []; split; [done|list_mem]|].
      destruct (Z.eqb_spec c 43) as [->|];
        [exists (lit "+"); split; [done | list_mem]|].
      destruct (Z.eqb_spec c 45) as [->|];
        [exists (lit "-"); split; [done | list_mem]|].
      exists []. split; [done | list_mem]. }
    destruct Hsign as (sg & E2 & Fsg).
    destruct (int_sign s2) as [neg s3]. cbn [snd] in E2.
    assert (Hpre : exists pre, s3 = pre ++ int_prefix s3 /\
                     pre ∈ [[]; lit "0x"; lit "0X"; lit "0x_"; lit "0X_"]).
    { unfold int_prefix.
      destruct s3 as [|z [|x r]]; try (exists []; split; [done | list_mem]).
      destruct (Z.eqb_spec z 48) as [->|];
        [|exists []; split; [done | list_mem]].
      destruct (Z.eqb_spec x 120) as [->|].
      { destruct r as [|u r'];
          [exists (lit "0x"); split; [done | list_mem]|].
        destruct (Z.eqb_spec u 95) as [->|].
        - exists (lit "0x_"). split; [done | list_mem].
        - exists (lit "0x"). split; [done | list_mem]. }
      destruct (Z.eqb_spec x 88) as [->|];
        [|exists []; split; [done | list_mem]].
      destruct r as [|u r'];
        [exists (lit "0X"); split; [done | list_mem]|].
      destruct (Z.eqb_spec u 95) as [->|].
      - exists (lit "0X_"). split; [done | list_mem].
      - exists (lit "0X"). split; [done | list_mem]. }
    destruct Hpre as (pre & E3 & Fpre).
    set (s4 := int_prefix s3) in *.
    destruct (startswith [95] s4) eqn:Hus; [by intros [? ?]|].
    destruct (scan_digits 0 false false s4) as [[[v' seen'] rest]|] eqn:Hscan;
      [|by intros [? ?]].
    destruct seen'; [|by intros [? ?]].
    destruct (scan_digits_split _ _ _ _ _ _ _ Hscan) as (used & E4 & Hused & S).
    destruct (lstrip_by_split int_space rest) as (ws' & E5 & Fws').
    destruct (lstrip_by int_space rest); [|by intros [? ?]]. intros _.
    rewrite app_nil_r in E5. subst ws'.
    destruct Hused as [|d more Hd Hmore|d more Hd Hmore].
    + by specialize (S eq_refl).
    + exists ws, sg, pre, d, more, rest.
      split; [|done]. rewrite E1. f_equal. fold s2. rewrite E2. f_equal.
      rewrite E3. f_equal. exact E4.
    + exfalso. rewrite E4 in Hus. by cbn in Hus.
  - intros (ws & sg & pre & d & more & ws' & -> & Fws & Hsg & Hpre & Hd
            & Hmore & Fws').
    destruct (hex_digit_plain d Hd) as (Hsp & H95 & H43 & H45 & H120 & H88).
    assert (Hrest : exists x rest,
              pre ++ d :: more ++ ws' = x :: rest /\
              int_space x = false /\ x <> 43 /\ x <> 45).
    { repeat (apply elem_of_cons in Hpre as [-> | Hpre]);
        [| | | | |by apply elem_of_nil in Hpre];
        first [by exists d, (more ++ ws') | by eexists 48, _]. }
    destruct Hrest as (x & rest & Erest & Hx & Hx43 & Hx45).
    assert (Hstrip : lstrip_by int_space
                       (ws ++ sg ++ pre ++ d :: more ++ ws')
                     = sg ++ pre ++ d :: more ++ ws').
    { rewrite Erest.
      repeat (apply elem_of_cons in Hsg as [-> | Hsg]);
        [| | |by apply elem_of_nil in Hsg];
        by apply lstrip_by_app. }
    rewrite Hstrip.
    assert (Hsign : exists neg,
              int_sign (sg ++ pre ++ d :: more ++ ws')
              = (neg, pre ++ d :: more ++ ws')).
    { rewrite Erest.
      repeat (apply elem_of_cons in Hsg as [-> | Hsg]);
        [| | |by apply elem_of_nil in Hsg]; [|by eexists ..].
      exists false. unfold int_sign. cbn [app].
      destruct (Z.eqb_spec x 43); [done|].
      by destruct (Z.eqb_spec x 45). }
    destruct Hsign as [neg ->].
    assert (Hprefix : int_prefix (pre ++ d :: more ++ ws')
                      = d :: more ++ ws').
    { repeat (apply elem_of_cons in Hpre as [-> | Hpre]);
        [| | | | |by apply elem_of_nil in Hpre].
      - cbn [app]. unfold int_prefix.
        destruct (more ++ ws') as [|y r] eqn:Etail; [done|].
        assert (Hy : y <> 120 /\ y <> 88).
        { inversion Hmore as [E|c0 s0 Hc0 _ E|c0 s0 Hc0 _ E];
            rewrite <- E in Etail; cbn [app] in Etail.
          - destruct Fws' as [|b ws'' Hb _]; [done|].
            injection Etail as <- _.
            destruct (space_plain b Hb) as (_ & _ & ? & ?). done.
          - injection Etail as <- _.
            destruct (hex_digit_plain c0 Hc0) as (_ & _ & _ & _ & ? & ?).
            done.
          - injection Etail as <- _. lia. }
        destruct Hy as [Hy1 Hy2].
        destruct (Z.eqb_spec y 120); [done|].
        destruct (Z.eqb_spec y 88); [done|]. by rewrite andb_false_r.
      - cbn. by destruct (Z.eqb_spec d 95).
      - cbn. by destruct (Z.eqb_spec d 95).
      - done.
      - done. }
    rewrite Hprefix.
    assert (Hus : startswith [95] (d :: more ++ ws') = false).
    { unfold startswith. by destruct (Z.eqb_spec 95 d). }
    rewrite Hus. cbn [scan_digits].
    destruct (digit16_hex d Hd) as [-> _].
    destruct (Z.eqb_spec d 95); [done|].
    destruct (scan_digits_tail more ws' (16 * 0 + hex_digit_value d)
                Hmore Fws') as [v ->].
    rewrite (lstrip_by_all _ _ Fws'). by eexists.
Qed.

Lemma int16_raises (p : pystr) (e : exn) :
  int16 p = Raise e -> exists v, e = ValueError v.
Proof.
  unfold int16. destruct (int16_opt p); [done|]. intros [= <-]. by eexists.
Qed.

Lemma int16_literal (p : pystr) :
  (exists v, int16 p = Ok v) <-> hex_literal p.
Proof.
  rewrite <- int16_opt_literal. unfold int16.
  destruct (int16_opt p) as [v|]; split.
  - by eexists.
  - by eexists.
  - by intros [? ?].
  - by intros [? ?].
Qed.

Lemma parse_one_raises (cps : gset Z) (r : pystr) (e : exn) :
  parse_one cps r = Raise e -> exists v, e = ValueError v.
Proof.
  unfold parse_one.
  destruct (startswith _ _); cbn [negb]; [|intros [= <-]; by eexists].
  destruct (contains _ _).
  - destruct (split_first _ _) as [a b].
    destruct (int16 a) as [x|e1] eqn:Ha; cbn.
    + destruct (int16 b) as [y|e2] eqn:Hb; cbn; [done|].
      intros [= <-]. by eapply int16_raises.
    + intros [= <-]. by eapply int16_raises.
  - destruct (int16 _) as [x|e1] eqn:Ha; cbn; [done|].
    intros [= <-]. by eapply int16_raises.
Qed.

(** A range string is read, or raises [ValueError]; it raises exactly
    when it is [rejected]. *)
Lemma parse_one_rejected (cps : gset Z) (r : pystr) :
  rejected r <-> exists v, parse_one cps r = Raise (ValueError v).
Proof.
  assert (Hnot : forall p, ~ hex_literal p <-> exists e, int16 p = Raise e).
  { intros p. rewrite <- int16_literal.
    destruct (int16 p) as [v|e]; split.
    - intros []. by eexists.
    - by intros [? ?].
    - by eexists.
    - by intros _ [? ?]. }
  unfold parse_one. split.
  - intros Hr.
    assert (Hbad : startswith (lit "U+") (upper (strip r)) = true ->
              exists p e, p ∈ numbers_of r /\ int16 p = Raise e).
    { intros Hpre. destruct Hr as [r Hno | r p Hp Hl].
      - congruence.
      - apply Hnot in Hl as [e He]. by exists p, e. }
    destruct (startswith _ _); cbn [negb]; [|by eexists].
    destruct (Hbad eq_refl) as (p & e & Hp & He). clear Hbad.
    destruct (int16_raises _ _ He) as [v ->].
    unfold numbers_of in Hp.
    destruct (contains _ _).
    + destruct (split_first _ _) as [a b].
      apply elem_of_cons in Hp as [->|Hp].
      * rewrite He. by eexists.
      * apply list_elem_of_singleton in Hp as ->.
        destruct (int16 a) as [x|e1] eqn:Ha; cbn.
        -- rewrite He. by eexists.
        -- destruct (int16_raises _ _ Ha) as [v1 ->]. by eexists.
    + apply list_elem_of_singleton in Hp as ->. rewrite He. by eexists.
  - intros [v Hv]. revert Hv.
    destruct (startswith _ _) eqn:Hpre; cbn [negb];
      [|intros _; by apply missing_prefix].
    destruct (contains 45 _) eqn:Hdash.
    + destruct (split_first _ _) as [a b] eqn:Hsplit.
      destruct (int16 a) as [x|e1] eqn:Ha; cbn.
      * destruct (int16 b) as [y|e2] eqn:Hb; cbn; [done|]. intros _.
        apply (not_a_literal r b); [|apply Hnot; by eexists].
        unfold numbers_of. rewrite Hdash, Hsplit. list_mem.
      * intros _. apply (not_a_literal r a); [|apply Hnot; by eexists].
        unfold numbers_of. rewrite Hdash, Hsplit. list_mem.
    + destruct (int16 _) as [x|e1] eqn:Ha; cbn; [done|]. intros _.
      eapply (not_a_literal r); [|apply Hnot; by eexists].
      unfold numbers_of. rewrite Hdash. list_mem.
Qed.

Lemma parse_loop_rejected (cps : gset Z) (ranges : list pystr) :
  Exists rejected ranges <->
  exists v, parse_loop cps ranges = Raise (ValueError v).
Proof.
  revert cps. induction ranges as [|r ranges IH]; intros cps.
  { split; [by inversion 1 | by intros [? ?]]. }
  cbn [parse_loop]. rewrite Exists_cons.
  rewrite (parse_one_rejected cps r).
  destruct (parse_one cps r) as [cps'|e] eqn:Hone; cbn.
  - rewrite (IH cps'). split.
    + intros [[? ?]|H]; [done | exact H].
    + intros H. right. exact H.
  - destruct (parse_one_raises _ _ _ Hone) as [v ->].
    split; [intros _ | intros _; left]; by eexists.
Qed.

(** C5, as amended.  [parse_unicode_ranges] raises [ValueError] exactly
    when the list has a range string that, once trimmed and upper-cased,
    lacks the [U+] prefix or one of whose numbers (the text after [U+],
    cut at the first dash) is not a hexadecimal literal of [int(s, 16)].
    A reversed range is not rejected: [U+XXXX-YYYY] with [YYYY] below
    [XXXX] is accepted and yields no code point. *)
Theorem malformed_range_rejected :
  (forall ranges : list pystr,
     Exists rejected ranges <->
     exists v, parse_unicode_ranges ranges = Raise (ValueError v)) /\
  (forall ds1 ds2 : pystr,
     hex_number ds1 -> hex_number ds2 -> hex_value ds2 < hex_value ds1 ->
     parse_unicode_ranges [lit "U+" ++ ds1 ++ lit "-" ++ ds2] = Ok []).
Proof.
  split.
  - intros ranges. rewrite (parse_loop_rejected ∅ ranges).
    unfold parse_unicode_ranges.
    destruct (parse_loop ∅ ranges) as [cps|e]; cbn.
    + split; intros [v Hv]; discriminate Hv.
    + split; intros [v Hv]; injection Hv as ->; by exists v.
  - intros ds1 ds2 H1 H2 Hlt.
    destruct (parse_unicode_ranges_range_texts
                [lit "U+" ++ ds1 ++ lit "-" ++ ds2]
                [(hex_value ds1, hex_value ds2)]) as (cps & -> & _ & Hin).
    { constructor; [by apply range_span | constructor]. }
    f_equal. destruct cps as [|x cps]; [done|]. exfalso.
    assert (Hx : x ∈ x :: cps) by apply list_elem_of_here.
    apply Hin in Hx. apply Exists_cons in Hx as [Hx | Hx].
    + simpl in Hx. lia.
    + by apply Exists_nil in Hx.
Qed.

End Rejection.

(** C5 as stated fails.  The reversed range [U+0700-0600] is read without
    error and yields no code point, and the range [U+0041-0041] with equal
    ends yields its one code point.  A number may hold characters that are
    no hexadecimal digits when they belong to a literal of [int(s, 16)]:
    the [0x] prefix, an underscore between digits, a sign, white
    space. *)
Lemma malformed_ranges_accepted :
  parse_unicode_ranges (U := Sample.unicode) [lit "U+0700-0600"] = Ok [] /\
  parse_unicode_ranges (U := Sample.unicode) [lit "U+0041-0041"] = Ok [65] /\
  parse_unicode_ranges (U := Sample.unicode) [lit "U+0x41"] = Ok [65] /\
  parse_unicode_ranges (U := Sample.unicode) [lit "U+00_41"] = Ok [65] /\
  parse_unicode_ranges (U := Sample.unicode) [lit "U++41"] = Ok [65] /\
  parse_unicode_ranges (U := Sample.unicode) [lit "U+ 41"] = Ok [65] /\
  parse_unicode_ranges (U := Sample.unicode) [lit "U+41--1"] = Ok [].
Proof. repeat split; vm_compute; reflexivity. Qed.

(** The amended C5 at [U+00G1] and [U+00X1] (letters that are no digits),
    at [0041] (no prefix), at [U+] (no digit), at [U+4__1] (a doubled
    underscore) and at the reversed [U+0043-0041]. *)
Lemma malformed_range_rejected_witness :
  (exists v, parse_unicode_ranges (U := Sample.unicode)
               [lit "U+0041"; lit "U+00G1"] = Raise (ValueError v)) /\
  (exists v, parse_unicode_ranges (U := Sample.unicode)
               [lit "U+00X1"] = Raise (ValueError v)) /\
  (exists v, parse_unicode_ranges (U := Sample.unicode)
               [lit "0041"] = Raise (ValueError v)) /\
  (exists v, parse_unicode_ranges (U := Sample.unicode)
               [lit "U+"] = Raise (ValueError v)) /\
  (exists v, parse_unicode_ranges (U := Sample.unicode)
               [lit "U+4__1"] = Raise (ValueError v)) /\
  Exists (rejected (U := Sample.unicode)) [lit "U+00X1"] /\
  parse_unicode_ranges (U := Sample.unicode)
    [lit "U+" ++ lit "0043" ++ lit "-" ++ lit "0041"] = Ok [].
Proof.
  destruct (malformed_range_rejected (U := Sample.unicode)) as [Hrej Hrev].
  assert (Hhex : forall ds,
             ds <> [] ->
             forallb (fun c => bool_decide (is_hex_digit c)) ds = true ->
             hex_number ds).
  { intros ds Hne Hall. split; [done|].
    apply Forall_forall. intros c Hc.
    rewrite forallb_forall in Hall.
    apply list_elem_of_In, Hall, bool_decide_eq_true in Hc. exact Hc. }
  split; [|split; [|split; [|split; [|split; [|split]]]]].
  - by eexists.
  - by eexists.
  - apply Hrej. apply Exists_cons_hd. by apply missing_prefix.
  - by eexists.
  - by eexists.
  - apply Hrej. by eexists.
  - apply Hrev; [apply Hhex; [discriminate | reflexivity] ..|].
    vm_compute. reflexivity.
Defined.


(** ** load_charset_file *)

Section Charset.
Context {U : UnicodeData}.

(** The lines of a charset file as the loop sees them after
    [line.rstrip("\n")]. *)
Definition stripped_lines (text : pystr) : list pystr :=
  rstrip [10] <$> file_lines text.

(** What one line of a charset file contributes.  An empty line and a line
    that starts with [#] (code point 35) contribute nothing. *)
Inductive contributes : pystr -> Z -> Prop :=
| single_character c :
    c <> 35 -> contributes [c] c
| hexadecimal_line line v :
    (2 <= length line)%nat -> startswith (lit "#") line = false ->
    int16_opt line = Some v -> contributes line v
| first_character c rest :
    rest <> [] -> c <> 35 -> int16_opt (c :: rest) = None ->
    contributes (c :: rest) c.

Lemma contributes_nothing (x : Z) (rest : pystr) :
  ~ contributes [] x /\ ~ contributes (35 :: rest) x.
Proof.
  split; intros Hc; inversion Hc; subst; simpl in *; try done; lia.
Qed.

Lemma load_line_contributes (cps : gset Z) (line : pystr) :
  exists cps', load_line cps line = Ok cps' /\
    forall x, x ∈ cps' <-> x ∈ cps \/ contributes (rstrip [10] line) x.
Proof.
  unfold load_line. set (l := rstrip [10] line). clearbody l.
  destruct l as [|c rest].
  { exists cps. split; [done|]. intros x. split; [by left|].
    intros [?|Hc]; [done|]. by apply contributes_nothing in Hc. }
  change (lit "#") with [35]. cbn [startswith].
  destruct (Z.eqb_spec 35 c) as [Heq|Hc]; cbn [andb]; [subst c|].
  { exists cps. split; [done|]. intros x. split; [by left|].
    intros [?|Hc]; [done|]. by apply contributes_nothing in Hc. }
  destruct rest as [|d rest]; cbn [length Nat.eqb].
  { exists (cps ∪ {[c]}). split; [done|]. intros x.
    rewrite elem_of_union, elem_of_singleton. split.
    - intros [?| ->]; [by left | right; by constructor].
    - intros [?|Hx]; [by left | right].
      inversion Hx; subst; [done | simpl in *; lia | done]. }
  unfold int16. destruct (int16_opt (c :: d :: rest)) as [v|] eqn:Hint.
  - exists (cps ∪ {[v]}). split; [done|]. intros x.
    rewrite elem_of_union, elem_of_singleton. split.
    + intros [?| ->]; [by left | right].
      apply hexadecimal_line; [simpl; lia | | done].
      cbn [startswith]. change (lit "#") with [35]. cbn [startswith].
      by destruct (Z.eqb_spec 35 c).
    + intros [?|Hx]; [by left | right].
      inversion Hx; subst; congruence.
  - exists (cps ∪ {[c]}). split; [done|]. intros x.
    rewrite elem_of_union, elem_of_singleton. split.
    + intros [?| ->]; [by left | right]. by apply first_character.
    + intros [?|Hx]; [by left | right].
      inversion Hx; subst; congruence.
Qed.

Lemma load_lines_contributes (cps : gset Z) (lines : list pystr) :
  exists cps', load_lines cps lines = Ok cps' /\
    forall x, x ∈ cps' <->
      x ∈ cps \/ exists line, line ∈ rstrip [10] <$> lines /\
                              contributes line x.
Proof.
  revert cps. induction lines as [|line lines IH]; intros cps.
  - exists cps. split; [done|]. intros x. split; [by left|].
    intros [?|(l & Hl & _)]; [done|]. by apply elem_of_nil in Hl.
  - destruct (load_line_contributes cps line) as (cps1 & E1 & H1).
    destruct (IH cps1) as (cps2 & E2 & H2).
    exists cps2. split; [cbn [load_lines]; by rewrite E1|].
    intros x. rewrite H2, H1. rewrite fmap_cons. split.
    + intros [[?|Hc]|(l & Hl & Hc)]; [by left | right | right].
      * eexists. split; [apply list_elem_of_here | done].
      * exists l. split; [by apply list_elem_of_further | done].
    + intros [?|(l & Hl & Hc)]; [by left; left|].
      apply elem_of_cons in Hl as [->|Hl]; [left; by right|].
      right. by exists l.
Qed.

(** C9. Reading a charset file never fails on its content and leaves the
    files as they are.  The result is strictly increasing (sorted, no
    duplicates) and holds exactly what the lines contribute: nothing for
    an empty line or a line starting with [#]; the character itself for a
    one-character line; the number for a longer line that [int(line, 16)]
    reads; the first character for a longer line that it does not. *)
Theorem load_charset_file_lenient (path : string) (text : pystr)
  (w : World) :
  texts w !! path = Some text ->
  exists cps,
    load_charset_file path w = (w, Ok cps) /\
    StronglySorted Z.lt cps /\
    (forall x, x ∈ cps <->
       exists line, line ∈ stripped_lines text /\ contributes line x) /\
    (forall x rest, ~ contributes [] x /\ ~ contributes (35 :: rest) x).
Proof.
  intros Hfile.
  destruct (load_lines_contributes ∅ (file_lines text)) as (s & E & Hin).
  exists (sorted s).
  split.
  { unfold load_charset_file, read_text, mbind, M_bind. rewrite Hfile.
    unfold lift, load_charset_text. by rewrite E. }
  split; [apply sorted_strictly|]. split.
  - intros x. rewrite elem_of_sorted, Hin. unfold stripped_lines.
    split; [intros [Hx|?]; [by apply not_elem_of_empty in Hx | done]
           | by right].
  - intros x rest. apply contributes_nothing.
Qed.

End Charset.

(** C9 on a file with a comment, an empty line, the hexadecimal line
    [4E00], the one-letter line [A] and the two-character line U+4F60
    U+597D, which is no number. *)
Lemma load_charset_file_lenient_witness :
  exists cps,
    load_charset_file (U := Sample.unicode) "cjk.txt"
      (Sample.world_of []
         [("cjk.txt"%string,
           lit "# c" ++ [10; 10] ++ lit "4E00" ++ [10] ++ lit "A" ++ [10]
             ++ [20320; 22909; 10])])
    = (Sample.world_of []
         [("cjk.txt"%string,
           lit "# c" ++ [10; 10] ++ lit "4E00" ++ [10] ++ lit "A" ++ [10]
             ++ [20320; 22909; 10])], Ok cps) /\
    StronglySorted Z.lt cps /\
    (forall x, x ∈ cps <->
       exists line,
         line ∈ stripped_lines
                  (lit "# c" ++ [10; 10] ++ lit "4E00" ++ [10] ++ lit "A"
                     ++ [10] ++ [20320; 22909; 10]) /\
         contributes (U := Sample.unicode) line x) /\
    (forall x rest,
       ~ contributes (U := Sample.unicode) [] x /\
       ~ contributes (U := Sample.unicode) (35 :: rest) x).
Proof.
  apply (load_charset_file_lenient (U := Sample.unicode)).
  reflexivity.
Defined.

(** The same file, run: 65 for [A], 19968 for [4E00], 20320 for the first
    character of the last line. *)
Example load_charset_text_run :
  load_charset_text (U := Sample.unicode)
    (lit "# c" ++ [10; 10] ++ lit "4E00" ++ [10] ++ lit "A" ++ [10]
       ++ [20320; 22909; 10])
  = Ok [65; 19968; 20320].
Proof. vm_compute. reflexivity. Qed.


(** ** subset_font *)

(** Unfolding the state-and-exception monad. *)
Ltac unfold_M :=
  unfold mbind, M_bind, mret, M_ret, lift, raise, open_font, save, emit,
    read_text, exists_, named_temporary_file, mkdtemp,
    try_except_ValueError in *.

Section SubsetFont.
Context {U : UnicodeData} {FT : FontTools} {P : Platform}.

Lemma present_in_nil (cmap : gmap Z string) (codepoints : list Z) :
  present_in cmap codepoints = [] <->
  forall cp, cp ∈ codepoints -> cmap !! cp = None.
Proof.
  unfold present_in. induction codepoints as [|cp cps IH]; simpl.
  - split; [|done]. intros _ cp Hcp. by apply elem_of_nil in Hcp.
  - destruct (cmap !! cp) as [g|] eqn:Hcp.
    + rewrite bool_decide_eq_true_2 by by eexists. split; [done|].
      intros Hall. specialize (Hall cp (list_elem_of_here _ _)). congruence.
    + rewrite bool_decide_eq_false_2 by by intros [? [=]].
      rewrite IH. split.
      * intros Hall x Hx. apply elem_of_cons in Hx as [->|Hx]; auto.
      * intros Hall x Hx. apply Hall. by apply list_elem_of_further.
Qed.

(** C6. For a font file with a character map and a non-empty request,
    [subset_font] raises [ValueError] "no matching glyphs" exactly when no
    requested code point is in the font's best character map; as soon as
    one is (the rest of the request may be missing), it returns normally,
    having saved the subset font at the path it returns. *)
Theorem subset_font_no_matching_glyphs (font_path : string)
  (unicode_ranges : option (list pystr)) (output_path : option string)
  (request : list Z) (w : World) (font : TTFont)
  (best : option (gmap Z string)) :
  request <> [] ->
  fonts w !! font_path = Some font ->
  getBestCmap font = Ok best ->
  ((exists w' name,
      subset_font font_path unicode_ranges output_path (Some request) w
      = (w', Raise (ValueError (no_matching_glyphs name))))
   <-> (forall cp, cp ∈ request -> default ∅ best !! cp = None)) /\
  ((exists cp, cp ∈ request /\ is_Some (default ∅ best !! cp)) ->
   exists w' out,
     subset_font font_path unicode_ranges output_path (Some request) w
     = (w', Ok out) /\
     fonts w' !! out = Some (ft_subset request font)).
Proof.
  intros Hne Hfont Hbest.
  assert (Hrun :
    subset_font font_path unicode_ranges output_path (Some request) w =
    match present_in (default ∅ best) request with
    | [] => (w, Raise (ValueError (no_matching_glyphs (path_name font_path))))
    | _ :: _ =>
        let out := match output_path with
                   | Some p => p
                   | None => temp_name (temps w) ".ttf"
                   end in
        ({| fonts := <[out := ft_subset request font]> (fonts w);
            texts := texts w;
            temps := match output_path with
                     | Some _ => temps w
                     | None => S (temps w)
                     end;
            trace := trace w ++ [Subsetted font_path request
                                   (ft_subset request font)] |},
         Ok out)
    end).
  { unfold subset_font. unfold_M.
    destruct request as [|cp0 request']; [done|].
    rewrite Hfont, Hbest.
    destruct (present_in _ _); [done|].
    by destruct output_path. }
  split.
  - rewrite <- present_in_nil, Hrun. split.
    + intros (w' & name & Hw).
      destruct (present_in _ _); [done | by destruct output_path].
    + intros ->. by eexists _, _.
  - intros (cp & Hcp & Hin). rewrite Hrun.
    destruct (present_in _ _) eqn:Hpres.
    { apply present_in_nil with (cp := cp) in Hpres; [|done].
      rewrite Hpres in Hin. by destruct Hin. }
    eexists _, _. split; [reflexivity|]. cbn. apply lookup_insert_eq.
Qed.

End SubsetFont.

(** C6 on [font_ab], which maps U+0041 and U+0042, asked for U+0042 to
    U+0044: the request is covered in part. *)
Lemma subset_font_no_matching_glyphs_witness :
  ((exists w' name,
      subset_font (U := Sample.unicode) (FT := Sample.fonttools)
        (P := Sample.platform) "cache/a.otf" None (Some "out.otf"%string)
        (Some [66; 67; 68]) Sample.world_ab
      = (w', Raise (ValueError (no_matching_glyphs name))))
   <-> (forall cp, cp ∈ [66; 67; 68] ->
          default ∅ (Some Sample.cmap_ab) !! cp = None)) /\
  ((exists cp, cp ∈ [66; 67; 68] /\
      is_Some (default ∅ (Some Sample.cmap_ab) !! cp)) ->
   exists w' out,
     subset_font (U := Sample.unicode) (FT := Sample.fonttools)
       (P := Sample.platform) "cache/a.otf" None (Some "out.otf"%string)
       (Some [66; 67; 68]) Sample.world_ab
     = (w', Ok out) /\
     fonts w' !! out = Some (ft_subset (FontTools := Sample.fonttools)
                               [66; 67; 68] Sample.font_ab)).
Proof.
  apply (subset_font_no_matching_glyphs (U := Sample.unicode)
           (FT := Sample.fonttools) (P := Sample.platform)
           "cache/a.otf" None (Some "out.otf"%string) [66; 67; 68]
           Sample.world_ab Sample.font_ab (Some Sample.cmap_ab)).
  - discriminate.
  - reflexivity.
  - reflexivity.
Defined.

(** The same call, run: it returns the output path. *)
Example subset_font_partial_run :
  (subset_font (U := Sample.unicode) (FT := Sample.fonttools)
     (P := Sample.platform) "cache/a.otf" None (Some "out.otf"%string)
     (Some [66; 67; 68]) Sample.world_ab).2 = Ok "out.otf"%string.
Proof. vm_compute. reflexivity. Qed.


(** ** _fix_metrics *)

(** The configured values fit the fields they are written to: the
    ascender goes to signed fields and to the unsigned [usWinAscent], the
    descender to signed fields and, as an absolute value, to the unsigned
    [usWinDescent]. *)
Definition metrics_fit (metrics : MetricsConfig) : Prop :=
  0 <= ascender metrics <= 32767 /\ -32768 <= descender metrics <= 32767.

(** C10, as amended.  With ascender and descender both zero,
    [_fix_metrics] returns without touching any file.  Otherwise, on a
    font file that has [OS/2] and [hhea] tables: when the configured
    values fit the 16-bit fields (and the table read from the file is well
    formed), it saves the font with the typographic and [hhea] ascent and
    descent set to the configured values, the Windows ascent set to the
    ascender and the Windows descent to the absolute value of the
    descender, both line gaps zero, and everything else as it was; when
    they do not fit, saving fails and no file is changed. *)
Theorem fix_metrics_effect (font_path : string) (metrics : MetricsConfig)
  (w : World) :
  (ascender metrics = 0 -> descender metrics = 0 ->
   _fix_metrics font_path metrics w = (w, Ok tt)) /\
  (~ (ascender metrics = 0 /\ descender metrics = 0) ->
   forall font o h,
     fonts w !! font_path = Some font ->
     os2 font = Some o -> hhea font = Some h ->
     (metrics_fit metrics -> os2_packs o = true ->
      exists w' font' o' h',
        _fix_metrics font_path metrics w = (w', Ok tt) /\
        fonts w' = <[font_path := font']> (fonts w) /\
        texts w' = texts w /\ temps w' = temps w /\ trace w' = trace w /\
        os2 font' = Some o' /\ hhea font' = Some h' /\
        sTypoAscender o' = ascender metrics /\
        sTypoDescender o' = descender metrics /\
        sTypoLineGap o' = 0 /\
        usWinAscent o' = ascender metrics /\
        usWinDescent o' = Z.abs (descender metrics) /\
        ascent h' = ascender metrics /\
        descent h' = descender metrics /\
        lineGap h' = 0 /\
        sxHeight o' = sxHeight o /\ sCapHeight o' = sCapHeight o /\
        glyphOrder font' = glyphOrder font /\
        head_unitsPerEm font' = head_unitsPerEm font /\
        hmtx_metrics font' = hmtx_metrics font /\
        cmap_tables font' = cmap_tables font /\
        cff font' = cff font /\ gsub font' = gsub font /\
        other_tables font' = other_tables font) /\
     (~ metrics_fit metrics ->
      exists e, _fix_metrics font_path metrics w = (w, Raise e))).
Proof.
  split.
  - intros Ha Hd. unfold _fix_metrics. by rewrite Ha, Hd.
  - intros Hnz font o h Hfont Ho Hh. unfold _fix_metrics.
    assert (Hz : (ascender metrics =? 0) && (descender metrics =? 0) = false).
    { apply andb_false_iff. rewrite !Z.eqb_neq.
      destruct (decide (ascender metrics = 0)); [right | left]; tauto. }
    rewrite Hz. unfold_M. rewrite Hfont, Ho, Hh. cbn -[os2_packs hhea_packs].
    set (o' := {| sTypoAscender := ascender metrics;
                  sTypoDescender := descender metrics;
                  sTypoLineGap := 0;
                  usWinAscent := ascender metrics;
                  usWinDescent := Z.abs (descender metrics);
                  sxHeight := sxHeight o;
                  sCapHeight := sCapHeight o |}).
    set (h' := {| ascent := ascender metrics;
                  descent := descender metrics; lineGap := 0 |}).
    assert (Hiff : os2_packs o' && hhea_packs h' = true <->
                   metrics_fit metrics /\
                   from_option fits_int16 true (sxHeight o) = true /\
                   from_option fits_int16 true (sCapHeight o) = true).
    { unfold os2_packs, hhea_packs, metrics_fit, o', h'.
      cbn [sTypoAscender sTypoDescender sTypoLineGap usWinAscent
           usWinDescent sxHeight sCapHeight ascent descent lineGap].
      destruct (from_option fits_int16 true (sxHeight o)),
        (from_option fits_int16 true (sCapHeight o));
        unfold fits_int16, fits_uint16;
        rewrite ?andb_true_r, ?andb_false_r, ?andb_true_iff, ?Z.leb_le;
        first [lia | split; [done | intros (_ & ? & ?); done]]. }
    split.
    + intros Hfit Hpacks.
      assert (Hok : os2_packs o' && hhea_packs h' = true).
      { apply Hiff. split; [done|].
        unfold os2_packs in Hpacks. rewrite !andb_true_iff in Hpacks.
        tauto. }
      rewrite Hok. eexists _, _, _, _. split; [reflexivity|]. cbn.
      repeat split; reflexivity.
    + intros Hfit. destruct (os2_packs o' && hhea_packs h') eqn:Hp.
      * exfalso. by apply Hfit, Hiff.
      * by eexists.
Qed.

(** C10 as stated fails: an ascender of 70000 fits no 16-bit field,
    saving the font fails, and the font file keeps the metrics it had. *)
Lemma fix_metrics_out_of_range :
  let run := _fix_metrics "cache/a.otf"
               {| ascender := 70000; descender := -250;
                  target_cap_ratio := 0 |} Sample.world_ab in
  is_ok run.2 = false /\
  fonts run.1 !! "cache/a.otf"%string = Some Sample.font_ab.
Proof. vm_compute. split; reflexivity. Qed.

(** The amended C10 run on [font_ab] with both values zero, with ascender
    950 and descender -250, and with a negative ascender, which the
    unsigned [usWinAscent] cannot hold. *)
Lemma fix_metrics_effect_witness :
  _fix_metrics "cache/a.otf"
    {| ascender := 0; descender := 0; target_cap_ratio := 0 |}
    Sample.world_ab = (Sample.world_ab, Ok tt) /\
  (exists w' font' o' h',
    _fix_metrics "cache/a.otf"
      {| ascender := 950; descender := -250; target_cap_ratio := 0 |}
      Sample.world_ab = (w', Ok tt) /\
    fonts w' !! "cache/a.otf"%string = Some font' /\
    os2 font' = Some o' /\ hhea font' = Some h' /\
    (sTypoAscender o', sTypoDescender o', sTypoLineGap o') = (950, -250, 0) /\
    (usWinAscent o', usWinDescent o') = (950, 250) /\
    (ascent h', descent h', lineGap h') = (950, -250, 0)) /\
  exists e,
    _fix_metrics "cache/a.otf"
      {| ascender := -1; descender := -250; target_cap_ratio := 0 |}
      Sample.world_ab = (Sample.world_ab, Raise e).
Proof.
  destruct (fix_metrics_effect "cache/a.otf"
              {| ascender := 0; descender := 0; target_cap_ratio := 0 |}
              Sample.world_ab) as [Hzero _].
  destruct (fix_metrics_effect "cache/a.otf"
              {| ascender := 950; descender := -250; target_cap_ratio := 0 |}
              Sample.world_ab) as [_ Hset].
  destruct (fix_metrics_effect "cache/a.otf"
              {| ascender := -1; descender := -250; target_cap_ratio := 0 |}
              Sample.world_ab) as [_ Hbad].
  split; [by apply Hzero|]. split.
  - destruct (Hset ltac:(cbn; lia) Sample.font_ab _ _
                eq_refl eq_refl eq_refl) as [Hfit _].
    destruct (Hfit ltac:(unfold metrics_fit; cbn; lia) eq_refl)
      as (w' & font' & o' & h' & Hrun & Hfonts & _ & _ & _ & Ho & Hh
          & H1 & H2 & H3 & H4 & H5 & H6 & H7 & H8 & _).
    exists w', font', o', h'.
    split; [exact Hrun|]. split; [rewrite Hfonts; apply lookup_insert_eq|].
    split; [exact Ho|]. split; [exact Hh|].
    rewrite H1, H2, H3, H4, H5, H6, H7, H8. done.
  - destruct (Hbad ltac:(cbn; lia) Sample.font_ab _ _
                eq_refl eq_refl eq_refl) as [_ Hraise].
    apply Hraise. unfold metrics_fit. cbn. lia.
Defined.

(** ** _scale_to_target *)

Section Scale.
Context {FT : FontTools}.

(** C7. For a font with a positive cap height, the scale is
    [target_cap_ratio / (cap / upm)], the inner quotient being the int
    division of Python; when [abs(scale - 1.0) < 0.001], [_scale_to_target]
    returns with no file and nothing else changed. *)
Theorem scale_to_target_no_op (font_path : string) (target : float)
  (w : World) (font : TTFont) (o : OS2) (upm cap : Z) (scale : float) :
  fonts w !! font_path = Some font ->
  head_unitsPerEm font = Some upm ->
  os2 font = Some o ->
  sCapHeight o = Some cap ->
  0 < cap ->
  scale_factor target cap upm = Ok scale ->
  PrimFloat.ltb (PrimFloat.abs (PrimFloat.sub scale 1%float))
    0x1.0624dd2f1a9fcp-10%float = true ->
  (exists source_ratio,
     PyFloat.int_truediv cap upm = Ok source_ratio /\
     scale = PrimFloat.div target source_ratio) /\
  _scale_to_target font_path target w = (w, Ok tt).
Proof.
  intros Hfont Hupm Ho Hcap Hpos Hscale Hnear. split.
  - unfold scale_factor in Hscale.
    destruct (PyFloat.int_truediv cap upm) as [r|e]; [|done].
    exists r. split; [done|]. cbn in Hscale. unfold PyFloat.truediv in Hscale.
    destruct (PrimFloat.eqb r 0); [done|]. by injection Hscale.
  - unfold _scale_to_target. unfold_M. rewrite Hfont, Hupm. cbn.
    rewrite Ho. cbn. rewrite Hcap. cbn.
    destruct (Z.leb_spec cap 0); [lia|].
    rewrite Hscale. unfold near_one. by rewrite Hnear.
Qed.

End Scale.

(** C7 on [font_ab] (cap height 700, 1000 units per em) with target ratio
    0.70021: the scale is 1.0003 and the font is left alone. *)
Lemma scale_to_target_no_op_witness :
  (exists source_ratio,
     PyFloat.int_truediv 700 1000 = Ok source_ratio /\
     0x1.0013a92a30553p+0%float
     = PrimFloat.div 0x1.6681ecd4aa10ep-1%float source_ratio) /\
  _scale_to_target (FT := Sample.fonttools) "cache/a.otf"
    0x1.6681ecd4aa10ep-1%float Sample.world_ab = (Sample.world_ab, Ok tt).
Proof.
  eapply (scale_to_target_no_op (FT := Sample.fonttools) "cache/a.otf"
            0x1.6681ecd4aa10ep-1%float Sample.world_ab Sample.font_ab
            _ 1000 700 0x1.0013a92a30553p+0%float).
  - reflexivity.
  - reflexivity.
  - reflexivity.
  - reflexivity.
  - lia.
  - vm_compute. reflexivity.
  - vm_compute. reflexivity.
Defined.

(** With target ratio 0.75 the scale is 1.0714..., beyond the threshold:
    the widths, bearings and heights of [font_ab] are rescaled and
    rounded. *)
Example scale_to_target_rescales :
  let w' := (_scale_to_target (FT := Sample.fonttools) "cache/a.otf"
               0.75%float Sample.world_ab).1 in
  (f ← fonts w' !! "cache/a.otf"%string;
   o ← os2 f;
   Some (hmtx_metrics f, sxHeight o, sCapHeight o))
  = Some (Some [("A"%string, (643, 54)); ("B"%string, (643, 54))],
          Some 536, Some 750).
Proof. vm_compute. reflexivity. Qed.


(** ** The subsetting loop of build *)

(** The request of a subsetter call. *)
Definition request_of (e : event) : list Z :=
  match e with
  | Subsetted _ unicodes _ => unicodes
  | Merged _ => []
  end.

(** The code points a subsetter call actually covers: the keys of the best
    character map of the font it left. *)
Definition actual_of (e : event) : gset Z :=
  match e with
  | Subsetted _ _ res =>
      match getBestCmap res with
      | Ok (Some cmap) => dom cmap
      | _ => ∅
      end
  | Merged _ => ∅
  end.

Section Dedup.
Context {U : UnicodeData} {FT : FontTools} {P : Platform}.



Lemma resolve_codepoints_pure (script : ScriptEntry) (config : BuildConfig)
  (w : World) :
  (_resolve_codepoints script config w).1 = w.
Proof.
  unfold _resolve_codepoints, load_charset_file.
  destruct (charset_file script) as [cf|]; [|done].
  destruct (decide (cf = ""%string)); [done|].
  unfold_M. destruct (texts w !! _); [|done].
  destruct (load_charset_text _); [|done].
  destruct (unicode_ranges script); [done|].
  by destruct (parse_unicode_ranges _).
Qed.

Variable config : BuildConfig.
Variable font_paths : gmap string string.
Variable work_dir : string.






Lemma getBestCmap_raises (font : TTFont) (e : exn) :
  getBestCmap font = Raise e -> e = KeyError "cmap".
Proof.
  unfold getBestCmap. destruct (cmap_tables font); cbn; [done|].
  by intros [= <-].
Qed.




End Dedup.


(** The loop run on the two sample scripts.  The first asks for U+0041 to
    U+0043 and its font covers U+0041, U+0042; the second asked for U+0042
    to U+0044 is left with U+0043, U+0044, of which its font covers
    U+0043. *)
Example dedup_two_scripts :
  let run := build_subsets (U := Sample.unicode) (FT := Sample.fonttools)
               (P := Sample.platform) (N := Sample.network)
               Sample.config Sample.world_ab in
  (request_of <$> trace run.1,
   (fun e => sorted (actual_of e)) <$> trace run.1,
   run.2)
  = ([[65; 66; 67]; [67; 68]],
     [[65; 66]; [67]],
     Ok [("/tmp/op_fonts_0/subset_latin.otf"%string, true);
         ("/tmp/op_fonts_0/subset_other.otf"%string, true)]).
Proof. vm_compute. reflexivity. Qed.


(** ** merge_fonts: which files the preparation writes *)

(** [touches c S Q]: running [c] leaves the trace, the text files and
    the temporary-name counter alone, changes no font file outside the
    paths [S], and a normal result satisfies [Q]. *)
Definition touches {A} (c : M A) (S : list string) (Q : A -> Prop) : Prop :=
  forall w w' r, c w = (w', r) ->
    trace w' = trace w /\ texts w' = texts w /\ temps w' = temps w /\
    (forall q, q ∉ S -> fonts w' !! q = fonts w !! q) /\
    (forall a, r = Ok a -> Q a).

Lemma touches_weaken {A} (c : M A) (S S' : list string) (Q Q' : A -> Prop) :
  touches c S Q -> (forall q, q ∈ S -> q ∈ S') -> (forall a, Q a -> Q' a) ->
  touches c S' Q'.
Proof.
  intros Hc HS HQ w w' r Hrun.
  destruct (Hc w w' r Hrun) as (? & ? & ? & Hf & Hq).
  repeat split; try done.
  - intros q Hq'. apply Hf. intros Hin. by apply Hq', HS.
  - intros a Ha. by apply HQ, Hq.
Qed.

Lemma touches_bind {A B} (c : M A) (f : A -> M B) (S1 S2 : list string)
  (Q1 : A -> Prop) (Q2 : B -> Prop) :
  touches c S1 Q1 -> (forall a, Q1 a -> touches (f a) S2 Q2) ->
  touches (c ≫= f) (S1 ++ S2) Q2.
Proof.
  intros Hc Hf w w' r Hrun. unfold mbind, M_bind in Hrun.
  destruct (c w) as [w1 [a|e]] eqn:Hcw.
  - destruct (Hc w w1 _ Hcw) as (Ht & Hx & Hn & Hfr & Hq).
    destruct (Hf a (Hq a eq_refl) w1 w' r Hrun) as (Ht' & Hx' & Hn' & Hfr' & Hq').
    split; [congruence|]. split; [congruence|]. split; [congruence|].
    split; [|exact Hq'].
    intros q Hnot. rewrite Hfr', Hfr; [done | |];
      intros Hin; apply Hnot, elem_of_app; auto.
  - injection Hrun as <- <-.
    destruct (Hc w w1 _ Hcw) as (Ht & Hx & Hn & Hfr & Hq).
    split; [done|]. split; [done|]. split; [done|]. split; [|done].
    intros q Hnot. apply Hfr. intros Hin. apply Hnot, elem_of_app. auto.
Qed.

Lemma touches_ret {A} (a : A) (Q : A -> Prop) : Q a -> touches (mret a) [] Q.
Proof.
  intros Ha w w' r [= <- <-]. repeat split; try done. by intros ? [= <-].
Qed.

Lemma touches_raise {A} (e : exn) (Q : A -> Prop) : touches (raise e) [] Q.
Proof. intros w w' r [= <- <-]. repeat split; done. Qed.

Lemma touches_lift {A} (x : result A) : touches (lift x) [] (fun _ => True).
Proof. intros w w' r [= <- <-]. repeat split; done. Qed.

Lemma touches_open (p : string) : touches (open_font p) [] (fun _ => True).
Proof.
  intros w w' r. unfold open_font.
  destruct (fonts w !! p); intros [= <- <-]; repeat split; done.
Qed.

Lemma touches_save (p : string) (f : TTFont) :
  touches (save p f) [p] (fun _ => True).
Proof.
  intros w w' r [= <- <-]. repeat split; try done. cbn.
  intros q Hq. apply lookup_insert_ne. intros ->. apply Hq, list_elem_of_here.
Qed.

(** A computation that ends by saving at [out] and returning [out], or
    returns [p] having written nothing. *)
Lemma touches_convert {A} (c : M A) (k : A -> TTFont) (p out : string) :
  touches c [] (fun _ => True) ->
  touches (x ← c; _ ← save out (k x); mret out) [out]
    (fun r => r ∈ [p; out]).
Proof.
  intros Hc.
  eapply touches_weaken;
    [ eapply (touches_bind c _ [] [out] (fun _ => True) (fun r => r = out)) | | ].
  - exact Hc.
  - intros x _.
    eapply touches_weaken;
      [ eapply (touches_bind _ _ [out] [] (fun _ => True) (fun r => r = out)) | | ].
    + apply touches_save.
    + intros _ _. by apply touches_ret.
    + intros q Hq. apply elem_of_app in Hq as [Hq|Hq]; [done|].
      by apply elem_of_nil in Hq.
    + done.
  - done.
  - intros a ->. apply list_elem_of_further, list_elem_of_here.
Qed.

Section MergeFrame.
Context {FT : FontTools} {P : Platform}.

Lemma touches_here (p out : string) :
  touches (mret p : M string) [out] (fun r => r ∈ [p; out]).
Proof.
  eapply touches_weaken; [apply (touches_ret p (fun r => r = p)); done | |].
  - intros q Hq. by apply elem_of_nil in Hq.
  - intros a ->. apply list_elem_of_here.
Qed.

Lemma touches_after_open {B} (p : string) (f : TTFont -> M B)
  (S : list string) (Q : B -> Prop) :
  (forall font, touches (f font) S Q) ->
  touches (font ← open_font p; f font) S Q.
Proof.
  intros Hf. eapply touches_weaken;
    [ eapply (touches_bind _ _ [] S (fun _ => True) Q);
      [apply touches_open | intros font _; apply Hf]
    | done | done ].
Qed.

Lemma touches_decid_cff (p : string) :
  touches (_decid_cff p) [with_suffix p ".nk.otf"]
    (fun r => r ∈ [p; with_suffix p ".nk.otf"]).
Proof.
  unfold _decid_cff. apply touches_after_open. intros font.
  destruct (cff font) as [c|]; [|apply touches_here].
  destruct (negb (ROS c)); [apply touches_here|].
  apply (touches_convert (lift (rebuild_cff p font)) (fun x => x)).
  apply touches_lift.
Qed.

Lemma touches_ensure_cff (p : string) :
  touches (_ensure_cff p) [with_suffix p ".cff.otf"]
    (fun r => r ∈ [p; with_suffix p ".cff.otf"]).
Proof.
  unfold _ensure_cff. apply touches_after_open. intros font.
  destruct (has_cff_outlines font); [apply touches_here|].
  apply (touches_convert (lift (rebuild_cff p font)) (fun x => x)).
  apply touches_lift.
Qed.

(** The new font [_ensure_quadratic] builds, as one fallible step. *)
Definition rebuild_quadratic (font_path : string) (font : TTFont)
  : result TTFont :=
  upm ← table "head" (head_unitsPerEm font);
  best ← getBestCmap font;
  hmtx ← table "hmtx" (hmtx_metrics font);
  metrics ← for_each (fun gname =>
               m ← hmtx_lookup hmtx gname; Ok (gname, m)) (glyphOrder font);
  fb ← ft_build_glyphs
    {| b_unitsPerEm := upm; b_isTTF := true;
       b_glyphOrder := glyphOrder font;
       b_cmap := default ∅ best;
       b_outlines :=
         List.map (fun gname => (gname, ft_draw_quadratic font gname))
           (glyphOrder font);
       b_metrics := metrics;
       b_psName := path_stem font_path |};
  hh ← table "hhea" (hhea font);
  new_font ← ft_build_tables fb (ascent hh) (descent hh)
                (path_stem font_path);
  Ok (copy_layout_tables font new_font).

Lemma ensure_quadratic_rebuild (p : string) (font : TTFont) (w : World) :
  fonts w !! p = Some font ->
  has_cff_outlines font = true ->
  _ensure_quadratic p w
  = (x ← lift (rebuild_quadratic p font);
     _ ← save (with_suffix p ".conv.ttf") x;
     mret (with_suffix p ".conv.ttf")) w.
Proof.
  intros Hfont Hcff. unfold _ensure_quadratic, rebuild_quadratic.
  unfold_M. rewrite Hfont, Hcff. cbn [negb].
  destruct (table "head" _); [|done]. cbn.
  destruct (getBestCmap font); [|done]. cbn.
  destruct (table "hmtx" _); [|done]. cbn.
  destruct (for_each _ _); [|done]. cbn.
  destruct (ft_build_glyphs _); [|done]. cbn.
  destruct (table "hhea" _); [|done]. cbn.
  destruct (ft_build_tables _ _ _ _); done.
Qed.

Lemma touches_ensure_quadratic (p : string) :
  touches (_ensure_quadratic p) [with_suffix p ".conv.ttf"]
    (fun r => r ∈ [p; with_suffix p ".conv.ttf"]).
Proof.
  intros w w' r Hrun.
  destruct (fonts w !! p) as [font|] eqn:Hfont.
  2:{ unfold _ensure_quadratic in Hrun. unfold_M. rewrite Hfont in Hrun.
      injection Hrun as <- <-. repeat split; done. }
  destruct (has_cff_outlines font) eqn:Hcff.
  - rewrite (ensure_quadratic_rebuild p font w Hfont Hcff) in Hrun.
    clear Hfont. revert w w' r Hrun.
    apply (touches_convert (lift (rebuild_quadratic p font)) (fun x => x)).
    apply touches_lift.
  - unfold _ensure_quadratic in Hrun. unfold_M.
    rewrite Hfont, Hcff in Hrun. cbn in Hrun. injection Hrun as <- <-.
    repeat split; try done. intros a [= <-]. apply list_elem_of_here.
Qed.

Lemma touches_convert_fn (use_cff : bool) (p : string) :
  touches (convert_fn use_cff p)
    [with_suffix p ".cff.otf"; with_suffix p ".conv.ttf"]
    (fun r => r ∈ [p; with_suffix p ".cff.otf"; with_suffix p ".conv.ttf"]).
Proof.
  destruct use_cff; cbn [convert_fn].
  - eapply touches_weaken; [apply touches_ensure_cff | |].
    + intros q Hq. apply list_elem_of_singleton in Hq as ->.
      apply list_elem_of_here.
    + intros a Ha. apply elem_of_cons in Ha as [-> | Ha]; [list_mem|].
      apply list_elem_of_singleton in Ha as ->. list_mem.
  - eapply touches_weaken; [apply touches_ensure_quadratic | |].
    + intros q Hq. apply list_elem_of_singleton in Hq as ->.
      apply list_elem_of_further, list_elem_of_here.
    + intros a Ha. apply elem_of_cons in Ha as [-> | Ha]; [list_mem|].
      apply list_elem_of_singleton in Ha as ->. list_mem.
Qed.

Lemma touches_normalize_upm (p : string) (target_upm : Z) :
  touches (_normalize_upm p target_upm) [with_suffix p ".scaled.otf"]
    (fun r => r ∈ [p; with_suffix p ".scaled.otf"]).
Proof.
  unfold _normalize_upm. apply touches_after_open. intros font.
  intros w w' r Hrun. unfold_M.
  destruct (table "head" _) as [upm|]; cbn in Hrun;
    [|injection Hrun as <- <-; repeat split; done].
  destruct (upm =? target_upm); cbn in Hrun.
  { injection Hrun as <- <-. repeat split; try done.
    intros a [= <-]. apply list_elem_of_here. }
  destruct (ft_scale_upem _ _); cbn in Hrun; injection Hrun as <- <-;
    [|repeat split; done].
  repeat split; try done; cbn.
  - intros q Hq. apply lookup_insert_ne. intros Heq.
    apply Hq. rewrite <- Heq. list_mem.
  - intros a' [= <-]. list_mem.
Qed.

Lemma touches_ensure_gsub (p : string) :
  touches (_ensure_gsub p) [p] (fun _ => True).
Proof.
  unfold _ensure_gsub. apply touches_after_open. intros font.
  destruct (negb _); [apply touches_save|].
  eapply touches_weaken; [by apply (touches_ret tt (fun _ => True)) | | done].
  intros q Hq. by apply elem_of_nil in Hq.
Qed.

Lemma touches_strip_tables (p : string) (tags : list string) :
  touches (_strip_tables p tags) [p] (fun _ => True).
Proof.
  unfold _strip_tables. apply touches_after_open. intros font.
  destruct (strip_loop tags font false) as [font' changed].
  destruct changed; [apply touches_save|].
  eapply touches_weaken; [by apply (touches_ret tt (fun _ => True)) | | done].
  intros q Hq. by apply elem_of_nil in Hq.
Qed.

(** The paths the preparation of the input [p] can write or return. *)
Definition derived (p : string) : list string :=
  c ← (d ← [p; with_suffix p ".nk.otf"];
       [d; with_suffix d ".cff.otf"; with_suffix d ".conv.ttf"]);
  [c; with_suffix c ".scaled.otf"].

End MergeFrame.


Section MergeLoop.
Context {FT : FontTools} {P : Platform}.

Lemma touches_bind_same {A B} (c : M A) (f : A -> M B) (S : list string)
  (Q1 : A -> Prop) (Q2 : B -> Prop) :
  touches c S Q1 -> (forall a, Q1 a -> touches (f a) S Q2) ->
  touches (c ≫= f) S Q2.
Proof.
  intros Hc Hf. eapply touches_weaken;
    [exact (touches_bind c f S S Q1 Q2 Hc Hf) | | done].
  intros q Hq. by apply elem_of_app in Hq as [Hq|Hq].
Qed.

Lemma in_derived (p d c n : string) :
  d ∈ [p; with_suffix p ".nk.otf"] ->
  c ∈ [d; with_suffix d ".cff.otf"; with_suffix d ".conv.ttf"] ->
  n ∈ [c; with_suffix c ".scaled.otf"] ->
  n ∈ derived p.
Proof.
  intros Hd Hc Hn. unfold derived.
  apply list_elem_of_bind. exists c. split; [done|].
  apply list_elem_of_bind. by exists d.
Qed.

Lemma touches_process_font (use_cff : bool) (target_upm : Z)
  (drop_tables : option (list string)) (p : string) :
  touches (process_font use_cff target_upm drop_tables p) (derived p)
    (fun r => r ∈ derived p).
Proof.
  unfold process_font.
  eapply touches_bind_same.
  { eapply touches_weaken; [apply touches_decid_cff | | intros a Ha; exact Ha].
    intros q Hq. apply list_elem_of_singleton in Hq as ->.
    apply (in_derived p (with_suffix p ".nk.otf") (with_suffix p ".nk.otf"));
      list_mem. }
  intros d Hd. eapply touches_bind_same.
  { eapply touches_weaken;
      [apply touches_convert_fn | | intros a Ha; exact Ha].
    intros q Hq. apply (in_derived p d q); [exact Hd | | list_mem].
    by apply list_elem_of_further. }
  intros c Hc. eapply touches_bind_same.
  { eapply touches_weaken;
      [apply touches_normalize_upm | | intros a Ha; exact Ha].
    intros q Hq. apply list_elem_of_singleton in Hq as ->.
    apply (in_derived p d c); [exact Hd | exact Hc | list_mem]. }
  intros n Hn.
  assert (Hin : n ∈ derived p) by by apply (in_derived p d c).
  assert (Hsub : forall q, q ∈ [n] -> q ∈ derived p).
  { intros q Hq. by apply list_elem_of_singleton in Hq as ->. }
  eapply touches_bind_same.
  { eapply touches_weaken; [apply touches_ensure_gsub | exact Hsub | done]. }
  intros _ _. eapply touches_bind_same.
  { instantiate (1 := fun _ => True).
    destruct drop_tables as [[|tag tags]|].
    - eapply touches_weaken; [by apply (touches_ret tt (fun _ => True)) | | done].
      intros q Hq. by apply elem_of_nil in Hq.
    - eapply touches_weaken; [apply touches_strip_tables | exact Hsub | done].
    - eapply touches_weaken; [by apply (touches_ret tt (fun _ => True)) | | done].
      intros q Hq. by apply elem_of_nil in Hq. }
  intros _ _.
  eapply touches_weaken; [apply (touches_ret n (fun r => r = n)); done | |].
  - intros q Hq. by apply elem_of_nil in Hq.
  - by intros a ->.
Qed.

Lemma touches_for_each {A B} (f : A -> M B) (g : A -> list string)
  (Q : A -> B -> Prop) (l : list A) :
  (forall a, touches (f a) (g a) (Q a)) ->
  touches (for_each_M f l) (l ≫= g) (fun bs => Forall2 Q l bs).
Proof.
  intros Hf. induction l as [|a l IH]; cbn [for_each_M].
  - by apply touches_ret.
  - change ((a :: l) ≫= g) with (g a ++ (l ≫= g)).
    eapply touches_bind; [apply Hf|]. intros b Hb.
    eapply touches_weaken;
      [ eapply (touches_bind _ _ (l ≫= g) [] _ (fun bs => Forall2 Q (a :: l) bs));
        [exact IH|]
      | | done ].
    + intros bs Hbs. apply touches_ret. by constructor.
    + intros q Hq. by apply elem_of_app in Hq as [Hq|Hq%elem_of_nil].
Qed.

(** Reading fonts changes nothing and returns what the files hold. *)
Lemma open_all (paths : list string) (w w' : World) (r : result (list TTFont)) :
  for_each_M open_font paths w = (w', r) ->
  w' = w /\
  forall inputs, r = Ok inputs ->
    Forall2 (fun p f => fonts w !! p = Some f) paths inputs.
Proof.
  revert w' r. induction paths as [|p paths IH]; intros w' r; cbn [for_each_M].
  - intros [= <- <-]. split; [done|]. intros ? [= <-]. constructor.
  - unfold mbind, M_bind, open_font at 1.
    destruct (fonts w !! p) as [f|] eqn:Hp; [|by intros [= <- <-]].
    destruct (for_each_M open_font paths w) as [w1 [fs|e]] eqn:Hrest;
      destruct (IH _ _ eq_refl) as [-> Hfs]; intros [= <- <-]; split; try done.
    intros ? [= <-]. constructor; [done | by apply Hfs].
Qed.

Lemma touches_count_cff (paths : list string) :
  touches (count_cff paths) [] (fun _ => True).
Proof.
  unfold count_cff.
  eapply touches_weaken;
    [ eapply (touches_bind _ _ [] [] (fun _ => True) (fun _ => True)) | done | done].
  - eapply touches_weaken;
      [ apply (touches_for_each _is_cff (fun _ => []) (fun _ _ => True)) | | done ].
    + intros p. unfold _is_cff. apply touches_after_open.
      intros f. by apply touches_ret.
    + intros q Hq. apply list_elem_of_bind in Hq as (y & Hq & _).
      by apply elem_of_nil in Hq.
  - intros flags _. by apply touches_ret.
Qed.

End MergeLoop.


(** ** merge_fonts: the outline format of the merged font *)

(** The tie, run: the merged font has no CFF outlines.  With a second CFF
    font the CFF inputs are two of three and the merged font has them. *)
Example merge_fonts_tie_is_quadratic :
  let run := merge_fonts (FT := Sample.fonttools) (P := Sample.platform)
               ["cache/a.otf"; "cache/b.ttf"]%string "dist/out.otf" None
               Sample.world_ab in
  (run.2, has_cff_outlines <$> fonts run.1 !! "dist/out.otf"%string)
  = (Ok "dist/out.otf"%string, Some false).
Proof. vm_compute. reflexivity. Qed.

Example merge_fonts_majority_is_cubic :
  let run := merge_fonts (FT := Sample.fonttools) (P := Sample.platform)
               ["cache/a.otf"; "cache/b.ttf"; "cache/d.otf"]%string
               "dist/out.otf" None Sample.world_abd in
  (run.2, has_cff_outlines <$> fonts run.1 !! "dist/out.otf"%string)
  = (Ok "dist/out.otf"%string, Some true).
Proof. vm_compute. reflexivity. Qed.


(** ** merge_fonts: the glyph ceiling *)

Section MergeRun.
Context {FT : FontTools} {P : Platform}.

(** What [merge_fonts] does from the call of the merger on. *)
Definition merge_tail (inputs : list TTFont) (output_path : string)
  : M string :=
  _ ← emit (Merged inputs);
  merged ← lift (ft_merge inputs);
  let glyph_count := Z.of_nat (length (glyphOrder merged)) in
  if _TTF_GLYPH_LIMIT <? glyph_count then
    raise (RuntimeError (merged_too_large glyph_count))
  else
    merged ← lift (_rebuild_cmap merged);
    _ ← save output_path merged;
    mret output_path.

(** A run of [merge_fonts] on two or more inputs either stops before the
    merger is called, with the trace as it was, or prepares every input,
    reads the prepared files and goes on with [merge_tail].  Up to the
    merger only the working paths of the inputs are written. *)
Lemma merge_fonts_run (p0 p1 : string) (rest : list string)
  (output_path : string) (drop_tables : option (list string))
  (w w' : World) (r : result string) :
  merge_fonts (p0 :: p1 :: rest) output_path drop_tables w = (w', r) ->
  (trace w' = trace w /\
   (forall q, q ∉ (p0 :: p1 :: rest) ≫= derived ->
              fonts w' !! q = fonts w !! q) /\
   exists e, r = Raise e) \/
  (exists wa w1 use_cff target_upm processed inputs,
     for_each_M (process_font use_cff target_upm drop_tables)
       (p0 :: p1 :: rest) wa = (w1, Ok processed) /\
     Forall2 (fun p f => fonts w1 !! p = Some f) processed inputs /\
     trace w1 = trace w /\
     (forall q, q ∉ (p0 :: p1 :: rest) ≫= derived ->
                fonts w1 !! q = fonts w !! q) /\
     merge_tail inputs output_path w1 = (w', r)).
Proof.
  intros Hrun. unfold merge_fonts in Hrun. cbv beta iota in Hrun.
  set (paths := p0 :: p1 :: rest) in *.
  unfold mbind at 1, M_bind at 1 in Hrun.
  destruct (count_cff paths w) as [wa [c|e]] eqn:Hc;
    destruct (touches_count_cff paths _ _ _ Hc) as (Ta & _ & _ & Fa & _).
  2:{ cbv beta iota in Hrun. injection Hrun as <- <-. left.
      split; [done|]. split; [|by eexists].
      intros q _. apply Fa, not_elem_of_nil. }
  cbv beta iota in Hrun. unfold mbind at 1, M_bind at 1 in Hrun.
  destruct (open_font p0 wa) as [wb [f|e]] eqn:Hb;
    destruct (touches_open p0 _ _ _ Hb) as (Tb & _ & _ & Fb & _).
  2:{ cbv beta iota in Hrun. injection Hrun as <- <-. left.
      split; [congruence|]. split; [|by eexists].
      intros q _. rewrite Fb, Fa; [done | apply not_elem_of_nil ..]. }
  unfold mbind at 1, M_bind at 1 in Hrun. unfold lift at 1 in Hrun.
  cbv beta iota in Hrun.
  destruct (table "head" (head_unitsPerEm f)) as [upm|e].
  2:{ cbv beta iota in Hrun. injection Hrun as <- <-. left.
      split; [congruence|]. split; [|by eexists].
      intros q _. rewrite Fb, Fa; [done | apply not_elem_of_nil ..]. }
  cbv beta iota in Hrun. unfold mbind at 1, M_bind at 1 in Hrun.
  destruct (for_each_M _ paths wb) as [w1 [processed|e]] eqn:Hp;
    destruct (touches_for_each
                (process_font (majority_cff c paths) upm drop_tables)
                derived (fun p r => r ∈ derived p) paths
                (touches_process_font _ _ _) _ _ _ Hp)
      as (T1 & _ & _ & F1 & _).
  2:{ cbv beta iota in Hrun. injection Hrun as <- <-. left.
      split; [congruence|]. split; [|by eexists].
      intros q Hq. rewrite F1, Fb, Fa; [done | apply not_elem_of_nil .. | done]. }
  cbv beta iota in Hrun. unfold mbind at 1, M_bind at 1 in Hrun.
  destruct (for_each_M open_font processed w1) as [w2 [inputs|e]] eqn:Ho;
    destruct (open_all _ _ _ _ Ho) as [-> Hin].
  2:{ cbv beta iota in Hrun. injection Hrun as <- <-. left.
      split; [congruence|]. split; [|by eexists].
      intros q Hq. rewrite F1, Fb, Fa; [done | apply not_elem_of_nil .. | done]. }
  cbv beta iota in Hrun.
  right. exists wb, w1, (majority_cff c paths), upm, processed, inputs.
  split; [exact Hp|]. split; [by apply Hin|]. split; [congruence|].
  split; [|exact Hrun].
  intros q Hq. rewrite F1, Fb, Fa; [done | apply not_elem_of_nil .. | done].
Qed.

(** C2. Take a run of [merge_fonts] on two or more inputs in which the
    merger was called, on [inputs], and returned a font with more than
    65535 glyphs.  The run ends in [RuntimeError] "merged font too large",
    raised right after the merger call: nothing is recorded after that
    call, and the file at the output path is the one from before the run
    (the output path not being a working path of an input). *)
Theorem merged_too_large_atomic (font_paths : list string)
  (output_path : string) (drop_tables : option (list string)) (w : World)
  (inputs : list TTFont) (merged : TTFont) :
  (2 <= length font_paths)%nat ->
  trace (merge_fonts font_paths output_path drop_tables w).1
  = trace w ++ [Merged inputs] ->
  ft_merge inputs = Ok merged ->
  _TTF_GLYPH_LIMIT < Z.of_nat (length (glyphOrder merged)) ->
  (merge_fonts font_paths output_path drop_tables w).2
  = Raise (RuntimeError
             (merged_too_large (Z.of_nat (length (glyphOrder merged))))) /\
  (output_path ∉ font_paths ≫= derived ->
   fonts (merge_fonts font_paths output_path drop_tables w).1 !! output_path
   = fonts w !! output_path).
Proof.
  intros Hlen Htrace Hmerge Hbig.
  destruct font_paths as [|p0 [|p1 rest]]; [simpl in Hlen; lia ..|].
  destruct (merge_fonts (p0 :: p1 :: rest) output_path drop_tables w)
    as [w' r] eqn:Hrun. cbn [fst snd] in *.
  destruct (merge_fonts_run _ _ _ _ _ _ _ _ Hrun)
    as [(Ht & _ & _) | (wa & w1 & u & upm & processed & ins & _ & _ & T1 & F1 & Htail)].
  { rewrite Ht in Htrace. exfalso.
    apply (f_equal length) in Htrace. rewrite length_app in Htrace.
    simpl in Htrace. lia. }
  unfold merge_tail in Htail. unfold_M.
  assert (Hins : ins = inputs).
  { destruct (ft_merge ins) as [m|e]; cbn in Htail.
    - destruct (_TTF_GLYPH_LIMIT <? _); cbn in Htail.
      + injection Htail as <- <-. cbn in Htrace. rewrite T1 in Htrace.
        apply app_inv_head in Htrace. by injection Htrace.
      + destruct (_rebuild_cmap m); cbn in Htail;
          injection Htail as <- <-; cbn in Htrace; rewrite T1 in Htrace;
          apply app_inv_head in Htrace; by injection Htrace.
    - injection Htail as <- <-. cbn in Htrace. rewrite T1 in Htrace.
      apply app_inv_head in Htrace. by injection Htrace. }
  subst ins. rewrite Hmerge in Htail. cbn in Htail.
  destruct (Z.ltb_spec _TTF_GLYPH_LIMIT
              (Z.of_nat (length (glyphOrder merged)))); [|lia].
  injection Htail as <- <-. split; [done|]. cbn. exact (F1 output_path).
Qed.

End MergeRun.


(** C2 on the two sample fonts with a merger that returns 70000 glyphs. *)
Lemma merged_too_large_atomic_witness :
  (merge_fonts (FT := Sample.fonttools_large) (P := Sample.platform)
     ["cache/a.otf"; "cache/b.ttf"]%string "dist/out.otf" None
     Sample.world_ab).2
  = Raise (RuntimeError
             (merged_too_large
                (Z.of_nat (length (glyphOrder Sample.large_font))))) /\
  fonts (merge_fonts (FT := Sample.fonttools_large) (P := Sample.platform)
           ["cache/a.otf"; "cache/b.ttf"]%string "dist/out.otf" None
           Sample.world_ab).1 !! "dist/out.otf"%string
  = fonts Sample.world_ab !! "dist/out.otf"%string.
Proof.
  destruct (merged_too_large_atomic (FT := Sample.fonttools_large)
              (P := Sample.platform)
              ["cache/a.otf"; "cache/b.ttf"]%string "dist/out.otf" None
              Sample.world_ab Sample.prepared_ab Sample.large_font)
    as [Hraise Hfile].
  - simpl. lia.
  - vm_compute. reflexivity.
  - reflexivity.
  - vm_compute. reflexivity.
  - split; [exact Hraise|]. apply Hfile.
    apply (bool_decide_unpack _). vm_compute. exact I.
Defined.

(** The glyph count in the error is 70000, and no file appears at the
    output path. *)
Example merge_fonts_70000 :
  let run := merge_fonts (FT := Sample.fonttools_large)
               (P := Sample.platform)
               ["cache/a.otf"; "cache/b.ttf"]%string "dist/out.otf" None
               Sample.world_ab in
  (run.2, fonts run.1 !! "dist/out.otf"%string)
  = (Raise (RuntimeError (merged_too_large 70000)), None).
Proof. vm_compute. reflexivity. Qed.

(** ** merge_fonts: the GSUB placeholder *)

(** The font file at [p] has a GSUB table. *)
Definition has_gsub_at (w : World) (p : string) : Prop :=
  exists f, fonts w !! p = Some f /\ has_table "GSUB" f = true.

(** The table-drop list does not name GSUB. *)
Definition keeps_gsub (drop_tables : option (list string)) : Prop :=
  match drop_tables with
  | Some tags => "GSUB"%string ∉ tags
  | None => True
  end.

(** The GSUB flags of the fonts handed to the merger, call by call. *)
Definition merger_gsub_flags (evs : list event) : list (list bool) :=
  (fun e => match e with
            | Merged inputs => has_table "GSUB" <$> inputs
            | Subsetted _ _ _ => []
            end) <$> evs.

Section Gsub.
Context {FT : FontTools} {P : Platform}.

Lemma has_table_gsub (f : TTFont) :
  has_table "GSUB" f = bool_decide (is_Some (gsub f)).
Proof. reflexivity. Qed.

Lemma del_table_gsub (tag : string) (f : TTFont) :
  tag <> "GSUB"%string ->
  has_table "GSUB" (del_table tag f) = has_table "GSUB" f.
Proof.
  intros Hne. rewrite !has_table_gsub. unfold del_table. cbn [gsub].
  by destruct (decide (tag = "GSUB"%string)).
Qed.

Lemma strip_loop_gsub (tags : list string) (f : TTFont) (changed : bool) :
  "GSUB"%string ∉ tags ->
  has_table "GSUB" (strip_loop tags f changed).1 = has_table "GSUB" f.
Proof.
  revert f changed. induction tags as [|tag tags IH]; intros f changed Hno;
    [done|].
  apply not_elem_of_cons in Hno as [Hne Hno]. cbn [strip_loop].
  destruct (has_table tag f); rewrite IH by done; [|done].
  by apply del_table_gsub.
Qed.

Lemma ensure_gsub_post (p : string) (w w' : World) (u : unit) :
  _ensure_gsub p w = (w', Ok u) -> has_gsub_at w' p.
Proof.
  unfold _ensure_gsub. unfold_M.
  destruct (fonts w !! p) as [f|] eqn:Hp; [|done].
  destruct (has_table "GSUB" f) eqn:Hg; cbn [negb].
  - intros [= <- <-]. by exists f.
  - intros [= <- <-]. eexists. cbn. by rewrite lookup_insert_eq.
Qed.

(** A font file without the table is not refused: the table is added. *)
Lemma ensure_gsub_repairs (p : string) (w : World) (f : TTFont) :
  fonts w !! p = Some f ->
  exists w', _ensure_gsub p w = (w', Ok tt) /\ has_gsub_at w' p.
Proof.
  intros Hp.
  assert (Hrun : exists w', _ensure_gsub p w = (w', Ok tt)).
  { unfold _ensure_gsub. unfold_M. rewrite Hp.
    destruct (negb _); by eexists. }
  destruct Hrun as [w' Hrun]. exists w'. split; [done|].
  by eapply ensure_gsub_post.
Qed.

Lemma strip_tables_gsub (p : string) (tags : list string) (w w' : World)
  (r : result unit) :
  "GSUB"%string ∉ tags -> has_gsub_at w p ->
  _strip_tables p tags w = (w', r) -> has_gsub_at w' p.
Proof.
  intros Hno (f & Hp & Hg). unfold _strip_tables. unfold_M. rewrite Hp.
  pose proof (strip_loop_gsub tags f false Hno) as Hkeep.
  destruct (strip_loop tags f false) as [f' changed]. cbn [fst] in Hkeep.
  destruct changed; intros [= <- <-].
  - exists f'. cbn. rewrite lookup_insert_eq. split; [done | congruence].
  - by exists f.
Qed.

Lemma process_font_gsub (use_cff : bool) (target_upm : Z)
  (drop_tables : option (list string)) (p : string) (w w' : World)
  (c : string) :
  keeps_gsub drop_tables ->
  process_font use_cff target_upm drop_tables p w = (w', Ok c) ->
  has_gsub_at w' c.
Proof.
  intros Hkeep Hrun. unfold process_font in Hrun.
  unfold mbind at 1, M_bind at 1 in Hrun.
  destruct (_decid_cff p w) as [w1 [d|e]]; [|done].
  unfold mbind at 1, M_bind at 1 in Hrun.
  destruct (convert_fn use_cff d w1) as [w2 [x|e]]; [|done].
  unfold mbind at 1, M_bind at 1 in Hrun.
  destruct (_normalize_upm x target_upm w2) as [w3 [n|e]]; [|done].
  unfold mbind at 1, M_bind at 1 in Hrun.
  destruct (_ensure_gsub n w3) as [w4 [u|e]] eqn:Hg; [|done].
  apply ensure_gsub_post in Hg.
  unfold mbind at 1, M_bind at 1 in Hrun.
  destruct drop_tables as [[|tag tags]|].
  - by injection Hrun as <- <-.
  - destruct (_strip_tables n (tag :: tags) w4) as [w5 [u'|e]] eqn:Hs;
      [|done].
    injection Hrun as <- <-. by eapply strip_tables_gsub.
  - by injection Hrun as <- <-.
Qed.

(** The inputs' working paths are apart: no path derived from an input is
    derived from a later one. *)
Definition paths_apart (font_paths : list string) : Prop :=
  ForallOrdPairs (fun p q => Forall (fun x => x ∉ derived q) (derived p))
    font_paths.

Lemma process_all_gsub (use_cff : bool) (target_upm : Z)
  (drop_tables : option (list string)) (font_paths : list string)
  (w w1 : World) (processed : list string) :
  keeps_gsub drop_tables -> paths_apart font_paths ->
  for_each_M (process_font use_cff target_upm drop_tables) font_paths w
  = (w1, Ok processed) ->
  Forall (has_gsub_at w1) processed.
Proof.
  intros Hkeep Hapart. revert w w1 processed.
  induction Hapart as [|p rest Hp Hrest IH]; intros w w1 processed Hrun;
    cbn [for_each_M] in Hrun.
  { injection Hrun as <- <-. constructor. }
  unfold mbind at 1, M_bind at 1 in Hrun.
  destruct (process_font use_cff target_upm drop_tables p w)
    as [wa [c|e]] eqn:Hone; [|done].
  unfold mbind at 1, M_bind at 1 in Hrun.
  destruct (for_each_M _ rest wa) as [wb [cs|e]] eqn:Hloop; [|done].
  injection Hrun as <- <-. constructor; [|by eapply IH].
  destruct (process_font_gsub _ _ _ _ _ _ _ Hkeep Hone) as (f & Hf & Hg).
  destruct (touches_process_font _ _ _ _ _ _ _ Hone) as (_ & _ & _ & _ & Hc).
  specialize (Hc c eq_refl).
  destruct (touches_for_each
              (process_font use_cff target_upm drop_tables)
              derived (fun p r => r ∈ derived p) rest
              (touches_process_font _ _ _) _ _ _ Hloop)
    as (_ & _ & _ & Hframe & _).
  exists f. split; [|done]. rewrite Hframe; [done|].
  intros Hin. apply list_elem_of_bind in Hin as (q & Hcq & Hq).
  rewrite Forall_forall in Hp. specialize (Hp q Hq).
  rewrite Forall_forall in Hp. by apply (Hp c).
Qed.

Lemma merge_tail_trace (inputs : list TTFont) (output_path : string)
  (w w' : World) (r : result string) :
  merge_tail inputs output_path w = (w', r) ->
  trace w' = trace w ++ [Merged inputs].
Proof.
  unfold merge_tail. unfold_M.
  destruct (ft_merge inputs) as [m|e]; cbn; [|by intros [= <- <-]].
  destruct (_TTF_GLYPH_LIMIT <? _); cbn; [by intros [= <- <-]|].
  destruct (_rebuild_cmap m); cbn; by intros [= <- <-].
Qed.

(** C8, as amended.  When the table-drop list does not name GSUB: every
    font [merge_fonts] has prepared carries a GSUB table when its
    preparation ends, and, the inputs' working paths being apart, so does
    every font handed to the merger.  [merge_fonts] never refuses an
    input for lacking the table: [_ensure_gsub] adds an empty one. *)
Theorem gsub_placeholder (font_paths : list string) (output_path : string)
  (drop_tables : option (list string)) (w : World) :
  keeps_gsub drop_tables ->
  paths_apart font_paths ->
  (forall use_cff target_upm p w0 w1 c,
     process_font use_cff target_upm drop_tables p w0 = (w1, Ok c) ->
     has_gsub_at w1 c) /\
  (forall evs inputs,
     trace (merge_fonts font_paths output_path drop_tables w).1
     = trace w ++ evs ->
     Merged inputs ∈ evs ->
     Forall (fun f => has_table "GSUB" f = true) inputs) /\
  (forall p f, fonts w !! p = Some f ->
     exists w', _ensure_gsub p w = (w', Ok tt) /\ has_gsub_at w' p).
Proof.
  intros Hkeep Hapart. split; [|split].
  - intros use_cff target_upm p w0 w1 c. by apply process_font_gsub.
  - intros evs inputs Htrace Hin.
    assert (Hnone : forall w', trace w' = trace w ->
              trace w' = trace w ++ evs -> False).
    { intros w' Hsame Hext. rewrite Hsame in Hext.
      rewrite <- (app_nil_r (trace w)) in Hext at 1.
      apply app_inv_head in Hext. subst evs. by apply elem_of_nil in Hin. }
    destruct font_paths as [|p0 [|p1 rest]].
    + exfalso. by apply (Hnone w).
    + exfalso. cbn in Htrace. unfold copy2 in Htrace. unfold_M.
      destruct (fonts w !! p0);
        [destruct (decide (p0 = output_path));
         [|destruct (is_dir (path_parent output_path))]|];
        by apply (Hnone w).
    + destruct (merge_fonts (p0 :: p1 :: rest) output_path drop_tables w)
        as [w' r] eqn:Hrun. cbn [fst] in Htrace.
      destruct (merge_fonts_run _ _ _ _ _ _ _ _ Hrun)
        as [(Ht & _ & _)
           | (wa & w1 & u & upm & processed & ins & Hproc & Hread & T1 & _ & Htail)].
      { by destruct (Hnone w' Ht Htrace). }
      apply merge_tail_trace in Htail. rewrite T1 in Htail.
      rewrite Htail in Htrace. apply app_inv_head in Htrace. subst evs.
      apply list_elem_of_singleton in Hin. injection Hin as ->.
      pose proof (process_all_gsub _ _ _ _ _ _ _ Hkeep Hapart Hproc) as Hall.
      clear -Hread Hall. induction Hread as [|p f ps fs Hp _ IH];
        [constructor|].
      inversion Hall as [|?? (f' & Hf' & Hg) Hrest]; subst.
      constructor; [congruence | by apply IH].
  - intros p f. apply ensure_gsub_repairs.
Qed.

End Gsub.

(** C8 as stated fails: with GSUB in the table-drop list the table added
    by [_ensure_gsub] is stripped again, and both fonts reach the merger
    without it. *)
Lemma gsub_dropped_before_merger :
  merger_gsub_flags
    (trace (merge_fonts (FT := Sample.fonttools) (P := Sample.platform)
              ["cache/a.otf"; "cache/b.ttf"]%string "dist/out.otf"
              (Some ["GSUB"%string]) Sample.world_ab).1)
  = [[false; false]].
Proof. vm_compute. reflexivity. Qed.

(** The amended C8 on the two sample fonts, none of which has a GSUB
    table, with nothing to drop: both reach the merger with one. *)
Lemma gsub_placeholder_witness :
  (forall evs inputs,
     trace (merge_fonts (FT := Sample.fonttools) (P := Sample.platform)
              ["cache/a.otf"; "cache/b.ttf"]%string "dist/out.otf" None
              Sample.world_ab).1
     = trace Sample.world_ab ++ evs ->
     Merged inputs ∈ evs ->
     Forall (fun f => has_table "GSUB" f = true) inputs) /\
  merger_gsub_flags
    (trace (merge_fonts (FT := Sample.fonttools) (P := Sample.platform)
              ["cache/a.otf"; "cache/b.ttf"]%string "dist/out.otf" None
              Sample.world_ab).1)
  = [[true; true]].
Proof.
  destruct (gsub_placeholder (FT := Sample.fonttools) (P := Sample.platform)
              ["cache/a.otf"; "cache/b.ttf"]%string "dist/out.otf" None
              Sample.world_ab) as (_ & Hmerger & _).
  - exact I.
  - constructor; [|constructor; constructor].
    constructor; [|constructor].
    apply (bool_decide_unpack _). vm_compute. exact I.
  - split; [exact Hmerger|]. vm_compute. reflexivity.
Defined.


(** ** merge_fonts: the outline format of the batch *)

(** The font file at [p] has cubic (CFF) outlines, or has not. *)
Definition has_outlines_at (w : World) (p : string) (cubic : bool) : Prop :=
  exists f, fonts w !! p = Some f /\ has_cff_outlines f = cubic.

(** The table-drop list names neither table of cubic outlines. *)
Definition keeps_outlines (drop_tables : option (list string)) : Prop :=
  match drop_tables with
  | Some tags => ("CFF "%string ∉ tags) /\ ("CFF2"%string ∉ tags)
  | None => True
  end.

(** The number of fonts with cubic outlines among the files at [paths]. *)
Definition cubic_count (w : World) (paths : list string) : Z :=
  Z.of_nat (length (List.filter
    (fun p => match fonts w !! p with
              | Some f => has_cff_outlines f
              | None => false
              end) paths)).

Section BatchFormat.
Context {FT : FontTools} {P : Platform}.

(** What the conversions rely on from fontTools: a font built with
    [isTTF=False] has a CFF table and one built with [isTTF=True] has
    none; the tables set up after the outlines, and [scale_upem], leave
    the outline tables as they are. *)
Definition library_keeps_format : Prop :=
  (forall i f, ft_build_glyphs i = Ok f ->
     has_cff_outlines f = negb (b_isTTF i)) /\
  (forall f asc desc family f',
     ft_build_tables f asc desc family = Ok f' ->
     has_cff_outlines f' = has_cff_outlines f) /\
  (forall f upm f', ft_scale_upem f upm = Ok f' ->
     has_cff_outlines f' = has_cff_outlines f).

Lemma has_cff_outlines_tables (f : TTFont) :
  has_cff_outlines f
  = bool_decide (is_Some (cff f))
    || bool_decide (is_Some (other_tables f !! "CFF2"%string)).
Proof. reflexivity. Qed.

Lemma copy_layout_tables_outlines (font new_font : TTFont) :
  has_cff_outlines (copy_layout_tables font new_font)
  = has_cff_outlines new_font.
Proof.
  rewrite !has_cff_outlines_tables. unfold copy_layout_tables.
  destruct (gsub font), (other_tables font !! "GPOS"%string),
    (other_tables font !! "GDEF"%string); cbn;
    by rewrite ?lookup_insert_ne.
Qed.

Lemma set_gsub_outlines (t : GSUB) (f : TTFont) :
  has_cff_outlines (set_gsub t f) = has_cff_outlines f.
Proof. reflexivity. Qed.

Lemma del_table_outlines (tag : string) (f : TTFont) :
  tag <> "CFF "%string -> tag <> "CFF2"%string ->
  has_cff_outlines (del_table tag f) = has_cff_outlines f.
Proof.
  intros H1 H2. rewrite !has_cff_outlines_tables. unfold del_table. cbn.
  destruct (decide (tag = "CFF "%string)); [done|].
  by rewrite lookup_delete_ne.
Qed.

Lemma strip_loop_outlines (tags : list string) (f : TTFont) (changed : bool) :
  "CFF "%string ∉ tags -> "CFF2"%string ∉ tags ->
  has_cff_outlines (strip_loop tags f changed).1 = has_cff_outlines f.
Proof.
  revert f changed. induction tags as [|tag tags IH]; intros f changed H1 H2;
    [done|].
  apply not_elem_of_cons in H1 as [Hne1 H1].
  apply not_elem_of_cons in H2 as [Hne2 H2]. cbn [strip_loop].
  destruct (has_table tag f); rewrite IH by done; [|done].
  by apply del_table_outlines.
Qed.

Hypothesis library : library_keeps_format.

Lemma rebuild_cff_outlines (p : string) (font new_font : TTFont) :
  rebuild_cff p font = Ok new_font -> has_cff_outlines new_font = true.
Proof.
  destruct library as (Hglyphs & Htables & _).
  unfold rebuild_cff.
  destruct (table "head" _); [|done]. cbn.
  destruct (getBestCmap font); [|done]. cbn.
  destruct (table "hmtx" _); [|done]. cbn.
  destruct (for_each _ _); [|done]. cbn.
  destruct (ft_build_glyphs _) as [fb|] eqn:Hfb; [|done]. cbn.
  destruct (table "hhea" _); [|done]. cbn.
  destruct (ft_build_tables _ _ _ _) as [nf|] eqn:Hnf; [|done]. cbn.
  intros [= <-]. rewrite copy_layout_tables_outlines.
  by rewrite (Htables _ _ _ _ _ Hnf), (Hglyphs _ _ Hfb).
Qed.

Lemma rebuild_quadratic_outlines (p : string) (font new_font : TTFont) :
  rebuild_quadratic p font = Ok new_font -> has_cff_outlines new_font = false.
Proof.
  destruct library as (Hglyphs & Htables & _).
  unfold rebuild_quadratic.
  destruct (table "head" _); [|done]. cbn.
  destruct (getBestCmap font); [|done]. cbn.
  destruct (table "hmtx" _); [|done]. cbn.
  destruct (for_each _ _); [|done]. cbn.
  destruct (ft_build_glyphs _) as [fb|] eqn:Hfb; [|done]. cbn.
  destruct (table "hhea" _); [|done]. cbn.
  destruct (ft_build_tables _ _ _ _) as [nf|] eqn:Hnf; [|done]. cbn.
  intros [= <-]. rewrite copy_layout_tables_outlines.
  by rewrite (Htables _ _ _ _ _ Hnf), (Hglyphs _ _ Hfb).
Qed.

(** The conversion leaves a font of the format chosen for the batch. *)
Lemma convert_fn_outlines (use_cff : bool) (p : string) (w w' : World)
  (c : string) :
  convert_fn use_cff p w = (w', Ok c) -> has_outlines_at w' c use_cff.
Proof.
  destruct use_cff; cbn [convert_fn].
  - unfold _ensure_cff. unfold_M.
    destruct (fonts w !! p) as [font|] eqn:Hp; [|done].
    destruct (has_cff_outlines font) eqn:Hcff.
    + intros [= <- <-]. by exists font.
    + destruct (rebuild_cff p font) as [nf|] eqn:Hnf; [|done].
      intros [= <- <-]. exists nf. cbn. rewrite lookup_insert_eq.
      split; [done | by eapply rebuild_cff_outlines].
  - destruct (fonts w !! p) as [font|] eqn:Hp.
    2:{ unfold _ensure_quadratic. unfold_M. by rewrite Hp. }
    destruct (has_cff_outlines font) eqn:Hcff.
    + rewrite (ensure_quadratic_rebuild p font w Hp Hcff). unfold_M.
      destruct (rebuild_quadratic p font) as [nf|] eqn:Hnf; [|done].
      intros [= <- <-]. exists nf. cbn. rewrite lookup_insert_eq.
      split; [done | by eapply rebuild_quadratic_outlines].
    + unfold _ensure_quadratic. unfold_M. rewrite Hp, Hcff. cbn.
      intros [= <- <-]. by exists font.
Qed.

Lemma normalize_upm_outlines (p : string) (target_upm : Z) (cubic : bool)
  (w w' : World) (n : string) :
  has_outlines_at w p cubic ->
  _normalize_upm p target_upm w = (w', Ok n) -> has_outlines_at w' n cubic.
Proof.
  destruct library as (_ & _ & Hscale).
  intros (f & Hp & Hf). unfold _normalize_upm. unfold_M. rewrite Hp.
  destruct (table "head" _) as [upm|]; cbn; [|done].
  destruct (upm =? target_upm); cbn.
  { intros [= <- <-]. by exists f. }
  destruct (ft_scale_upem f target_upm) as [f'|] eqn:Hf'; cbn; [|done].
  intros [= <- <-]. exists f'. cbn. rewrite lookup_insert_eq.
  split; [done|]. by rewrite (Hscale _ _ _ Hf').
Qed.

Lemma ensure_gsub_outlines (p : string) (cubic : bool) (w w' : World)
  (r : result unit) :
  has_outlines_at w p cubic ->
  _ensure_gsub p w = (w', r) -> has_outlines_at w' p cubic.
Proof.
  intros (f & Hp & Hf). unfold _ensure_gsub. unfold_M. rewrite Hp.
  destruct (negb _); intros [= <- <-].
  - eexists. cbn. rewrite lookup_insert_eq. split; [done|].
    by rewrite set_gsub_outlines.
  - by exists f.
Qed.

Lemma strip_tables_outlines (p : string) (tags : list string) (cubic : bool)
  (w w' : World) (r : result unit) :
  "CFF "%string ∉ tags -> "CFF2"%string ∉ tags ->
  has_outlines_at w p cubic ->
  _strip_tables p tags w = (w', r) -> has_outlines_at w' p cubic.
Proof.
  intros H1 H2 (f & Hp & Hf). unfold _strip_tables. unfold_M. rewrite Hp.
  pose proof (strip_loop_outlines tags f false H1 H2) as Hkeep.
  destruct (strip_loop tags f false) as [f' changed]. cbn [fst] in Hkeep.
  destruct changed; intros [= <- <-].
  - exists f'. cbn. rewrite lookup_insert_eq. split; [done | congruence].
  - by exists f.
Qed.

(** Every prepared font has the format chosen for the batch. *)
Lemma process_font_outlines (use_cff : bool) (target_upm : Z)
  (drop_tables : option (list string)) (p : string) (w w' : World)
  (c : string) :
  keeps_outlines drop_tables ->
  process_font use_cff target_upm drop_tables p w = (w', Ok c) ->
  has_outlines_at w' c use_cff.
Proof.
  intros Hkeep Hrun. unfold process_font in Hrun.
  unfold mbind at 1, M_bind at 1 in Hrun.
  destruct (_decid_cff p w) as [w1 [d|e]]; [|done].
  unfold mbind at 1, M_bind at 1 in Hrun.
  destruct (convert_fn use_cff d w1) as [w2 [x|e]] eqn:Hx; [|done].
  apply convert_fn_outlines in Hx.
  unfold mbind at 1, M_bind at 1 in Hrun.
  destruct (_normalize_upm x target_upm w2) as [w3 [n|e]] eqn:Hn; [|done].
  apply (normalize_upm_outlines _ _ _ _ _ _ Hx) in Hn.
  unfold mbind at 1, M_bind at 1 in Hrun.
  destruct (_ensure_gsub n w3) as [w4 [u|e]] eqn:Hg; [|done].
  apply (ensure_gsub_outlines _ _ _ _ _ Hn) in Hg.
  unfold mbind at 1, M_bind at 1 in Hrun.
  destruct drop_tables as [[|tag tags]|].
  - by injection Hrun as <- <-.
  - destruct (_strip_tables n (tag :: tags) w4) as [w5 [u'|e]] eqn:Hs;
      [|done].
    injection Hrun as <- <-. destruct Hkeep as [H1 H2].
    by eapply strip_tables_outlines.
  - by injection Hrun as <- <-.
Qed.

Lemma process_all_outlines (use_cff : bool) (target_upm : Z)
  (drop_tables : option (list string)) (font_paths : list string)
  (w w1 : World) (processed : list string) :
  keeps_outlines drop_tables -> paths_apart font_paths ->
  for_each_M (process_font use_cff target_upm drop_tables) font_paths w
  = (w1, Ok processed) ->
  Forall (fun c => has_outlines_at w1 c use_cff) processed /\
  length processed = length font_paths.
Proof.
  intros Hkeep Hapart. revert w w1 processed.
  induction Hapart as [|p rest Hp Hrest IH]; intros w w1 processed Hrun;
    cbn [for_each_M] in Hrun.
  { injection Hrun as <- <-. split; [constructor | done]. }
  unfold mbind at 1, M_bind at 1 in Hrun.
  destruct (process_font use_cff target_upm drop_tables p w)
    as [wa [c|e]] eqn:Hone; [|done].
  unfold mbind at 1, M_bind at 1 in Hrun.
  destruct (for_each_M _ rest wa) as [wb [cs|e]] eqn:Hloop; [|done].
  injection Hrun as <- <-.
  destruct (IH _ _ _ Hloop) as [Hall Hlen].
  split; [|by cbn; rewrite Hlen]. constructor; [|done].
  destruct (process_font_outlines _ _ _ _ _ _ _ Hkeep Hone) as (f & Hf & Hg).
  destruct (touches_process_font _ _ _ _ _ _ _ Hone) as (_ & _ & _ & _ & Hc).
  specialize (Hc c eq_refl).
  destruct (touches_for_each
              (process_font use_cff target_upm drop_tables)
              derived (fun p r => r ∈ derived p) rest
              (touches_process_font _ _ _) _ _ _ Hloop)
    as (_ & _ & _ & Hframe & _).
  exists f. split; [|done]. rewrite Hframe; [done|].
  intros Hin. apply list_elem_of_bind in Hin as (q & Hcq & Hq).
  rewrite Forall_forall in Hp. specialize (Hp q Hq).
  rewrite Forall_forall in Hp. by apply (Hp c).
Qed.

End BatchFormat.

Section BatchRun.
Context {FT : FontTools} {P : Platform}.

(** Counting the cubic inputs reads the files and changes nothing. *)
Lemma count_cff_run (paths : list string) (w w' : World) (r : result Z) :
  count_cff paths w = (w', r) ->
  w' = w /\ forall c, r = Ok c -> c = cubic_count w paths.
Proof.
  unfold count_cff, cubic_count.
  assert (Hflags : forall w' r, for_each_M _is_cff paths w = (w', r) ->
            w' = w /\ forall flags, r = Ok flags ->
              flags = List.map (fun p => match fonts w !! p with
                                         | Some f => has_cff_outlines f
                                         | None => false
                                         end) paths).
  { clear w' r. induction paths as [|p paths IH]; intros w' r;
      cbn [for_each_M List.map].
    - intros [= <- <-]. split; [done | by intros ? [= <-]].
    - unfold mbind at 1, M_bind at 1. unfold _is_cff at 1.
      unfold mbind at 1, M_bind at 1, open_font at 1.
      destruct (fonts w !! p) as [f|]; [|by intros [= <- <-]].
      unfold mret at 1, M_ret at 1. unfold mbind at 1, M_bind at 1.
      destruct (for_each_M _is_cff paths w) as [w1 [flags|e]] eqn:Hrest;
        destruct (IH _ _ eq_refl) as [-> Hfl]; intros [= <- <-];
        (split; [done|]); [|done].
      intros ? [= <-]. by rewrite (Hfl flags eq_refl). }
  unfold mbind at 1, M_bind at 1.
  destruct (for_each_M _is_cff paths w) as [w1 [flags|e]] eqn:Hrun;
    destruct (Hflags _ _ eq_refl) as [-> Hfl]; intros [= <- <-];
    (split; [done|]); [|done].
  intros c [= <-]. rewrite (Hfl flags eq_refl). do 2 f_equal.
  clear. induction paths as [|p paths IH]; [done|].
  cbn. destruct (fonts w !! p) as [f|]; cbn;
    [destruct (has_cff_outlines f); cbn|]; by rewrite ?IH.
Qed.

(** A run of [merge_fonts] on two or more inputs that calls the merger
    has prepared every input with the format chosen by the count of the
    cubic inputs. *)
Lemma merge_fonts_prepares (p0 p1 : string) (rest : list string)
  (output_path : string) (drop_tables : option (list string))
  (w w' : World) (r : result string) :
  merge_fonts (p0 :: p1 :: rest) output_path drop_tables w = (w', r) ->
  trace w' = trace w \/
  exists w1 target_upm processed inputs,
    for_each_M
      (process_font
         (majority_cff (cubic_count w (p0 :: p1 :: rest)) (p0 :: p1 :: rest))
         target_upm drop_tables)
      (p0 :: p1 :: rest) w = (w1, Ok processed) /\
    Forall2 (fun p f => fonts w1 !! p = Some f) processed inputs /\
    trace w' = trace w ++ [Merged inputs].
Proof.
  intros Hrun. unfold merge_fonts in Hrun. cbv beta iota in Hrun.
  set (paths := p0 :: p1 :: rest) in *.
  unfold mbind at 1, M_bind at 1 in Hrun.
  destruct (count_cff paths w) as [wa [c|e]] eqn:Hc;
    destruct (count_cff_run _ _ _ _ Hc) as [-> Hcount].
  2:{ cbv beta iota in Hrun. injection Hrun as <- <-. by left. }
  rewrite (Hcount c eq_refl) in Hrun. clear Hc Hcount c.
  cbv beta iota in Hrun. unfold mbind at 1, M_bind at 1 in Hrun.
  unfold open_font at 1 in Hrun.
  destruct (fonts w !! p0) as [f|];
    [|cbv beta iota in Hrun; injection Hrun as <- <-; by left].
  unfold mbind at 1, M_bind at 1 in Hrun. unfold lift at 1 in Hrun.
  cbv beta iota in Hrun.
  destruct (table "head" (head_unitsPerEm f)) as [upm|e];
    [|cbv beta iota in Hrun; injection Hrun as <- <-; by left].
  cbv beta iota in Hrun. unfold mbind at 1, M_bind at 1 in Hrun.
  destruct (for_each_M _ paths w) as [w1 [processed|e]] eqn:Hp;
    destruct (touches_for_each
                (process_font (majority_cff (cubic_count w paths) paths)
                   upm drop_tables)
                derived (fun p r => r ∈ derived p) paths
                (touches_process_font _ _ _) _ _ _ Hp)
      as (T1 & _).
  2:{ cbv beta iota in Hrun. injection Hrun as <- <-. by left. }
  cbv beta iota in Hrun. unfold mbind at 1, M_bind at 1 in Hrun.
  destruct (for_each_M open_font processed w1) as [w2 [inputs|e]] eqn:Ho;
    destruct (open_all _ _ _ _ Ho) as [-> Hin].
  2:{ cbv beta iota in Hrun. injection Hrun as <- <-. by left. }
  cbv beta iota in Hrun.
  right. exists w1, upm, processed, inputs.
  split; [exact Hp|]. split; [by apply Hin|].
  change (merge_tail inputs output_path w1 = (w', r)) in Hrun.
  apply merge_tail_trace in Hrun. by rewrite Hrun, T1.
Qed.

(** [cff_count > len(font_paths) // 2] holds for a strict majority
    only. *)
Lemma majority_cff_strict (cff_count : Z) (font_paths : list string) :
  majority_cff cff_count font_paths
  = bool_decide (Z.of_nat (length font_paths) < 2 * cff_count).
Proof.
  unfold majority_cff. set (n := Z.of_nat (length font_paths)).
  pose proof (Z.div_mod n 2 ltac:(lia)) as Hdm.
  pose proof (Z.mod_pos_bound n 2 ltac:(lia)) as Hmod.
  destruct (Z.ltb_spec (n / 2) cff_count).
  - rewrite bool_decide_eq_true_2; [done | lia].
  - rewrite bool_decide_eq_false_2; [done | lia].
Qed.

(** C3. Take a run of [merge_fonts] on N >= 2 inputs, C of which have
    cubic (CFF) outlines, that gets as far as the merger.  Every input
    has been prepared by [process_font] with the same choice of format,
    which is cubic exactly when C is a strict majority (N < 2 C), and the
    merger is handed the prepared files.  When the inputs' working paths
    are apart, the table-drop list names neither CFF table and fontTools
    builds the format it is asked for, the batch handed to the merger has
    one font for every input and all of them are cubic when N < 2 C and
    quadratic otherwise, so also on a tie (2 C = N). *)
Theorem batch_format_majority (font_paths : list string)
  (output_path : string) (drop_tables : option (list string)) (w : World)
  (inputs : list TTFont) :
  (2 <= length font_paths)%nat ->
  trace (merge_fonts font_paths output_path drop_tables w).1
  = trace w ++ [Merged inputs] ->
  let N := Z.of_nat (length font_paths) in
  let C := cubic_count w font_paths in
  (exists target_upm w1 processed,
     for_each_M
       (process_font (bool_decide (N < 2 * C)) target_upm drop_tables)
       font_paths w = (w1, Ok processed) /\
     Forall2 (fun p f => fonts w1 !! p = Some f) processed inputs) /\
  (paths_apart font_paths -> keeps_outlines drop_tables ->
   library_keeps_format ->
   length inputs = length font_paths /\
   (N < 2 * C -> Forall (fun f => has_cff_outlines f = true) inputs) /\
   (2 * C <= N -> Forall (fun f => has_cff_outlines f = false) inputs) /\
   (2 * C = N -> Forall (fun f => has_cff_outlines f = false) inputs)).
Proof.
  intros Hlen Htrace N C.
  destruct font_paths as [|p0 [|p1 rest]]; [simpl in Hlen; lia ..|].
  destruct (merge_fonts (p0 :: p1 :: rest) output_path drop_tables w)
    as [w' r] eqn:Hrun. cbn [fst] in Htrace.
  destruct (merge_fonts_prepares _ _ _ _ _ _ _ _ Hrun)
    as [Ht | (w1 & upm & processed & ins & Hproc & Hread & Htr)].
  { rewrite Ht in Htrace. exfalso.
    apply (f_equal length) in Htrace. rewrite length_app in Htrace.
    simpl in Htrace. lia. }
  rewrite Htr in Htrace. apply app_inv_head in Htrace.
  injection Htrace as ->.
  set (paths := p0 :: p1 :: rest) in *.
  rewrite majority_cff_strict in Hproc. fold N C in Hproc.
  split; [by exists upm, w1, processed|].
  intros Hapart Hkeep Hlib.
  destruct (process_all_outlines Hlib _ _ _ _ _ _ _ Hkeep Hapart Hproc)
    as [Hall Hlenp].
  assert (Hfmt : Forall (fun f => has_cff_outlines f
                                  = bool_decide (N < 2 * C)) inputs).
  { generalize dependent (bool_decide (N < 2 * C)). intros b _ Hall.
    clear -Hread Hall. induction Hread as [|p f ps fs Hp _ IH];
      [constructor|].
    inversion Hall as [|?? (f' & Hf' & Hg) Hrest]; subst.
    constructor; [congruence | by apply IH]. }
  assert (Hquad : 2 * C <= N ->
            Forall (fun f => has_cff_outlines f = false) inputs).
  { intros Hle. rewrite bool_decide_eq_false_2 in Hfmt; [done | lia]. }
  split; [|split; [|split]].
  - rewrite <- (Forall2_length _ _ _ Hread). exact Hlenp.
  - intros Hlt. by rewrite bool_decide_eq_true_2 in Hfmt.
  - exact Hquad.
  - intros Htie. apply Hquad. lia.
Qed.

End BatchRun.

Lemma sample_library_keeps_format :
  library_keeps_format (FT := Sample.fonttools).
Proof.
  split; [|split].
  - intros i f [= <-]. rewrite has_cff_outlines_tables. cbn.
    by destruct (b_isTTF i).
  - by intros f asc desc family f' [= <-].
  - by intros f upm f' [= <-].
Qed.

(** C3 on the two sample fonts, one with cubic outlines and one without: a
    tie, and both fonts reach the merger with quadratic outlines. *)
Lemma batch_format_majority_witness :
  cubic_count Sample.world_ab ["cache/a.otf"; "cache/b.ttf"]%string = 1 /\
  (exists target_upm w1 processed,
     for_each_M
       (process_font (FT := Sample.fonttools) (P := Sample.platform)
          false target_upm None)
       ["cache/a.otf"; "cache/b.ttf"]%string Sample.world_ab
     = (w1, Ok processed) /\
     Forall2 (fun p f => fonts w1 !! p = Some f) processed
       Sample.prepared_ab) /\
  length Sample.prepared_ab = 2%nat /\
  Forall (fun f => has_cff_outlines f = false) Sample.prepared_ab.
Proof.
  destruct (batch_format_majority (FT := Sample.fonttools)
              (P := Sample.platform)
              ["cache/a.otf"; "cache/b.ttf"]%string "dist/out.otf" None
              Sample.world_ab Sample.prepared_ab)
    as (Hprep & Hbatch).
  - simpl. lia.
  - vm_compute. reflexivity.
  - destruct Hbatch as (Hlen & _ & _ & Htie).
    + constructor; [|constructor; constructor].
      constructor; [|constructor].
      apply (bool_decide_unpack _). vm_compute. exact I.
    + exact I.
    + exact sample_library_keeps_format.
    + split; [reflexivity|]. split; [exact Hprep|].
      split; [exact Hlen|]. apply Htie. reflexivity.
Defined.

(** Two cubic inputs of three: a strict majority, and the three fonts
    reach the merger with cubic outlines. *)
Example batch_of_three_is_cubic :
  (fun e => match e with
            | Merged inputs => has_cff_outlines <$> inputs
            | Subsetted _ _ _ => []
            end)
  <$> trace (merge_fonts (FT := Sample.fonttools) (P := Sample.platform)
               ["cache/a.otf"; "cache/b.ttf"; "cache/d.otf"]%string
               "dist/out.otf" None Sample.world_abd).1
  = [[true; true; true]].
Proof. vm_compute. reflexivity. Qed.


(** * Further properties of the sources *)

(** ** parse_unicode_ranges: lists of ranges compose by union *)

Section ParseCompose.
Context {U : UnicodeData}.

Lemma parse_one_acc (acc : gset Z) (r : pystr) :
  parse_one acc r = (s ← parse_one ∅ r; Ok (acc ∪ s)).
Proof.
  unfold parse_one. destruct (negb _); [done|].
  destruct (contains 45 _).
  - destruct (split_first 45 _) as [a b].
    destruct (int16 a) as [x|]; [|done]. cbn.
    destruct (int16 b) as [y|]; [|done]. cbn.
    by rewrite (left_id_L ∅ (∪)).
  - destruct (int16 _) as [x|]; [|done]. cbn.
    by rewrite (left_id_L ∅ (∪)).
Qed.

Lemma parse_loop_acc (acc : gset Z) (ranges : list pystr) :
  parse_loop acc ranges = (s ← parse_loop ∅ ranges; Ok (acc ∪ s)).
Proof.
  revert acc. induction ranges as [|r ranges IH]; intros acc; cbn [parse_loop].
  - cbn. by rewrite (right_id_L ∅ (∪)).
  - rewrite (parse_one_acc acc r).
    destruct (parse_one ∅ r) as [s|]; [|done]. cbn.
    rewrite (IH (acc ∪ s)), (IH s).
    destruct (parse_loop ∅ ranges) as [t|]; [|done]. cbn.
    by rewrite (assoc_L (∪)).
Qed.

Lemma parse_loop_app (acc : gset Z) (l1 l2 : list pystr) :
  parse_loop acc (l1 ++ l2) = (s ← parse_loop acc l1; parse_loop s l2).
Proof.
  revert acc. induction l1 as [|r l1 IH]; intros acc; [done|].
  cbn [app parse_loop]. destruct (parse_one acc r) as [s|]; [|done]. cbn.
  apply IH.
Qed.

(** X1. When two lists of ranges both parse, their concatenation parses
    to the strictly increasing list of the code points of either. *)
Theorem parse_unicode_ranges_app (l1 l2 : list pystr) (a b : list Z) :
  parse_unicode_ranges l1 = Ok a ->
  parse_unicode_ranges l2 = Ok b ->
  exists c,
    parse_unicode_ranges (l1 ++ l2) = Ok c /\
    StronglySorted Z.lt c /\
    forall x, x ∈ c <-> x ∈ a \/ x ∈ b.
Proof.
  unfold parse_unicode_ranges. intros H1 H2.
  rewrite parse_loop_app.
  destruct (parse_loop ∅ l1) as [s1|] eqn:E1; [|done].
  destruct (parse_loop ∅ l2) as [s2|] eqn:E2; [|done].
  cbn in H1, H2 |- *. injection H1 as <-. injection H2 as <-.
  rewrite (parse_loop_acc s1 l2), E2. cbn.
  eexists. split; [done|]. split; [apply sorted_strictly|].
  intros x. rewrite !elem_of_sorted. set_solver.
Qed.

End ParseCompose.

(** X1 on [U+0041-0043] and [U+0042-0044]. *)
Lemma parse_unicode_ranges_app_witness :
  exists c,
    parse_unicode_ranges (U := Sample.unicode)
      ([lit "U+0041-0043"] ++ [lit "U+0042-0044"]) = Ok c /\
    StronglySorted Z.lt c /\
    forall x, x ∈ c <-> x ∈ [65; 66; 67] \/ x ∈ [66; 67; 68].
Proof.
  apply (parse_unicode_ranges_app (U := Sample.unicode)); vm_compute; reflexivity.
Defined.


(** ** _strip_tables *)

Lemma has_table_del_same (tag : string) (f : TTFont) :
  has_table tag (del_table tag f) = false.
Proof.
  unfold has_table, del_table. cbn.
  repeat case_decide; try done;
    apply bool_decide_eq_false_2; rewrite ?lookup_delete_eq;
    by intros [? [=]].
Qed.

Lemma has_table_del_other (tag tag' : string) (f : TTFont) :
  tag <> tag' -> has_table tag' (del_table tag f) = has_table tag' f.
Proof.
  intros Hne. unfold has_table, del_table. cbn.
  repeat case_decide; simplify_eq; try done.
  by rewrite lookup_delete_ne.
Qed.

Lemma strip_loop_tables (tags : list string) (f : TTFont) (changed : bool)
  (tag : string) :
  has_table tag (strip_loop tags f changed).1
  = has_table tag f && bool_decide (tag ∉ tags).
Proof.
  revert f changed. induction tags as [|t tags IH]; intros f changed;
    cbn [strip_loop fst].
  - rewrite bool_decide_eq_true_2 by apply not_elem_of_nil.
    by rewrite andb_true_r.
  - destruct (has_table t f) eqn:Ht; rewrite IH.
    + destruct (decide (t = tag)) as [->|Hne].
      * rewrite has_table_del_same.
        rewrite (bool_decide_eq_false_2 (tag ∉ tag :: tags))
          by (intros Hn; apply Hn, list_elem_of_here).
        by rewrite andb_false_r.
      * rewrite has_table_del_other by done. f_equal.
        apply bool_decide_ext. rewrite not_elem_of_cons.
        split; [intros ?; split; [congruence | done] | by intros [_ ?]].
    + destruct (decide (t = tag)) as [->|Hne].
      * by rewrite Ht.
      * f_equal. apply bool_decide_ext. rewrite not_elem_of_cons.
        split; [intros ?; split; [congruence | done] | by intros [_ ?]].
Qed.

Lemma strip_loop_untouched (tags : list string) (f : TTFont) (changed : bool) :
  (forall tag, tag ∈ tags -> has_table tag f = false) ->
  strip_loop tags f changed = (f, changed).
Proof.
  revert f changed. induction tags as [|t tags IH]; intros f changed Hno;
    cbn [strip_loop]; [done|].
  rewrite (Hno t) by apply list_elem_of_here.
  apply IH. intros tag Htag. by apply Hno, list_elem_of_further.
Qed.

Lemma strip_loop_changed (tags : list string) (f : TTFont) (changed : bool) :
  (strip_loop tags f changed).2 = false ->
  strip_loop tags f changed = (f, false).
Proof.
  revert f changed. induction tags as [|t tags IH]; intros f changed;
    cbn [strip_loop].
  - cbn. by intros ->.
  - destruct (has_table t f); [|apply IH].
    intros Hfalse. exfalso. clear IH. revert Hfalse.
    generalize (del_table t f). clear.
    induction tags as [|t tags IH]; intros g; cbn [strip_loop]; [done|].
    destruct (has_table t g); apply IH.
Qed.

Lemma strip_loop_glyphs (tags : list string) (f : TTFont) (changed : bool) :
  glyphOrder (strip_loop tags f changed).1 = glyphOrder f.
Proof.
  revert f changed. induction tags as [|t tags IH]; intros f changed;
    cbn [strip_loop]; [done|].
  destruct (has_table t f); by rewrite IH.
Qed.

(** X2. On an existing font file [_strip_tables] returns normally and
    leaves at the path a font that has a table exactly when the font had
    it and the list does not name it; the glyph order and every other
    file are kept, and when the font has none of the listed tables
    nothing is written at all. *)
Theorem strip_tables_removes (font_path : string) (table_tags : list string)
  (w : World) (font : TTFont) :
  fonts w !! font_path = Some font ->
  exists w' font',
    _strip_tables font_path table_tags w = (w', Ok tt) /\
    fonts w' !! font_path = Some font' /\
    (forall tag, has_table tag font'
                 = has_table tag font && bool_decide (tag ∉ table_tags)) /\
    glyphOrder font' = glyphOrder font /\
    (forall q, q <> font_path -> fonts w' !! q = fonts w !! q) /\
    ((forall tag, tag ∈ table_tags -> has_table tag font = false) -> w' = w).
Proof.
  intros Hfont. unfold _strip_tables. unfold_M. rewrite Hfont.
  pose proof (strip_loop_tables table_tags font false) as Htab.
  pose proof (strip_loop_glyphs table_tags font false) as Hglyph.
  pose proof (strip_loop_changed table_tags font false) as Hch.
  pose proof (strip_loop_untouched table_tags font false) as Hun.
  destruct (strip_loop table_tags font false) as [font' changed].
  cbn [fst snd] in *. destruct changed.
  - eexists _, font'. split; [done|]. cbn.
    split; [apply lookup_insert_eq|]. split; [done|]. split; [done|].
    split; [intros q Hq; by apply lookup_insert_ne|].
    intros Hno. by specialize (Hun Hno).
  - specialize (Hch eq_refl). injection Hch as ->.
    exists w, font. split; [done|]. split; [done|]. split; [done|]. done.
Qed.

(** X2 on [font_bc], stripped of its [glyf] and (absent) [GPOS] tables. *)
Lemma strip_tables_removes_witness :
  exists w' font',
    _strip_tables "cache/b.ttf" ["glyf"; "GPOS"]%string Sample.world_ab
    = (w', Ok tt) /\
    fonts w' !! "cache/b.ttf"%string = Some font' /\
    (forall tag, has_table tag font'
                 = has_table tag Sample.font_bc
                   && bool_decide (tag ∉ ["glyf"; "GPOS"]%string)) /\
    glyphOrder font' = glyphOrder Sample.font_bc /\
    (forall q, q <> "cache/b.ttf"%string ->
               fonts w' !! q = fonts Sample.world_ab !! q) /\
    ((forall tag, tag ∈ ["glyf"; "GPOS"]%string ->
                  has_table tag Sample.font_bc = false) ->
     w' = Sample.world_ab).
Proof.
  apply (strip_tables_removes "cache/b.ttf" ["glyf"; "GPOS"]%string
           Sample.world_ab Sample.font_bc).
  reflexivity.
Defined.


(** ** _ensure_gsub *)

(** X3. [_ensure_gsub] is idempotent: a second call on the same path
    changes nothing and has the result of the first.  A font that has a
    GSUB table is left as it is, file untouched. *)
Theorem ensure_gsub_idempotent (font_path : string) (w : World) :
  _ensure_gsub font_path (_ensure_gsub font_path w).1
  = _ensure_gsub font_path w /\
  (forall font, fonts w !! font_path = Some font ->
     has_table "GSUB" font = true ->
     _ensure_gsub font_path w = (w, Ok tt)).
Proof.
  unfold _ensure_gsub. unfold_M. split.
  - destruct (fonts w !! font_path) as [f|] eqn:Hp; cbn [fst].
    + destruct (has_table "GSUB" f) eqn:Hg; cbn [negb fst].
      * by rewrite Hp, Hg.
      * cbn. rewrite lookup_insert_eq. done.
    + by rewrite Hp.
  - intros font -> ->. done.
Qed.

(** ** _rebuild_cmap *)

(** The mapping of the last subtable that maps [cp]. *)
Definition last_mapping (tables : list CmapSubtable) (cp : Z)
  : option string :=
  t ← List.find (fun t => bool_decide (is_Some (cmap t !! cp))) (rev tables);
  cmap t !! cp.

Lemma all_mappings_lookup (tables : list CmapSubtable) (cp : Z) :
  all_mappings tables !! cp = last_mapping tables cp.
Proof.
  unfold all_mappings, last_mapping. rewrite <- fold_left_rev_right.
  induction (rev tables) as [|t l IH]; cbn [fold_right List.find].
  - by rewrite lookup_empty.
  - rewrite lookup_union. destruct (cmap t !! cp) as [g|] eqn:Ht.
    + rewrite bool_decide_eq_true_2 by by eexists. cbn. rewrite Ht.
      by destruct (fold_right _ _ _ !! cp).
    + rewrite bool_decide_eq_false_2 by by intros [? [=]].
      rewrite IH. by destruct (_ ≫= _).
Qed.

(** X4. [_rebuild_cmap] replaces the subtables of a font by a single
    format-12 subtable for platform 3, encoding 10, which is then the
    font's best character map: it maps a code point as the last of the
    old subtables that maps it does, and nothing else.  The other tables
    and the glyph order are kept.  Without a cmap table the call raises
    [KeyError]. *)
Theorem rebuild_cmap_last_wins (font : TTFont) :
  match cmap_tables font with
  | None => _rebuild_cmap font = Raise (KeyError "cmap")
  | Some tables =>
      exists font' m,
        _rebuild_cmap font = Ok font' /\
        cmap_tables font'
        = Some [ {| platformID := 3; platEncID := 10; format := 12;
                    language := 0; cmap := m |} ] /\
        getBestCmap font' = Ok (Some m) /\
        (forall cp, m !! cp = last_mapping tables cp) /\
        glyphOrder font' = glyphOrder font /\
        (forall tag, tag <> "cmap"%string ->
                     has_table tag font' = has_table tag font)
  end.
Proof.
  unfold _rebuild_cmap. destruct (cmap_tables font) as [tables|] eqn:Ht; [|done].
  cbn. eexists _, _. split; [done|]. split; [done|]. split; [done|].
  split; [apply all_mappings_lookup|]. split; [done|].
  intros tag Hne. unfold has_table. cbn.
  repeat case_decide; simplify_eq; done.
Qed.


(** ** merge_fonts: one input, no input *)

Section MergeEdges.
Context {FT : FontTools} {P : Platform}.

(** X5. With a single input (an existing file, other than the output
    path) [merge_fonts] only copies the file to the output path.  When the
    directory of the output path exists, the output is the input font as
    it is, whatever the drop list (no table dropped, no GSUB added, no
    glyph count checked), the merger is not called and no other file
    changes.  When it does not exist the copy fails with
    [FileNotFoundError] and nothing changes: unlike the path for several
    inputs, this one does not make the directory.  With no input
    [merge_fonts] raises [ValueError] and changes nothing. *)
Theorem merge_fonts_single_copies (p output_path : string)
  (drop_tables : option (list string)) (w : World) (font : TTFont) :
  fonts w !! p = Some font ->
  p <> output_path ->
  merge_fonts [p] output_path drop_tables w
  = (if is_dir (path_parent output_path)
     then ({| fonts := <[output_path := font]> (fonts w); texts := texts w;
              temps := temps w; trace := trace w |}, Ok output_path)
     else (w, Raise (FileNotFoundError output_path))) /\
  merge_fonts [] output_path drop_tables w
  = (w, Raise (ValueError no_fonts_to_merge)).
Proof.
  intros Hp Hne. split; [|done].
  unfold merge_fonts, copy2. unfold_M. rewrite Hp.
  destruct (decide (p = output_path)); [done|].
  by destruct (is_dir (path_parent output_path)).
Qed.

(** X6. Whatever its outcome, [merge_fonts] changes no font file other
    than the output path and the working paths of its inputs (an input
    path and its [.nk.otf], [.cff.otf], [.conv.ttf], [.scaled.otf]
    siblings); text files and the temporary-name counter are untouched. *)
Theorem merge_fonts_frame (font_paths : list string) (output_path : string)
  (drop_tables : option (list string)) (w w' : World) (r : result string)
  (q : string) :
  merge_fonts font_paths output_path drop_tables w = (w', r) ->
  q <> output_path ->
  q ∉ font_paths ≫= derived ->
  fonts w' !! q = fonts w !! q.
Proof.
  intros Hrun Hq Hnot.
  destruct font_paths as [|p0 [|p1 rest]].
  - by injection Hrun as <- <-.
  - unfold merge_fonts, copy2 in Hrun. unfold_M.
    destruct (fonts w !! p0); [|by injection Hrun as <- <-].
    destruct (decide (p0 = output_path)); [by injection Hrun as <- <-|].
    destruct (is_dir (path_parent output_path)); injection Hrun as <- <-;
      [|done].
    cbn. by apply lookup_insert_ne.
  - destruct (merge_fonts_run _ _ _ _ _ _ _ _ Hrun)
      as [(_ & F & _) | (wa & w1 & u & upm & processed & ins & _ & _ & _ & F1 & Htail)].
    { by apply F. }
    rewrite <- (F1 q Hnot). unfold merge_tail in Htail. unfold_M.
    destruct (ft_merge ins) as [m|e]; cbn in Htail;
      [|by injection Htail as <- <-].
    destruct (_TTF_GLYPH_LIMIT <? _); cbn in Htail;
      [by injection Htail as <- <-|].
    destruct (_rebuild_cmap m); cbn in Htail; injection Htail as <- <-;
      [|done].
    cbn. by apply lookup_insert_ne.
Qed.

(** X7. When [merge_fonts] returns normally on two or more inputs, it
    returns the output path, and the font saved there is the merger's
    result with its character map rebuilt: at most 65535 glyphs, in the
    merger's glyph order, and a single format-12 subtable.  The merger was
    called once, as the last recorded call. *)
Theorem merge_fonts_returns (font_paths : list string) (output_path : string)
  (drop_tables : option (list string)) (w w' : World) (out : string) :
  (2 <= length font_paths)%nat ->
  merge_fonts font_paths output_path drop_tables w = (w', Ok out) ->
  out = output_path /\
  exists inputs merged saved m,
    trace w' = trace w ++ [Merged inputs] /\
    length inputs = length font_paths /\
    ft_merge inputs = Ok merged /\
    fonts w' !! output_path = Some saved /\
    glyphOrder saved = glyphOrder merged /\
    Z.of_nat (length (glyphOrder saved)) <= _TTF_GLYPH_LIMIT /\
    cmap_tables saved
    = Some [ {| platformID := 3; platEncID := 10; format := 12;
                language := 0; cmap := m |} ].
Proof.
  intros Hlen Hrun.
  destruct font_paths as [|p0 [|p1 rest]]; [simpl in Hlen; lia ..|].
  destruct (merge_fonts_run _ _ _ _ _ _ _ _ Hrun)
    as [(_ & _ & e & He) | (wa & w1 & u & upm & processed & ins & Hp & Hin & T1 & _ & Htail)];
    [done|].
  assert (Hcount : length ins = length (p0 :: p1 :: rest)).
  { apply Forall2_length in Hin. rewrite <- Hin.
    clear -Hp. revert wa w1 processed Hp.
    generalize (p0 :: p1 :: rest) as l.
    induction l as [|a l IH]; intros wa w1 processed; cbn [for_each_M].
    - by intros [= <- <-].
    - unfold mbind at 1, M_bind at 1.
      destruct (process_font _ _ _ a wa) as [wb [b|e]]; [|done].
      unfold mbind at 1, M_bind at 1.
      destruct (for_each_M _ l wb) as [wc [bs|e]] eqn:Hl; [|done].
      intros [= <- <-]. cbn. f_equal. by eapply IH. }
  unfold merge_tail in Htail. unfold_M.
  destruct (ft_merge ins) as [merged|e] eqn:Hm; cbn in Htail; [|done].
  destruct (Z.ltb_spec _TTF_GLYPH_LIMIT
              (Z.of_nat (length (glyphOrder merged)))); cbn in Htail; [done|].
  unfold _rebuild_cmap in Htail.
  destruct (cmap_tables merged) as [tables|]; cbn in Htail; [|done].
  injection Htail as <- <-. split; [done|].
  eexists ins, merged, _, _. cbn.
  split; [by rewrite T1|]. split; [done|]. split; [done|].
  split; [apply lookup_insert_eq|]. done.
Qed.

End MergeEdges.

(** X5 on [font_ab], with a drop list that names a table it has: copied
    into the directory [dist], and refused for a directory that does not
    exist. *)
Lemma merge_fonts_single_copies_witness :
  (merge_fonts (FT := Sample.fonttools) (P := Sample.platform)
     ["cache/a.otf"%string] "dist/out.otf" (Some ["CFF "%string])
     Sample.world_ab
   = ({| fonts := <["dist/out.otf"%string := Sample.font_ab]>
                    (fonts Sample.world_ab);
         texts := texts Sample.world_ab;
         temps := temps Sample.world_ab;
         trace := trace Sample.world_ab |}, Ok "dist/out.otf"%string) /\
   merge_fonts (FT := Sample.fonttools) (P := Sample.platform)
     [] "dist/out.otf" (Some ["CFF "%string]) Sample.world_ab
   = (Sample.world_ab, Raise (ValueError no_fonts_to_merge))) /\
  merge_fonts (FT := Sample.fonttools) (P := Sample.platform)
    ["cache/a.otf"%string] "nowhere/out.otf" None Sample.world_ab
  = (Sample.world_ab, Raise (FileNotFoundError "nowhere/out.otf")).
Proof.
  split.
  - apply (merge_fonts_single_copies (FT := Sample.fonttools)
             (P := Sample.platform) "cache/a.otf" "dist/out.otf"
             (Some ["CFF "%string]) Sample.world_ab Sample.font_ab).
    + reflexivity.
    + discriminate.
  - apply (merge_fonts_single_copies (FT := Sample.fonttools)
             (P := Sample.platform) "cache/a.otf" "nowhere/out.otf"
             None Sample.world_ab Sample.font_ab).
    + reflexivity.
    + discriminate.
Defined.

(** X6 on [font_ab] and [font_bc], merged beside a third font file. *)
Lemma merge_fonts_frame_witness :
  fonts (merge_fonts (FT := Sample.fonttools) (P := Sample.platform)
           ["cache/a.otf"; "cache/b.ttf"]%string "dist/out.otf" None
           Sample.world_abd).1 !! "cache/d.otf"%string
  = fonts Sample.world_abd !! "cache/d.otf"%string.
Proof.
  apply (merge_fonts_frame (FT := Sample.fonttools) (P := Sample.platform)
           ["cache/a.otf"; "cache/b.ttf"]%string "dist/out.otf" None
           Sample.world_abd _ _ "cache/d.otf" (surjective_pairing _)).
  - discriminate.
  - apply (bool_decide_unpack _). vm_compute. exact I.
Defined.

(** X7 on the two sample fonts. *)
Lemma merge_fonts_returns_witness :
  "dist/out.otf"%string = "dist/out.otf"%string /\
  exists inputs merged saved m,
    trace (merge_fonts (FT := Sample.fonttools) (P := Sample.platform)
             ["cache/a.otf"; "cache/b.ttf"]%string "dist/out.otf" None
             Sample.world_ab).1
    = trace Sample.world_ab ++ [Merged inputs] /\
    length inputs = length ["cache/a.otf"; "cache/b.ttf"]%string /\
    ft_merge (FontTools := Sample.fonttools) inputs = Ok merged /\
    fonts (merge_fonts (FT := Sample.fonttools) (P := Sample.platform)
             ["cache/a.otf"; "cache/b.ttf"]%string "dist/out.otf" None
             Sample.world_ab).1 !! "dist/out.otf"%string = Some saved /\
    glyphOrder saved = glyphOrder merged /\
    Z.of_nat (length (glyphOrder saved)) <= _TTF_GLYPH_LIMIT /\
    cmap_tables saved
    = Some [ {| platformID := 3; platEncID := 10; format := 12;
                language := 0; cmap := m |} ].
Proof.
  apply (merge_fonts_returns (FT := Sample.fonttools) (P := Sample.platform)
           ["cache/a.otf"; "cache/b.ttf"]%string "dist/out.otf" None
           Sample.world_ab).
  - simpl. lia.
  - refine (eq_trans (surjective_pairing _) _). f_equal.
Defined.


(** ** merge_fonts: the preparation of one input *)

Section Prepare.
Context {FT : FontTools} {P : Platform}.

Lemma decid_cff_name_keyed (p : string) (w : World) (f : TTFont) :
  fonts w !! p = Some f ->
  (forall c, cff f = Some c -> ROS c = false) ->
  _decid_cff p w = (w, Ok p).
Proof.
  intros Hp Hros. unfold _decid_cff. unfold_M. rewrite Hp.
  destruct (cff f) as [c|]; [|done]. by rewrite (Hros c eq_refl).
Qed.

Lemma convert_fn_same_format (use_cff : bool) (p : string) (w : World)
  (f : TTFont) :
  fonts w !! p = Some f ->
  has_cff_outlines f = use_cff ->
  convert_fn use_cff p w = (w, Ok p).
Proof.
  intros Hp <-. unfold convert_fn.
  destruct (has_cff_outlines f) eqn:Hcff.
  - unfold _ensure_cff. unfold_M. by rewrite Hp, Hcff.
  - unfold _ensure_quadratic. unfold_M. by rewrite Hp, Hcff.
Qed.

Lemma normalize_upm_same (p : string) (upm : Z) (w : World) (f : TTFont) :
  fonts w !! p = Some f ->
  head_unitsPerEm f = Some upm ->
  _normalize_upm p upm w = (w, Ok p).
Proof.
  intros Hp Hupm. unfold _normalize_upm. unfold_M. rewrite Hp, Hupm. cbn.
  by rewrite Z.eqb_refl.
Qed.

Lemma ensure_gsub_present (p : string) (w : World) (f : TTFont) :
  fonts w !! p = Some f ->
  has_table "GSUB" f = true ->
  _ensure_gsub p w = (w, Ok tt).
Proof.
  intros Hp Hg. unfold _ensure_gsub. unfold_M. by rewrite Hp, Hg.
Qed.

Lemma strip_tables_absent (p : string) (tags : list string) (w : World)
  (f : TTFont) :
  fonts w !! p = Some f ->
  (forall tag, tag ∈ tags -> has_table tag f = false) ->
  _strip_tables p tags w = (w, Ok tt).
Proof.
  intros Hp Hno. unfold _strip_tables. unfold_M. rewrite Hp.
  by rewrite (strip_loop_untouched tags f false Hno).
Qed.

(** X8. An input that already conforms is handed to the merger as it is:
    for a font file that is not CID-keyed, has the outlines of the batch
    format, the target units per em and a GSUB table, and none of the
    tables to drop, the preparation returns the input path itself and
    writes nothing. *)
Theorem process_font_conforming (use_cff : bool) (target_upm : Z)
  (drop_tables : option (list string)) (p : string) (w : World)
  (font : TTFont) :
  fonts w !! p = Some font ->
  (forall c, cff font = Some c -> ROS c = false) ->
  has_cff_outlines font = use_cff ->
  head_unitsPerEm font = Some target_upm ->
  has_table "GSUB" font = true ->
  (forall tags tag, drop_tables = Some tags -> tag ∈ tags ->
                    has_table tag font = false) ->
  process_font use_cff target_upm drop_tables p w = (w, Ok p).
Proof.
  intros Hp Hros Hfmt Hupm Hgsub Hdrop. unfold process_font.
  unfold mbind at 1, M_bind at 1.
  rewrite (decid_cff_name_keyed p w font Hp Hros).
  unfold mbind at 1, M_bind at 1.
  rewrite (convert_fn_same_format use_cff p w font Hp Hfmt).
  unfold mbind at 1, M_bind at 1.
  rewrite (normalize_upm_same p target_upm w font Hp Hupm).
  unfold mbind at 1, M_bind at 1.
  rewrite (ensure_gsub_present p w font Hp Hgsub).
  unfold mbind at 1, M_bind at 1.
  destruct drop_tables as [[|tag tags]|]; [done | | done].
  rewrite (strip_tables_absent p (tag :: tags) w font Hp); [done|].
  intros t Ht. by eapply Hdrop.
Qed.

Lemma copy_layout_tables_gsub (font new_font : TTFont) :
  gsub (copy_layout_tables font new_font)
  = match gsub font with Some t => Some t | None => gsub new_font end.
Proof.
  unfold copy_layout_tables.
  destruct (gsub font), (other_tables font !! "GPOS"%string),
    (other_tables font !! "GDEF"%string); done.
Qed.

Lemma copy_layout_tables_other (font new_font : TTFont) (tag : string) :
  tag ∈ ["GPOS"; "GDEF"]%string ->
  other_tables (copy_layout_tables font new_font) !! tag
  = match other_tables font !! tag with
    | Some t => Some t
    | None => other_tables new_font !! tag
    end.
Proof.
  intros Htag. unfold copy_layout_tables.
  apply elem_of_cons in Htag as [->|Htag%list_elem_of_singleton]; [|subst tag].
  - destruct (gsub font), (other_tables font !! "GPOS"%string) eqn:E1,
      (other_tables font !! "GDEF"%string) eqn:E2; cbn;
      rewrite ?lookup_insert_ne by done; rewrite ?lookup_insert_eq; done.
  - destruct (gsub font), (other_tables font !! "GPOS"%string) eqn:E1,
      (other_tables font !! "GDEF"%string) eqn:E2; cbn;
      rewrite ?lookup_insert_eq; rewrite ?lookup_insert_ne by done;
      rewrite ?lookup_insert_eq; done.
Qed.

(** The layout tables of [font] are those of [font'], wherever [font]
    has them. *)
Definition carries_layout (font font' : TTFont) : Prop :=
  (forall t, gsub font = Some t -> gsub font' = Some t) /\
  (forall tag t, tag ∈ ["GPOS"; "GDEF"]%string ->
     other_tables font !! tag = Some t -> other_tables font' !! tag = Some t).

Lemma copy_layout_tables_carries (font new_font : TTFont) :
  carries_layout font (copy_layout_tables font new_font).
Proof.
  split.
  - intros t Ht. by rewrite copy_layout_tables_gsub, Ht.
  - intros tag t Htag Ht. by rewrite copy_layout_tables_other, Ht.
Qed.

Lemma rebuild_cff_carries (p : string) (font new_font : TTFont) :
  rebuild_cff p font = Ok new_font -> carries_layout font new_font.
Proof.
  unfold rebuild_cff.
  destruct (table "head" _); [|done]. cbn.
  destruct (getBestCmap font); [|done]. cbn.
  destruct (table "hmtx" _); [|done]. cbn.
  destruct (for_each _ _); [|done]. cbn.
  destruct (ft_build_glyphs _); [|done]. cbn.
  destruct (table "hhea" _); [|done]. cbn.
  destruct (ft_build_tables _ _ _ _); [|done]. cbn.
  intros [= <-]. apply copy_layout_tables_carries.
Qed.

Lemma rebuild_quadratic_carries (p : string) (font new_font : TTFont) :
  rebuild_quadratic p font = Ok new_font -> carries_layout font new_font.
Proof.
  unfold rebuild_quadratic.
  destruct (table "head" _); [|done]. cbn.
  destruct (getBestCmap font); [|done]. cbn.
  destruct (table "hmtx" _); [|done]. cbn.
  destruct (for_each _ _); [|done]. cbn.
  destruct (ft_build_glyphs _); [|done]. cbn.
  destruct (table "hhea" _); [|done]. cbn.
  destruct (ft_build_tables _ _ _ _); [|done]. cbn.
  intros [= <-]. apply copy_layout_tables_carries.
Qed.

(** X9. When the batch conversion has to convert a font (its outlines
    are not of the batch format) and returns, the path returned is the
    input path with its suffix replaced by [.cff.otf] or [.conv.ttf], and
    the font written there carries the GSUB, GPOS and GDEF tables of the
    source wherever the source has them; the source file is not written
    unless it has that very path. *)
Theorem convert_fn_carries_layout (use_cff : bool) (p out : string)
  (w w' : World) (font : TTFont) :
  fonts w !! p = Some font ->
  has_cff_outlines font = negb use_cff ->
  convert_fn use_cff p w = (w', Ok out) ->
  out = with_suffix p (if use_cff then ".cff.otf" else ".conv.ttf") /\
  (exists font', fonts w' !! out = Some font' /\ carries_layout font font') /\
  (out <> p -> fonts w' !! p = Some font).
Proof.
  intros Hp Hfmt. destruct use_cff; cbn [convert_fn negb] in *.
  - unfold _ensure_cff. unfold_M. rewrite Hp, Hfmt.
    destruct (rebuild_cff p font) as [new_font|] eqn:Hnew; cbn; [|done].
    intros [= <- <-]. split; [done|]. cbn. split.
    + exists new_font. split; [apply lookup_insert_eq|].
      by eapply rebuild_cff_carries.
    + intros Hne. by rewrite lookup_insert_ne.
  - rewrite (ensure_quadratic_rebuild p font w Hp Hfmt). unfold_M.
    destruct (rebuild_quadratic p font) as [new_font|] eqn:Hnew; cbn; [|done].
    intros [= <- <-]. split; [done|]. cbn. split.
    + exists new_font. split; [apply lookup_insert_eq|].
      by eapply rebuild_quadratic_carries.
    + intros Hne. by rewrite lookup_insert_ne.
Qed.

End Prepare.

(** [font_ab] with a GSUB table, in a file of its own. *)
Definition font_ready : TTFont := set_gsub empty_gsub Sample.font_ab.

Definition world_ready : World :=
  Sample.world_of [("cache/ready.otf"%string, font_ready)] [].

(** X8 on [font_ready], in a CFF batch at 1000 units per em with a drop
    list naming a table the font lacks. *)
Lemma process_font_conforming_witness :
  process_font (FT := Sample.fonttools) (P := Sample.platform)
    true 1000 (Some ["GPOS"%string]) "cache/ready.otf" world_ready
  = (world_ready, Ok "cache/ready.otf"%string).
Proof.
  apply (process_font_conforming (FT := Sample.fonttools)
           (P := Sample.platform) true 1000 (Some ["GPOS"%string])
           "cache/ready.otf" world_ready font_ready).
  - reflexivity.
  - intros c [= <-]. reflexivity.
  - reflexivity.
  - reflexivity.
  - reflexivity.
  - intros tags tag [= <-] Htag.
    apply list_elem_of_singleton in Htag as ->. reflexivity.
Defined.

(** X9 on [font_ready], which has CFF outlines and a GSUB table, in a
    TrueType batch. *)
Lemma convert_fn_carries_layout_witness :
  "cache/ready.otf.conv.ttf"%string
  = with_suffix (Platform := Sample.platform) "cache/ready.otf" ".conv.ttf" /\
  (exists font',
     fonts (convert_fn (FT := Sample.fonttools) (P := Sample.platform)
              false "cache/ready.otf" world_ready).1
       !! "cache/ready.otf.conv.ttf"%string = Some font' /\
     carries_layout font_ready font') /\
  ("cache/ready.otf.conv.ttf"%string <> "cache/ready.otf"%string ->
   fonts (convert_fn (FT := Sample.fonttools) (P := Sample.platform)
            false "cache/ready.otf" world_ready).1 !! "cache/ready.otf"%string
   = Some font_ready).
Proof.
  apply (convert_fn_carries_layout (FT := Sample.fonttools)
           (P := Sample.platform) false "cache/ready.otf"
           "cache/ready.otf.conv.ttf" world_ready _ font_ready).
  - reflexivity.
  - reflexivity.
  - refine (eq_trans (surjective_pairing _) _). f_equal.
Defined.


(** ** download.py: the font cache *)

Section Cache.
Context {P : Platform}.

Lemma download_from_outcome {N : Network} (attempt remaining : nat)
  (url dest : string) (w w' : World) (r : result unit) :
  download_from attempt remaining url dest w = (w', r) ->
  (exists data, r = Ok tt /\
     w' = {| fonts := <[dest := data]> (fonts w); texts := texts w;
             temps := temps w; trace := trace w |}) \/
  (w' = w /\
   ((r = Raise (RuntimeError (download_failed url)) /\
     forall k, (attempt <= k < attempt + remaining)%nat ->
               fetch url k = Refused) \/
    (exists k what,
       (attempt <= k < attempt + remaining)%nat /\
       fetch url k = Broken what /\ r = Raise (LibraryError what) /\
       forall j, (attempt <= j < k)%nat -> fetch url j = Refused))).
Proof.
  revert attempt. induction remaining as [|n IH]; intros attempt;
    cbn [download_from].
  - intros [= <- <-]. right. split; [done|]. left. split; [done|].
    intros k Hk. lia.
  - destruct (fetch url attempt) as [data| |what] eqn:Hf.
    + intros [= <- <-]. left. by exists data.
    + intros Hrun.
      destruct (IH _ Hrun)
        as [?|(-> & [(-> & Hnone)|(k & what & Hk & Hfail & -> & Hbefore)])];
        [by left | |]; right; (split; [done|]).
      * left. split; [done|]. intros k Hk.
        destruct (decide (k = attempt)) as [->|]; [done|]. apply Hnone. lia.
      * right. exists k, what. split; [lia|]. split; [done|]. split; [done|].
        intros j Hj.
        destruct (decide (j = attempt)) as [->|]; [done|]. apply Hbefore. lia.
    + intros [= <- <-]. right. split; [done|]. right.
      exists attempt, what. split; [lia|]. split; [done|]. split; [done|].
      intros j Hj. lia.
Qed.

Lemma download_from_fails {N : Network} (attempt remaining : nat)
  (url dest : string) (w : World) :
  (forall k, (attempt <= k < attempt + remaining)%nat ->
             fetch url k = Refused) ->
  download_from attempt remaining url dest w
  = (w, Raise (RuntimeError (download_failed url))).
Proof.
  revert attempt. induction remaining as [|n IH]; intros attempt Hnone;
    cbn [download_from]; [done|].
  rewrite (Hnone attempt) by lia. apply IH. intros k Hk. apply Hnone. lia.
Qed.

(** [_download] writes the data it got to the destination, or raises and
    writes nothing. *)
Lemma download_outcome {N : Network} (url dest : string) (w w' : World)
  (r : result unit) :
  _download url dest w = (w', r) ->
  (exists data, r = Ok tt /\
     w' = {| fonts := <[dest := data]> (fonts w); texts := texts w;
             temps := temps w; trace := trace w |}) \/
  (w' = w /\ exists e, r = Raise e).
Proof.
  unfold _download. destruct (url_type url).
  - intros Hrun.
    destruct (download_from_outcome _ _ _ _ _ _ _ Hrun)
      as [?|(-> & [(-> & _)|(k & what & _ & _ & -> & _)])];
      [by left | right; split; [done | by eexists] ..].
  - intros [= <- <-]. right. split; [done | by eexists].
Qed.

Lemma download_raises {N : Network} (url dest : string) (w w' : World)
  (e : exn) :
  _download url dest w = (w', Raise e) ->
  w' = w /\
  (e = ValueError (unknown_url_type url) \/
   e = RuntimeError (download_failed url) \/
   exists what, e = LibraryError what).
Proof.
  unfold _download. destruct (url_type url).
  - intros Hrun.
    destruct (download_from_outcome _ _ _ _ _ _ _ Hrun)
      as [(? & ? & _)
         |(-> & [([= ->] & _)|(k & what & _ & _ & [= ->] & _)])];
      [done | split; [done|] ..].
    + right. by left.
    + right. right. by eexists.
  - intros [= <- <-]. split; [done | by left].
Qed.

Lemma ensure_font_hit {N : Network} (cache_dir font_name url : string)
  (w : World) :
  is_Some (fonts w !! _cache_path cache_dir font_name) \/
  is_Some (texts w !! _cache_path cache_dir font_name) ->
  ensure_font cache_dir font_name url w
  = (w, Ok (_cache_path cache_dir font_name)).
Proof.
  intros Hin. unfold ensure_font, exists_.
  unfold mbind at 1, M_bind at 1.
  assert (bool_decide (is_Some (fonts w !! _cache_path cache_dir font_name))
          || bool_decide (is_Some (texts w !! _cache_path cache_dir font_name))
          = true) as ->; [|done].
  apply orb_true_iff. destruct Hin as [H|H]; [left|right];
    by apply bool_decide_eq_true.
Qed.

(** X10. When [ensure_font] returns, it returns the cache path of the
    font, a font file is there, and from then on the font is served from
    the cache: a further call, with any URL and whatever the network does,
    returns the same path and changes nothing. *)
Theorem ensure_font_caches {N : Network} (cache_dir font_name url : string)
  (w w' : World) (p : string) :
  ensure_font cache_dir font_name url w = (w', Ok p) ->
  p = _cache_path cache_dir font_name /\
  (is_Some (fonts w' !! p) \/ is_Some (texts w' !! p)) /\
  forall (N' : Network) (url' : string),
    ensure_font (N := N') cache_dir font_name url' w' = (w', Ok p).
Proof.
  unfold ensure_font at 1. unfold exists_.
  unfold mbind at 1, M_bind at 1.
  destruct (bool_decide (is_Some (fonts w !! _))
            || bool_decide (is_Some (texts w !! _))) eqn:Hex.
  - intros [= <- <-].
    assert (Hin : is_Some (fonts w !! _cache_path cache_dir font_name) \/
                  is_Some (texts w !! _cache_path cache_dir font_name)).
    { apply orb_true_iff in Hex as [H|H]; apply bool_decide_eq_true in H; auto. }
    split; [done|]. split; [done|].
    intros N' url'. by apply ensure_font_hit.
  - unfold mbind at 1, M_bind at 1.
    destruct (_download _ _ _) as [w1 [[]|e]] eqn:Hd; [|done].
    intros [= <- <-]. unfold mret, M_ret. split; [done|].
    destruct (download_outcome _ _ _ _ _ Hd)
      as [(data & _ & ->)|(_ & e & He)]; [|done].
    cbn. rewrite lookup_insert_eq. split; [by left|].
    intros N' url'. apply ensure_font_hit. cbn.
    rewrite lookup_insert_eq. by left.
Qed.

(** X11. When [ensure_font] raises, nothing was at the cache path and
    nothing has been written, and the error is one of three: [ValueError]
    for a URL in which no scheme is found, raised before any attempt;
    [RuntimeError] "download failed" after the first three attempts were
    all refused (a fourth is never made); or the exception, of a class the
    loop does not catch, of the first attempt that was not refused.
    Conversely, with nothing at the cache path, a URL without a scheme
    gives the [ValueError] whatever the network would answer, and three
    refused attempts give the [RuntimeError]. *)
Theorem ensure_font_gives_up {N : Network} (cache_dir font_name url : string)
  (w : World) :
  let cached := _cache_path cache_dir font_name in
  (forall w' e, ensure_font cache_dir font_name url w = (w', Raise e) ->
     w' = w /\ fonts w !! cached = None /\ texts w !! cached = None /\
     ((url_type url = None /\ e = ValueError (unknown_url_type url)) \/
      (is_Some (url_type url) /\
       e = RuntimeError (download_failed url) /\
       fetch url 1%nat = Refused /\ fetch url 2%nat = Refused /\
       fetch url 3%nat = Refused) \/
      (is_Some (url_type url) /\
       exists k what,
         (1 <= k <= 3)%nat /\ fetch url k = Broken what /\
         e = LibraryError what /\
         forall j, (1 <= j < k)%nat -> fetch url j = Refused))) /\
  (fonts w !! cached = None -> texts w !! cached = None ->
   (url_type url = None ->
    ensure_font cache_dir font_name url w
    = (w, Raise (ValueError (unknown_url_type url)))) /\
   (is_Some (url_type url) ->
    fetch url 1%nat = Refused -> fetch url 2%nat = Refused ->
    fetch url 3%nat = Refused ->
    ensure_font cache_dir font_name url w
    = (w, Raise (RuntimeError (download_failed url))))).
Proof.
  intros cached.
  assert (Hmiss : fonts w !! cached = None -> texts w !! cached = None ->
            ensure_font cache_dir font_name url w
            = match _download url cached w with
              | (w1, Ok _) => (w1, Ok cached)
              | (w1, Raise e) => (w1, Raise e)
              end).
  { intros Hf Ht. unfold ensure_font, exists_. fold cached.
    unfold mbind at 1, M_bind at 1. rewrite Hf, Ht.
    rewrite !bool_decide_eq_false_2 by by intros [? [=]]. cbn [orb].
    unfold mbind, M_bind. by destruct (_download _ _ _) as [? [[]|]]. }
  assert (Hhit : is_Some (fonts w !! cached) \/ is_Some (texts w !! cached) ->
            ensure_font cache_dir font_name url w = (w, Ok cached)).
  { apply ensure_font_hit. }
  split.
  - intros w' e Hrun.
    destruct (fonts w !! cached) eqn:Hf;
      [rewrite Hhit in Hrun by (left; by eexists); done|].
    destruct (texts w !! cached) eqn:Ht;
      [rewrite Hhit in Hrun by (right; by eexists); done|].
    rewrite (Hmiss eq_refl eq_refl) in Hrun. unfold _download in Hrun.
    destruct (url_type url) as [scheme|] eqn:Hscheme.
    + destruct (download_from _ _ _ _ _) as [w1 [[]|e1]] eqn:Hd; [done|].
      injection Hrun as <- <-.
      destruct (download_from_outcome _ _ _ _ _ _ _ Hd)
        as [(? & ? & _)
           |(-> & [([= ->] & Hnone)|(k & what & Hk & Hfail & [= ->] & Hbefore)])];
        [done | |]; (split; [done|]); (split; [done|]); (split; [done|]);
        right; [left | right]; (split; [by eexists|]).
      * unfold _MAX_RETRIES in Hnone.
        split; [done|]. repeat split; apply Hnone; lia.
      * unfold _MAX_RETRIES in Hk. exists k, what.
        split; [lia|]. by repeat split.
    + injection Hrun as <- <-. repeat split; try done. by left.
  - intros Hf Ht. rewrite (Hmiss Hf Ht). unfold _download. split.
    + by intros ->.
    + intros [scheme ->] H1 H2 H3.
      rewrite download_from_fails; [done|].
      intros k Hk. unfold _MAX_RETRIES in Hk.
      assert (k = 1 \/ k = 2 \/ k = 3)%nat as [->|[->| ->]] by lia; done.
Qed.

End Cache.

(** A network on which every second request succeeds. *)
Definition flaky_network : Network :=
  {| url_type := Sample.scheme_of "";
     fetch := fun _ attempt =>
       if Nat.even attempt then Body Sample.font_d else Refused |}.

(** X10 on a font that is not in the cache, fetched at the second
    attempt. *)
Lemma ensure_font_caches_witness :
  "cache/d.otf"%string
  = _cache_path (P := Sample.platform) "cache" "d.otf" /\
  (is_Some (fonts (ensure_font (P := Sample.platform) (N := flaky_network)
                     "cache" "d.otf" "https://fonts.example/d.otf"
                     Sample.world_ab).1 !! "cache/d.otf"%string) \/
   is_Some (texts (ensure_font (P := Sample.platform) (N := flaky_network)
                     "cache" "d.otf" "https://fonts.example/d.otf"
                     Sample.world_ab).1 !! "cache/d.otf"%string)) /\
  forall (N' : Network) (url' : string),
    ensure_font (P := Sample.platform) (N := N') "cache" "d.otf" url'
      (ensure_font (P := Sample.platform) (N := flaky_network)
         "cache" "d.otf" "https://fonts.example/d.otf" Sample.world_ab).1
    = ((ensure_font (P := Sample.platform) (N := flaky_network)
          "cache" "d.otf" "https://fonts.example/d.otf" Sample.world_ab).1,
       Ok "cache/d.otf"%string).
Proof.
  apply (ensure_font_caches (P := Sample.platform) (N := flaky_network)
           "cache" "d.otf" "https://fonts.example/d.otf" Sample.world_ab).
  refine (eq_trans (surjective_pairing _) _). f_equal.
Defined.


(** A network whose first answer is refused and whose second is broken
    off with an exception the retry loop does not catch. *)
Definition broken_network : Network :=
  {| url_type := Sample.scheme_of "";
     fetch := fun _ attempt =>
       if Nat.even attempt then Broken "IncompleteRead" else Refused |}.

(** X11 for a font that is not in the cache: the empty URL, which is the
    default of a script entry, is refused before any attempt; a URL that
    the network refuses three times ends in [RuntimeError]; and the error
    of a broken second attempt comes through as it is. *)
Lemma ensure_font_gives_up_witness :
  ensure_font (P := Sample.platform) (N := Sample.network)
    "cache" "d.otf" "" Sample.world_ab
  = (Sample.world_ab, Raise (ValueError (unknown_url_type ""))) /\
  ensure_font (P := Sample.platform) (N := Sample.network)
    "cache" "d.otf" "https://fonts.example/d.otf" Sample.world_ab
  = (Sample.world_ab,
     Raise (RuntimeError (download_failed "https://fonts.example/d.otf"))) /\
  ensure_font (P := Sample.platform) (N := broken_network)
    "cache" "d.otf" "https://fonts.example/d.otf" Sample.world_ab
  = (Sample.world_ab, Raise (LibraryError "IncompleteRead")).
Proof.
  destruct (ensure_font_gives_up (P := Sample.platform) (N := Sample.network)
              "cache" "d.otf" "" Sample.world_ab) as [_ Hempty].
  destruct (ensure_font_gives_up (P := Sample.platform) (N := Sample.network)
              "cache" "d.otf" "https://fonts.example/d.otf" Sample.world_ab)
    as [_ Hrefused].
  destruct (ensure_font_gives_up (P := Sample.platform) (N := broken_network)
              "cache" "d.otf" "https://fonts.example/d.otf" Sample.world_ab)
    as [Hbroken _].
  split; [|split].
  - by apply Hempty.
  - apply Hrefused; try reflexivity. by eexists.
  - destruct (ensure_font (P := Sample.platform) (N := broken_network)
                "cache" "d.otf" "https://fonts.example/d.otf" Sample.world_ab)
      as [w' [p|e]] eqn:Hrun; [by vm_compute in Hrun|].
    destruct (Hbroken w' e eq_refl)
      as (-> & _ & _ & [[Hnone _]|[(_ & -> & _ & Hsecond & _)
                                  |(_ & k & what & Hk & Hfail & -> & _)]]).
    + by vm_compute in Hnone.
    + by vm_compute in Hsecond.
    + f_equal. f_equal.
      assert (k = 1 \/ k = 2 \/ k = 3)%nat as [->|[->| ->]] by lia;
        vm_compute in Hfail; congruence.
Defined.


(** ** pipeline.py: resolving the code points of a script *)

Section Resolve.
Context {U : UnicodeData} {P : Platform}.

(** Where [_resolve_codepoints] looks for the charset file [cf]. *)
Definition charset_path (config : BuildConfig) (cf : string) : string :=
  if is_absolute cf then cf
  else path_join (path_parent (cache_dir config)) cf.

(** X12. For a script with a charset file, [_resolve_codepoints] reads
    the file at the path itself when it is absolute, and otherwise beside
    the cache directory; when the file loads and the ranges parse, the
    result is the strictly increasing list of the code points of either,
    and nothing is written. *)
Theorem resolve_codepoints_union (script : ScriptEntry) (config : BuildConfig)
  (w : World) (cf : string) (text : pystr) (a b : list Z) :
  charset_file script = Some cf ->
  cf <> ""%string ->
  texts w !! charset_path config cf = Some text ->
  load_charset_text text = Ok a ->
  parse_unicode_ranges (unicode_ranges script) = Ok b ->
  exists cps,
    _resolve_codepoints script config w = (w, Ok cps) /\
    StronglySorted Z.lt cps /\
    forall x, x ∈ cps <-> x ∈ a \/ x ∈ b.
Proof.
  intros Hcf Hne Htext Hload Hparse.
  unfold _resolve_codepoints, load_charset_file. rewrite Hcf.
  destruct (decide (cf = ""%string)); [done|].
  fold (charset_path config cf). unfold_M. rewrite Htext, Hload.
  destruct (unicode_ranges script) as [|r rs] eqn:Hr.
  - eexists. split; [done|]. split; [apply sorted_strictly|].
    intros x. rewrite elem_of_sorted, elem_of_list_to_set.
    cbn in Hparse. injection Hparse as <-.
    split; [by left | intros [?|Hx]; [done | by apply elem_of_nil in Hx]].
  - rewrite Hparse. eexists. split; [done|]. split; [apply sorted_strictly|].
    intros x.
    by rewrite elem_of_sorted, elem_of_union, !elem_of_list_to_set.
Qed.

End Resolve.

(** A script that takes its ideographs from a charset file and its
    punctuation from a range, and a project that has the file. *)
Definition script_cjk : ScriptEntry :=
  {| name := "cjk"; enabled := true; font := "a.otf";
     unicode_ranges := [lit "U+3000-3002"]; url := "";
     charset_file := Some "charsets/cjk.txt"%string; scale := true;
     weights := [] |}.

Definition world_cjk : World :=
  Sample.world_of [("cache/a.otf"%string, Sample.font_ab)]
    [("cache/../charsets/cjk.txt"%string, lit "# common
4E8C
4E00
")].

(** X12 on [script_cjk]. *)
Lemma resolve_codepoints_union_witness :
  exists cps,
    _resolve_codepoints (U := Sample.unicode) (P := Sample.platform)
      script_cjk Sample.config world_cjk = (world_cjk, Ok cps) /\
    StronglySorted Z.lt cps /\
    forall x, x ∈ cps <-> x ∈ [19968; 20108] \/ x ∈ [12288; 12289; 12290].
Proof.
  apply (resolve_codepoints_union (U := Sample.unicode)
           (P := Sample.platform) script_cjk Sample.config world_cjk
           "charsets/cjk.txt" (lit "# common
4E8C
4E00
")).
  - reflexivity.
  - discriminate.
  - reflexivity.
  - vm_compute. reflexivity.
  - vm_compute. reflexivity.
Defined.


(** ** pipeline.py: scaling the subsets *)

Section ScaleFrame.
Context {FT : FontTools}.

Lemma touches_scale_to_target (font_path : string) (target : float) :
  touches (_scale_to_target font_path target) [font_path] (fun _ => True).
Proof.
  intros w w' r. unfold _scale_to_target. unfold_M.
  destruct (fonts w !! font_path) as [font|];
    [|intros [= <- <-]; repeat split; done].
  destruct (table "head" _) as [upm|]; cbn -[Z.leb near_one scale_factor scaled_or_zero scale_cff attr table];
    [|intros [= <- <-]; repeat split; done].
  destruct (table "OS/2" _) as [os2|]; cbn -[Z.leb near_one scale_factor scaled_or_zero scale_cff attr table];
    [|intros [= <- <-]; repeat split; done].
  destruct (attr "sCapHeight" _) as [cap|]; cbn -[Z.leb near_one scale_factor scaled_or_zero scale_cff attr table];
    [|intros [= <- <-]; repeat split; done].
  destruct (cap <=? 0); cbn -[Z.leb near_one scale_factor scaled_or_zero scale_cff attr table]; [intros [= <- <-]; repeat split; done|].
  destruct (scale_factor _ _ _) as [scale|]; cbn -[Z.leb near_one scale_factor scaled_or_zero scale_cff attr table];
    [|intros [= <- <-]; repeat split; done].
  destruct (near_one scale); cbn -[Z.leb near_one scale_factor scaled_or_zero scale_cff attr table]; [intros [= <- <-]; repeat split; done|].
  destruct (scale_cff _ _) as [font'|]; cbn -[Z.leb near_one scale_factor scaled_or_zero scale_cff attr table];
    [|intros [= <- <-]; repeat split; done].
  destruct (attr "sxHeight" _) as [xh|]; cbn -[Z.leb near_one scale_factor scaled_or_zero scale_cff attr table];
    [|intros [= <- <-]; repeat split; done].
  destruct (scaled_or_zero scale xh) as [xh'|]; cbn -[Z.leb near_one scale_factor scaled_or_zero scale_cff attr table];
    [|intros [= <- <-]; repeat split; done].
  destruct (scaled_or_zero scale cap) as [cap'|]; cbn -[Z.leb near_one scale_factor scaled_or_zero scale_cff attr table];
    [|intros [= <- <-]; repeat split; done].
  intros [= <- <-]. repeat split; try done. cbn.
  intros q Hq. apply lookup_insert_ne. intros ->. apply Hq. list_mem.
Qed.

Lemma touches_get_cap_ratio (font_path : string) :
  touches (_get_cap_ratio font_path) [] (fun _ => True).
Proof.
  intros w w' r. unfold _get_cap_ratio. unfold_M.
  destruct (fonts w !! font_path) as [font|];
    [|intros [= <- <-]; repeat split; done].
  destruct (table "head" _) as [upm|]; cbn -[Z.ltb Z.eqb PyFloat.int_truediv attr table];
    [|intros [= <- <-]; repeat split; done].
  destruct (table "OS/2" _) as [os2|]; cbn -[Z.ltb Z.eqb PyFloat.int_truediv attr table];
    [|intros [= <- <-]; repeat split; done].
  destruct (attr "sCapHeight" _) as [cap|]; cbn -[Z.ltb Z.eqb PyFloat.int_truediv attr table];
    [|intros [= <- <-]; repeat split; done].
  destruct (negb _ && _); cbn -[Z.ltb Z.eqb PyFloat.int_truediv attr table]; intros [= <- <-]; repeat split; done.
Qed.

(** The subsets that are to be scaled. *)
Definition to_scale (entries : list (string * bool)) : list string :=
  fst <$> List.filter snd entries.

Lemma touches_scale_entries (target : float) (entries : list (string * bool)) :
  touches (scale_entries target entries) (to_scale entries) (fun _ => True).
Proof.
  induction entries as [|[sp should_scale] entries IH]; cbn [scale_entries].
  - by apply touches_ret.
  - destruct should_scale.
    + change (to_scale ((sp, true) :: entries))
        with ([sp] ++ to_scale entries).
      eapply touches_bind; [apply touches_scale_to_target|].
      intros _ _. exact IH.
    + change (to_scale ((sp, false) :: entries)) with ([] ++ to_scale entries).
      eapply touches_bind; [by apply (touches_ret tt (fun _ => True))|].
      intros _ _. exact IH.
Qed.

(** X13. The scaling step of [build] writes only subsets whose script
    has [scale = true]: whatever its outcome, every other font file, a
    subset with [scale = false] included, is left as it was, and no
    library call is recorded. *)
Theorem scale_subsets_skips (config : BuildConfig)
  (entries : list (string * bool)) (w w' : World) (r : result unit) :
  scale_subsets config entries w = (w', r) ->
  trace w' = trace w /\
  forall q, (q, true) ∉ entries -> fonts w' !! q = fonts w !! q.
Proof.
  intros Hrun.
  assert (Ht : touches (scale_subsets config entries) (to_scale entries)
                 (fun _ => True)).
  { unfold scale_subsets.
    eapply touches_weaken;
      [ eapply (touches_bind _ _ [] (to_scale entries) (fun _ => True)) | done | done ].
    - destruct (PrimFloat.leb _ _).
      + destruct entries as [|[p ?] ?]; [apply touches_raise|].
        apply touches_get_cap_ratio.
      + by apply touches_ret.
    - intros target _. destruct (PrimFloat.ltb _ _).
      + apply touches_scale_entries.
      + eapply touches_weaken;
          [by apply (touches_ret tt (fun _ => True)) | | done].
        intros q Hq. by apply elem_of_nil in Hq. }
  destruct (Ht w w' r Hrun) as (Htr & _ & _ & Hf & _). split; [done|].
  intros q Hq. apply Hf. unfold to_scale. intros Hin.
  apply list_elem_of_fmap in Hin as ([q' b] & -> & Hin).
  apply list_elem_of_In, filter_In in Hin as [Hin Hb]. cbn in Hb. subst b.
  apply Hq. by apply list_elem_of_In.
Qed.

(** X14. For a font without a CFF table, [_scale_to_target] changes
    nothing but the [sxHeight] and [sCapHeight] fields of the OS/2 table:
    the glyph order, the advance widths, the [head], [hhea] and [cmap]
    tables and every untyped table (the [glyf] outlines among them) are
    those of the source, whatever the scale. *)
Theorem scale_to_target_truetype (font_path : string) (target : float)
  (w w' : World) (font : TTFont) (r : result unit) :
  fonts w !! font_path = Some font ->
  cff font = None ->
  _scale_to_target font_path target w = (w', r) ->
  exists font',
    fonts w' !! font_path = Some font' /\
    glyphOrder font' = glyphOrder font /\
    hmtx_metrics font' = hmtx_metrics font /\
    head_unitsPerEm font' = head_unitsPerEm font /\
    hhea font' = hhea font /\
    cmap_tables font' = cmap_tables font /\
    gsub font' = gsub font /\
    other_tables font' = other_tables font /\
    cff font' = None /\
    (forall o o', os2 font = Some o -> os2 font' = Some o' ->
       sTypoAscender o' = sTypoAscender o /\
       sTypoDescender o' = sTypoDescender o /\
       sTypoLineGap o' = sTypoLineGap o /\
       usWinAscent o' = usWinAscent o /\
       usWinDescent o' = usWinDescent o).
Proof.
  intros Hp Hcff. unfold _scale_to_target, scale_cff. unfold_M.
  rewrite Hp, Hcff.
  assert (Hsame : exists font',
            fonts w !! font_path = Some font' /\
            glyphOrder font' = glyphOrder font /\
            hmtx_metrics font' = hmtx_metrics font /\
            head_unitsPerEm font' = head_unitsPerEm font /\
            hhea font' = hhea font /\
            cmap_tables font' = cmap_tables font /\
            gsub font' = gsub font /\
            other_tables font' = other_tables font /\
            cff font' = None /\
            (forall o o', os2 font = Some o -> os2 font' = Some o' ->
               sTypoAscender o' = sTypoAscender o /\
               sTypoDescender o' = sTypoDescender o /\
               sTypoLineGap o' = sTypoLineGap o /\
               usWinAscent o' = usWinAscent o /\
               usWinDescent o' = usWinDescent o)).
  { exists font. repeat split; try done; intros; congruence. }
  destruct (table "head" _) as [upm|]; cbn -[Z.leb near_one scale_factor scaled_or_zero scale_cff attr]; [|by intros [= <- <-]].
  destruct (os2 font) as [o|] eqn:Ho; cbn -[Z.leb near_one scale_factor scaled_or_zero scale_cff attr]; [|by intros [= <- <-]].
  destruct (attr "sCapHeight" _) as [cap|]; cbn -[Z.leb near_one scale_factor scaled_or_zero scale_cff attr]; [|by intros [= <- <-]].
  destruct (cap <=? 0); cbn -[Z.leb near_one scale_factor scaled_or_zero scale_cff attr]; [by intros [= <- <-]|].
  destruct (scale_factor _ _ _) as [scale|]; cbn -[Z.leb near_one scale_factor scaled_or_zero scale_cff attr]; [|by intros [= <- <-]].
  destruct (near_one scale); cbn -[Z.leb near_one scale_factor scaled_or_zero scale_cff attr]; [by intros [= <- <-]|].
  destruct (attr "sxHeight" _) as [xh|]; cbn -[Z.leb near_one scale_factor scaled_or_zero scale_cff attr]; [|by intros [= <- <-]].
  destruct (scaled_or_zero scale xh) as [xh'|]; cbn -[Z.leb near_one scale_factor scaled_or_zero scale_cff attr]; [|by intros [= <- <-]].
  destruct (scaled_or_zero scale cap) as [cap'|]; cbn -[Z.leb near_one scale_factor scaled_or_zero scale_cff attr]; [|by intros [= <- <-]].
  intros [= <- <-]. cbn. rewrite lookup_insert_eq. eexists. split; [done|].
  cbn. repeat split; try done; intros; by simplify_eq/=.
Qed.

End ScaleFrame.

(** X13 on the two sample fonts, the second with [scale = false]. *)
Lemma scale_subsets_skips_witness :
  trace (scale_subsets (FT := Sample.fonttools) Sample.config
           [("cache/a.otf"%string, true); ("cache/b.ttf"%string, false)]
           Sample.world_ab).1 = trace Sample.world_ab /\
  forall q,
    (q, true) ∉ [("cache/a.otf"%string, true); ("cache/b.ttf"%string, false)] ->
    fonts (scale_subsets (FT := Sample.fonttools) Sample.config
             [("cache/a.otf"%string, true); ("cache/b.ttf"%string, false)]
             Sample.world_ab).1 !! q
    = fonts Sample.world_ab !! q.
Proof.
  apply (scale_subsets_skips (FT := Sample.fonttools) Sample.config
           [("cache/a.otf"%string, true); ("cache/b.ttf"%string, false)]
           Sample.world_ab _ _ (surjective_pairing _)).
Defined.

(** X14 on [font_bc], whose cap height is 1400 at 2048 units per em,
    scaled to a cap-height ratio of 0.75. *)
Lemma scale_to_target_truetype_witness :
  exists font',
    fonts (_scale_to_target (FT := Sample.fonttools) "cache/b.ttf"
             0x1.8p-1%float Sample.world_ab).1 !! "cache/b.ttf"%string
    = Some font' /\
    glyphOrder font' = glyphOrder Sample.font_bc /\
    hmtx_metrics font' = hmtx_metrics Sample.font_bc /\
    head_unitsPerEm font' = head_unitsPerEm Sample.font_bc /\
    hhea font' = hhea Sample.font_bc /\
    cmap_tables font' = cmap_tables Sample.font_bc /\
    gsub font' = gsub Sample.font_bc /\
    other_tables font' = other_tables Sample.font_bc /\
    cff font' = None /\
    (forall o o', os2 Sample.font_bc = Some o -> os2 font' = Some o' ->
       sTypoAscender o' = sTypoAscender o /\
       sTypoDescender o' = sTypoDescender o /\
       sTypoLineGap o' = sTypoLineGap o /\
       usWinAscent o' = usWinAscent o /\
       usWinDescent o' = usWinDescent o).
Proof.
  apply (scale_to_target_truetype (FT := Sample.fonttools) "cache/b.ttf"
           0x1.8p-1%float Sample.world_ab _ Sample.font_bc _
           eq_refl eq_refl (surjective_pairing _)).
Defined.

(** The same call, run: the cap height becomes 1536, the x-height 549,
    and the advance widths stay at 600. *)
Example scale_to_target_truetype_run :
  (fun f => (sCapHeight <$> os2 f, sxHeight <$> os2 f, hmtx_metrics f))
  <$> fonts (_scale_to_target (FT := Sample.fonttools) "cache/b.ttf"
               0x1.8p-1%float Sample.world_ab).1 !! "cache/b.ttf"%string
  = Some (Some (Some 1536), Some (Some 549),
          Some [("B"%string, (600, 50)); ("C"%string, (600, 50))]).
Proof. vm_compute. reflexivity. Qed.


(** ** pipeline.py: the subsetting loop of build *)

Section SubsetLoop.
Context {U : UnicodeData} {FT : FontTools} {P : Platform}.

(** The subset file of a script in the work directory. *)
Definition subset_path (work_dir : string) (script : ScriptEntry) : string :=
  path_join work_dir ("subset_" ++ name script ++ ".otf")%string.

(** X15. In the subsetting loop a [ValueError] is skipped only when it
    comes from the subsetting itself: a script none of whose code points
    is in its font is skipped, the loop state and every file unchanged;
    an error in resolving the script's code points (a malformed range,
    say) is not caught and ends the loop. *)
Theorem subset_script_skips_or_aborts (config : BuildConfig)
  (font_paths : gmap string string) (work_dir : string) (st : subsets)
  (script : ScriptEntry) (w : World) (src : string) :
  font_paths !! name script = Some src ->
  (forall e, _resolve_codepoints script config w = (w, Raise e) ->
     subset_script config font_paths work_dir st script w = (w, Raise e)) /\
  (forall resolved font best,
     _resolve_codepoints script config w = (w, Ok resolved) ->
     not_covered (covered_cps st) resolved <> [] ->
     fonts w !! src = Some font ->
     getBestCmap font = Ok best ->
     (forall cp, cp ∈ not_covered (covered_cps st) resolved ->
                 default ∅ best !! cp = None) ->
     subset_script config font_paths work_dir st script w = (w, Ok st)).
Proof.
  intros Hsrc. split.
  - intros e Hres. unfold subset_script.
    unfold mbind at 1, M_bind at 1, lift at 1. rewrite Hsrc.
    unfold mbind at 1, M_bind at 1. by rewrite Hres.
  - intros resolved font best Hres Hne Hfont Hbest Hnone.
    unfold subset_script.
    unfold mbind at 1, M_bind at 1, lift at 1. rewrite Hsrc.
    unfold mbind at 1, M_bind at 1. rewrite Hres.
    destruct (not_covered _ resolved) as [|cp0 req] eqn:Hreq; [done|].
    apply present_in_nil in Hnone.
    unfold subset_font. unfold_M. rewrite Hfont, Hbest.
    cbn -[present_in]. by rewrite Hnone.
Qed.

Lemma subset_script_entries (config : BuildConfig)
  (font_paths : gmap string string) (work_dir : string) (st st' : subsets)
  (script : ScriptEntry) (w w' : World) :
  subset_script config font_paths work_dir st script w = (w', Ok st') ->
  (forall q, is_Some (fonts w !! q) -> is_Some (fonts w' !! q)) /\
  (subset_entries st' = subset_entries st \/
   (subset_entries st'
    = subset_entries st ++ [(subset_path work_dir script, scale script)] /\
    is_Some (fonts w' !! subset_path work_dir script))).
Proof.
  intros Hrun.
  pose proof (resolve_codepoints_pure script config w) as Hpure.
  unfold subset_script in Hrun. fold (subset_path work_dir script) in Hrun.
  unfold mbind at 1, M_bind at 1, lift at 1 in Hrun.
  destruct (font_paths !! name script) as [src|]; [|done].
  unfold mbind at 1, M_bind at 1 in Hrun.
  destruct (_resolve_codepoints script config w) as [w0 [resolved|e]] eqn:Hres;
    cbn in Hpure; subst w0; [|done].
  destruct (not_covered _ resolved) as [|cp0 req'] eqn:Hreq.
  { injection Hrun as <- <-. split; [done | by left]. }
  unfold subset_font in Hrun. unfold_M.
  destruct (fonts w !! src) as [font|]; cbn -[present_in getBestCmap] in Hrun;
    [|done].
  destruct (getBestCmap font) as [best|e]; cbn -[present_in getBestCmap] in Hrun;
    [|destruct e; cbn -[present_in getBestCmap] in Hrun; try done;
      injection Hrun as <- <-; split; [done | by left]].
  destruct (present_in _ _); cbn -[present_in getBestCmap] in Hrun.
  { injection Hrun as <- <-. split; [done | by left]. }
  rewrite lookup_insert_eq in Hrun. cbn -[present_in getBestCmap] in Hrun.
  assert (Hgrow : forall q, is_Some (fonts w !! q) ->
            is_Some (<[subset_path work_dir script :=
                        ft_subset (cp0 :: req') font]> (fonts w) !! q)).
  { intros q Hq. destruct (decide (q = subset_path work_dir script)) as [->|];
      [rewrite lookup_insert_eq; by eexists | by rewrite lookup_insert_ne]. }
  destruct (getBestCmap (ft_subset (cp0 :: req') font)) as [[cmap|]|e];
    cbn -[present_in getBestCmap] in Hrun; [ | | destruct e ];
    try done; injection Hrun as <- <-; (split; [exact Hgrow|]).
  - right. split; [done|]. cbn. rewrite lookup_insert_eq. by eexists.
  - by left.
Qed.

Lemma subset_loop_entries (config : BuildConfig)
  (font_paths : gmap string string) (work_dir : string) (st st' : subsets)
  (enabled : list ScriptEntry) (w w' : World) :
  subset_loop config font_paths work_dir st enabled w = (w', Ok st') ->
  (forall q, is_Some (fonts w !! q) -> is_Some (fonts w' !! q)) /\
  exists kept,
    kept `sublist_of` enabled /\
    subset_entries st'
    = subset_entries st
      ++ ((fun s => (subset_path work_dir s, scale s)) <$> kept) /\
    Forall (fun s => is_Some (fonts w' !! subset_path work_dir s)) kept.
Proof.
  revert st w. induction enabled as [|script rest IH]; intros st w;
    cbn [subset_loop].
  - intros [= <- <-]. split; [done|]. exists []. split; [done|].
    split; [by rewrite app_nil_r | constructor].
  - unfold mbind at 1, M_bind at 1.
    destruct (subset_script _ _ _ st script w) as [w1 [st1|e]] eqn:Hstep;
      [|done].
    intros Hrest.
    destruct (subset_script_entries _ _ _ _ _ _ _ _ Hstep) as [Hgrow Hone].
    destruct (IH _ _ Hrest) as (Hgrow' & kept & Hsub & Hent & Hex).
    split; [intros q Hq; by apply Hgrow', Hgrow|].
    destruct Hone as [Hsame | [Hadd Hthere]].
    + exists kept. split; [by apply sublist_cons|]. split; [congruence | done].
    + exists (script :: kept). split; [by apply sublist_skip|].
      split; [|constructor; [by apply Hgrow' | done]].
      rewrite Hent, Hadd. by rewrite <- app_assoc.
Qed.

(** X16. When steps 1 and 2 of [build] end normally, the subset entries
    handed to the scaling and merging steps are not empty; they are, in
    the order of the configuration, the files [subset_<name>.otf] in one
    work directory for some of the enabled scripts (those not skipped),
    each with the [scale] flag of its script, and each file exists. *)
Theorem build_subsets_entries {N : Network} (config : BuildConfig)
  (w w' : World) (entries : list (string * bool)) :
  build_subsets config w = (w', Ok entries) ->
  entries <> [] /\
  exists work_dir kept,
    kept `sublist_of` List.filter Config.enabled (scripts config) /\
    entries = (fun s => (subset_path work_dir s, scale s)) <$> kept /\
    Forall (fun e => is_Some (fonts w' !! e.1)) entries.
Proof.
  unfold build_subsets.
  destruct (List.filter _ _) as [|s0 en] eqn:Hen; [done|].
  unfold mbind at 1, M_bind at 1.
  destruct (download_all _ _ _ w) as [w1 [paths|e]]; [|done].
  unfold mbind at 1, M_bind at 1. unfold mkdtemp at 1.
  unfold mbind at 1, M_bind at 1.
  destruct (subset_loop _ _ _ _ _ _) as [w2 [st|e]] eqn:Hloop; [|done].
  destruct (subset_loop_entries _ _ _ _ _ _ _ _ Hloop)
    as (_ & kept & Hsub & Hent & Hex).
  cbn [subset_entries app] in Hent.
  destruct (subset_entries st) as [|e0 es] eqn:Hes; [done|].
  intros [= <- <-]. split; [done|].
  eexists _, kept. split; [exact Hsub|]. split; [exact Hent|].
  rewrite Hent. apply Forall_fmap. exact Hex.
Qed.

End SubsetLoop.

(** A script whose font has none of its code points, and one with a
    malformed range. *)
Definition script_greek : ScriptEntry :=
  {| name := "greek"; enabled := true; font := "a.otf";
     unicode_ranges := [lit "U+0391-03A9"]; url := "";
     charset_file := None; scale := true; weights := [] |}.

Definition script_broken : ScriptEntry :=
  {| name := "broken"; enabled := true; font := "a.otf";
     unicode_ranges := [lit "0391-03A9"]; url := "";
     charset_file := None; scale := true; weights := [] |}.

Definition sample_paths : gmap string string :=
  {[ "greek"%string := "cache/a.otf"%string;
     "broken"%string := "cache/a.otf"%string ]}.

Definition no_subsets : subsets :=
  {| covered_cps := ∅; subset_entries := [] |}.

(** X15 on [script_greek]. *)
Lemma subset_script_skips_or_aborts_witness :
  (forall e,
     _resolve_codepoints (U := Sample.unicode) (P := Sample.platform)
       script_greek Sample.config Sample.world_ab
     = (Sample.world_ab, Raise e) ->
     subset_script (U := Sample.unicode) (FT := Sample.fonttools)
       (P := Sample.platform) Sample.config sample_paths "work" no_subsets
       script_greek Sample.world_ab = (Sample.world_ab, Raise e)) /\
  (forall resolved font best,
     _resolve_codepoints (U := Sample.unicode) (P := Sample.platform)
       script_greek Sample.config Sample.world_ab
     = (Sample.world_ab, Ok resolved) ->
     not_covered (covered_cps no_subsets) resolved <> [] ->
     fonts Sample.world_ab !! "cache/a.otf"%string = Some font ->
     getBestCmap font = Ok best ->
     (forall cp, cp ∈ not_covered (covered_cps no_subsets) resolved ->
                 default ∅ best !! cp = None) ->
     subset_script (U := Sample.unicode) (FT := Sample.fonttools)
       (P := Sample.platform) Sample.config sample_paths "work" no_subsets
       script_greek Sample.world_ab = (Sample.world_ab, Ok no_subsets)).
Proof.
  apply (subset_script_skips_or_aborts (U := Sample.unicode)
           (FT := Sample.fonttools) (P := Sample.platform) Sample.config
           sample_paths "work" no_subsets script_greek Sample.world_ab
           "cache/a.otf").
  reflexivity.
Defined.

(** Both cases, run: the script whose font lacks its code points is
    skipped, the script with the malformed range raises. *)
Example subset_script_runs :
  (subset_script (U := Sample.unicode) (FT := Sample.fonttools)
     (P := Sample.platform) Sample.config sample_paths "work" no_subsets
     script_greek Sample.world_ab).2 = Ok no_subsets /\
  (subset_script (U := Sample.unicode) (FT := Sample.fonttools)
     (P := Sample.platform) Sample.config sample_paths "work" no_subsets
     script_broken Sample.world_ab).2
  = Raise (ValueError (invalid_unicode_range (lit "0391-03A9"))).
Proof. split; vm_compute; reflexivity. Qed.

(** X16 on the sample configuration, both fonts being in the cache. *)
Lemma build_subsets_entries_witness :
  [("/tmp/op_fonts_0/subset_latin.otf"%string, true);
   ("/tmp/op_fonts_0/subset_other.otf"%string, true)] <> [] /\
  exists work_dir kept,
    kept `sublist_of` List.filter Config.enabled (scripts Sample.config) /\
    [("/tmp/op_fonts_0/subset_latin.otf"%string, true);
     ("/tmp/op_fonts_0/subset_other.otf"%string, true)]
    = (fun s => (subset_path (P := Sample.platform) work_dir s, scale s))
      <$> kept /\
    Forall (fun e : string * bool =>
              is_Some (fonts (build_subsets (U := Sample.unicode)
                                (FT := Sample.fonttools)
                                (P := Sample.platform) (N := Sample.network)
                                Sample.config Sample.world_ab).1 !! e.1))
      [("/tmp/op_fonts_0/subset_latin.otf"%string, true);
       ("/tmp/op_fonts_0/subset_other.otf"%string, true)].
Proof.
  apply (build_subsets_entries (U := Sample.unicode) (FT := Sample.fonttools)
           (P := Sample.platform) (N := Sample.network) Sample.config
           Sample.world_ab).
  refine (eq_trans (surjective_pairing _) _). f_equal.
Defined.


(** ** charsets.py: writing a charset file and reading it back *)

Section HexFormat.
Context {U : UnicodeData}.

(** An upper-case hexadecimal digit. *)
Definition is_upper_hex (c : Z) : Prop := 48 <= c <= 57 \/ 65 <= c <= 70.

Lemma upper_hex_is_hex (c : Z) : is_upper_hex c -> is_hex_digit c.
Proof. unfold is_upper_hex, is_hex_digit. lia. Qed.

Lemma hex_digit_upper_spec (d : Z) :
  0 <= d < 16 ->
  is_upper_hex (hex_digit_upper d) /\ hex_digit_value (hex_digit_upper d) = d.
Proof.
  intros Hd. unfold is_upper_hex, hex_digit_upper, hex_digit_value.
  destruct (Z.ltb_spec d 10).
  - destruct (Z.leb_spec (48 + d) 57); lia.
  - destruct (Z.leb_spec (55 + d) 57); [lia|].
    destruct (Z.leb_spec (55 + d) 70); lia.
Qed.

(** The [k] lowest hexadecimal digits of [n], most significant first. *)
Definition hex_digits (n : Z) (k : nat) : pystr :=
  (fun i => hex_digit_upper ((n / 16 ^ Z.of_nat i) mod 16)) <$> rev (seq 0 k).

Lemma hex_digits_S (n : Z) (k : nat) :
  hex_digits n (S k)
  = hex_digit_upper ((n / 16 ^ Z.of_nat k) mod 16) :: hex_digits n k.
Proof. unfold hex_digits. by rewrite seq_S, rev_app_distr. Qed.

Lemma hex_digits_upper (n : Z) (k : nat) : Forall is_upper_hex (hex_digits n k).
Proof.
  induction k as [|k IH]; [constructor|]. rewrite hex_digits_S.
  constructor; [|done]. apply hex_digit_upper_spec.
  apply Z.mod_pos_bound. lia.
Qed.

Lemma hex_digits_fold (n : Z) (k : nat) (acc : Z) :
  0 <= n ->
  fold_left (fun a c => 16 * a + hex_digit_value c) (hex_digits n k) acc
  = acc * 16 ^ Z.of_nat k + n mod 16 ^ Z.of_nat k.
Proof.
  intros Hn. revert acc. induction k as [|k IH]; intros acc.
  - cbn. rewrite Z.mod_1_r. lia.
  - rewrite hex_digits_S. cbn [fold_left]. rewrite IH.
    destruct (hex_digit_upper_spec ((n / 16 ^ Z.of_nat k) mod 16)) as [_ ->];
      [apply Z.mod_pos_bound; lia|].
    rewrite Nat2Z.inj_succ, Z.pow_succ_r by lia.
    assert (Hp : 0 < 16 ^ Z.of_nat k) by (apply Z.pow_pos_nonneg; lia).
    rewrite (Z.mul_comm 16 (16 ^ Z.of_nat k)).
    rewrite (Z.rem_mul_r n (16 ^ Z.of_nat k) 16) by lia.
    lia.
Qed.

Lemma hex_upper_spec (n : Z) :
  0 <= n ->
  hex_upper n <> [] /\ Forall is_upper_hex (hex_upper n) /\
  hex_value (hex_upper n) = n.
Proof.
  intros Hn. unfold hex_upper. fold (hex_digits n (Z.to_nat (Z.log2 n / 4 + 1))).
  assert (Hk : 0 <= Z.log2 n / 4) by (apply Z.div_pos; [apply Z.log2_nonneg | lia]).
  split; [|split].
  - replace (Z.to_nat (Z.log2 n / 4 + 1)) with (S (Z.to_nat (Z.log2 n / 4)))
      by lia.
    by rewrite hex_digits_S.
  - apply hex_digits_upper.
  - unfold hex_value. rewrite hex_digits_fold by done.
    rewrite Z2Nat.id by lia. cbn [Z.mul]. apply Z.mod_small. split; [done|].
    destruct (decide (n = 0)) as [->|Hnz].
    { apply Z.pow_pos_nonneg; lia. }
    assert (Hlog : n < 2 ^ (Z.log2 n + 1)).
    { pose proof (Z.log2_spec n). replace (Z.log2 n + 1) with (Z.succ (Z.log2 n)) by lia. lia. }
    eapply Z.lt_le_trans; [exact Hlog|].
    change 16 with (2 ^ 4). rewrite <- Z.pow_mul_r by lia.
    apply Z.pow_le_mono_r; [lia|].
    pose proof (Z.div_mod (Z.log2 n) 4). pose proof (Z.mod_pos_bound (Z.log2 n) 4).
    lia.
Qed.

Lemma zero_pad_spec (width : nat) (ds : pystr) :
  ds <> [] -> Forall is_upper_hex ds ->
  zero_pad width ds <> [] /\ Forall is_upper_hex (zero_pad width ds) /\
  hex_value (zero_pad width ds) = hex_value ds /\
  (width <= length (zero_pad width ds))%nat.
Proof.
  intros Hne Hds. unfold zero_pad. split; [|split; [|split]].
  - by destruct (replicate _ _), ds.
  - apply Forall_app. split; [|done]. apply Forall_replicate.
    unfold is_upper_hex. lia.
  - unfold hex_value. rewrite fold_left_app. f_equal.
    induction (width - length ds)%nat as [|m IH]; [done|]. cbn. exact IH.
  - rewrite length_app, length_replicate. lia.
Qed.

Lemma upper_hex_number (ds : pystr) :
  ds <> [] -> Forall is_upper_hex ds -> hex_number ds.
Proof.
  intros Hne Hds. split; [done|].
  eapply Forall_impl; [exact Hds|]. apply upper_hex_is_hex.
Qed.

(** [int(s, 16)] on a minus sign followed by hexadecimal digits. *)
Lemma int16_minus_hex (ds : pystr) :
  hex_number ds -> int16 (45 :: ds) = Ok (- hex_value ds).
Proof.
  intros [Hne Hds]. unfold int16, int16_opt.
  rewrite int_transform_ascii.
  2:{ constructor; [lia | by apply hex_digit_ascii]. }
  rewrite (lstrip_by_head int_space 45 ds) by done.
  change (int_sign (45 :: ds)) with (true, ds). cbv beta iota.
  destruct Hds as [|c ds Hc Hds]; [done|].
  assert (Hc' := Hc). unfold is_hex_digit in Hc'.
  assert (Hpre : int_prefix (c :: ds) = c :: ds).
  { unfold int_prefix. destruct ds as [|x r]; [done|].
    inversion Hds as [|?? Hx _]; subst. unfold is_hex_digit in Hx.
    destruct (Z.eqb_spec x 120); [lia|]. destruct (Z.eqb_spec x 88); [lia|].
    by rewrite andb_false_r. }
  rewrite Hpre.
  assert (Hus : startswith [95] (c :: ds) = false).
  { unfold startswith. destruct (Z.eqb_spec 95 c); [lia | done]. }
  rewrite Hus.
  rewrite (scan_digits_hex (c :: ds) 0 false) by by constructor.
  done.
Qed.

(** [int(f"{n:04X}", 16) == n], and what the text looks like. *)
Lemma format_04X_spec (n : Z) :
  int16 (format_04X n) = Ok n /\
  (4 <= length (format_04X n))%nat /\
  Forall (fun c => c = 45 \/ is_upper_hex c) (format_04X n).
Proof.
  unfold format_04X. destruct (Z.ltb_spec n 0) as [Hneg|Hpos].
  - destruct (hex_upper_spec (- n)) as (Hne & Hup & Hval); [lia|].
    destruct (zero_pad_spec 3 _ Hne Hup) as (Hne' & Hup' & Hval' & Hlen).
    split; [|split].
    + rewrite int16_minus_hex by by apply upper_hex_number.
      rewrite Hval', Hval. f_equal. lia.
    + cbn [length]. lia.
    + constructor; [by left|]. eapply Forall_impl; [exact Hup'|]. by right.
  - destruct (hex_upper_spec n Hpos) as (Hne & Hup & Hval).
    destruct (zero_pad_spec 4 _ Hne Hup) as (Hne' & Hup' & Hval' & Hlen).
    split; [|split].
    + rewrite int16_hex_number by by apply upper_hex_number.
      by rewrite Hval', Hval.
    + done.
    + eapply Forall_impl; [exact Hup'|]. by right.
Qed.

End HexFormat.

Section RoundTrip.
Context {U : UnicodeData}.

(** A line of text: neither [\n] nor [\r] occurs in it. *)
Definition one_line (l : pystr) : Prop := Forall (fun c => c <> 10 /\ c <> 13) l.

Lemma universal_newlines_id (s : pystr) :
  Forall (fun c => c <> 13) s -> universal_newlines s = s.
Proof.
  induction 1 as [|c s Hc _ IH]; [done|]. cbn [universal_newlines].
  destruct (Z.eqb_spec c 13); [done|]. by rewrite IH.
Qed.

Lemma lines_from_line (cur l rest : pystr) :
  one_line l ->
  lines_from cur (l ++ 10 :: rest) = (cur ++ l ++ [10]) :: lines_from [] rest.
Proof.
  intros Hl. revert cur. induction Hl as [|c l [Hc _] _ IH]; intros cur.
  - done.
  - cbn [app lines_from]. destruct (Z.eqb_spec c 10); [done|].
    rewrite IH. by rewrite <- app_assoc.
Qed.

(** The text of some lines, each ended by [\n]. *)
Definition unlines (ls : list pystr) : pystr :=
  flat_map (fun l => l ++ [10]) ls.

Lemma file_lines_unlines (ls : list pystr) :
  Forall one_line ls ->
  file_lines (unlines ls) = (fun l => l ++ [10]) <$> ls.
Proof.
  intros Hls. unfold file_lines. rewrite universal_newlines_id.
  2:{ unfold unlines. induction Hls as [|l ls Hl _ IH]; [constructor|].
      cbn [flat_map]. rewrite !Forall_app. split; [split|done].
      - eapply Forall_impl; [exact Hl|]. by intros c [_ ?].
      - by constructor. }
  induction Hls as [|l ls Hl _ IH]; [done|].
  change (unlines (l :: ls)) with ((l ++ [10]) ++ unlines ls).
  rewrite <- app_assoc. cbn [app].
  rewrite lines_from_line by done. cbn [app fmap list_fmap]. by rewrite IH.
Qed.

Lemma rstrip_newline (l : pystr) :
  one_line l -> rstrip [10] (l ++ [10]) = l.
Proof.
  intros Hl. unfold rstrip, rstrip_by. rewrite rev_app_distr. cbn [rev app].
  cbn [lstrip_by]. rewrite bool_decide_eq_true_2 by apply list_elem_of_here.
  match goal with
  | |- context [lstrip_by ?p (rev l)] =>
      assert (Hrev : lstrip_by p (rev l) = rev l)
  end.
  { assert (Hl' : one_line (rev l)) by by apply Forall_rev.
    destruct Hl' as [|c r [Hc _] _]; [done|]. cbn [lstrip_by].
    rewrite bool_decide_eq_false_2; [done|].
    by intros ->%list_elem_of_singleton. }
  rewrite Hrev. apply rev_involutive.
Qed.

Lemma stripped_lines_unlines (ls : list pystr) :
  Forall one_line ls -> stripped_lines (unlines ls) = ls.
Proof.
  intros Hls. unfold stripped_lines. rewrite file_lines_unlines by done.
  rewrite <- list_fmap_compose.
  induction Hls as [|l ls Hl _ IH]; [done|].
  cbn [fmap list_fmap compose]. rewrite rstrip_newline by done. f_equal.
  exact IH.
Qed.

Lemma is_linebreak_line (c : Z) : is_linebreak c = false -> c <> 10 /\ c <> 13.
Proof.
  unfold is_linebreak. intros Hc.
  destruct (Z.leb_spec 10 c), (Z.leb_spec c 13); cbn in Hc; try done; lia.
Qed.

Lemma splitlines_from_lines (cur s : pystr) :
  one_line cur -> Forall one_line (splitlines_from cur s).
Proof.
  remember (length s) as n eqn:Hn. revert s cur Hn.
  induction n as [n IH] using lt_wf_ind. intros s cur -> Hcur.
  destruct s as [|c s]; cbn [splitlines_from].
  - destruct cur; [constructor | by constructor].
  - destruct (is_linebreak c) eqn:Hc.
    + constructor; [done|]. destruct s as [|d s]; [constructor|].
      destruct ((c =? 13) && (d =? 10)).
      * apply (IH (length s)); [cbn; lia | done | constructor].
      * apply (IH (length (d :: s))); [cbn; lia | done | constructor].
    + apply (IH (length s)); [cbn; lia | done|].
      apply Forall_app. split; [done|]. constructor; [|constructor].
      by apply is_linebreak_line.
Qed.

Lemma format_04X_line (n : Z) : one_line (format_04X n).
Proof.
  destruct (format_04X_spec n) as (_ & _ & Hch).
  eapply Forall_impl; [exact Hch|]. unfold is_upper_hex. lia.
Qed.

(** The lines [save_charset_file] writes. *)
Definition charset_lines (codepoints : gset Z) (header : pystr) : list pystr :=
  match header with
  | [] => []
  | _ :: _ => ((fun line => lit "# " ++ line) <$> splitlines header) ++ [[]]
  end
  ++ (format_04X <$> sorted codepoints).

Lemma charset_text_lines (codepoints : gset Z) (header : pystr) :
  charset_text codepoints header = unlines (charset_lines codepoints header).
Proof.
  unfold charset_text, charset_lines, unlines.
  assert (Hcp : forall l : list Z,
            flat_map (fun cp => format_04X cp ++ [10]) l
            = flat_map (fun l => l ++ [10]) (format_04X <$> l)).
  { induction l as [|x l IH]; [done|]. cbn. by rewrite IH. }
  rewrite flat_map_app, <- Hcp. f_equal.
  destruct header as [|c header]; [done|].
  rewrite flat_map_app. cbn [flat_map app]. f_equal.
  induction (splitlines (c :: header)) as [|l ls IH]; [done|].
  cbn [fmap list_fmap flat_map]. rewrite IH. by rewrite <- app_assoc.
Qed.

Lemma charset_lines_lines (codepoints : gset Z) (header : pystr) :
  Forall one_line (charset_lines codepoints header).
Proof.
  unfold charset_lines. apply Forall_app. split.
  - destruct header as [|c header]; [constructor|].
    apply Forall_app. split; [|by repeat constructor].
    apply Forall_fmap.
    eapply Forall_impl; [apply splitlines_from_lines; constructor|].
    intros l Hl. cbn. constructor; [done|]. constructor; [done|]. exact Hl.
  - apply Forall_fmap, Forall_forall. intros cp _. apply format_04X_line.
Qed.

Lemma contributes_format (n x : Z) : contributes (format_04X n) x <-> x = n.
Proof.
  destruct (format_04X_spec n) as (Hint & Hlen & Hch).
  assert (Hopt : int16_opt (format_04X n) = Some n).
  { unfold int16 in Hint. by destruct (int16_opt _); simplify_eq. }
  assert (Hhash : startswith (lit "#") (format_04X n) = false).
  { destruct (format_04X n) as [|c l]; [done|].
    change (lit "#") with [35]. cbn [startswith].
    inversion Hch as [|?? Hc _]; subst. unfold is_upper_hex in Hc.
    destruct (Z.eqb_spec 35 c); [lia | done]. }
  split.
  - intros Hc. clear Hint Hch Hhash.
    destruct Hc as [c _|line v _ _ Hv|c rest _ _ Hv].
    + cbn in Hlen. lia.
    + congruence.
    + congruence.
  - intros ->. apply hexadecimal_line; [lia | done | done].
Qed.

Lemma charset_lines_contribute (codepoints : gset Z) (header : pystr)
  (x : Z) :
  (exists line, line ∈ charset_lines codepoints header /\ contributes line x)
  <-> x ∈ codepoints.
Proof.
  unfold charset_lines. split.
  - intros (line & Hline & Hc).
    apply elem_of_app in Hline as [Hline|Hline].
    + exfalso. destruct header as [|c header];
        [by apply elem_of_nil in Hline|].
      apply elem_of_app in Hline as [Hline|Hline].
      * apply list_elem_of_fmap in Hline as (l & -> & _).
        by apply (contributes_nothing x (32 :: l)) in Hc.
      * apply list_elem_of_singleton in Hline as ->.
        by apply (contributes_nothing x []) in Hc.
    + apply list_elem_of_fmap in Hline as (cp & -> & Hcp).
      apply contributes_format in Hc as ->. by apply elem_of_sorted.
  - intros Hx. exists (format_04X x). split; [|by apply contributes_format].
    apply elem_of_app. right. apply list_elem_of_fmap. exists x.
    split; [done | by apply elem_of_sorted].
Qed.

(** X17. A charset file written by [save_charset_file] reads back: for
    any set of code points (negative numbers included) and any header,
    [load_charset_file] on the file just written returns the code points
    in increasing order, and the header is ignored. *)
Theorem charset_file_round_trip (path : string) (codepoints : gset Z)
  (header : pystr) (w : World) :
  let w' := (save_charset_file path codepoints header w).1 in
  (save_charset_file path codepoints header w).2 = Ok tt /\
  load_charset_file path w' = (w', Ok (sorted codepoints)) /\
  fonts w' = fonts w /\
  forall q, q <> path -> texts w' !! q = texts w !! q.
Proof.
  cbn. split; [done|]. split; [|split; [done|]].
  2:{ intros q Hq. by apply lookup_insert_ne. }
  unfold load_charset_file, read_text, mbind, M_bind. cbn [texts].
  rewrite lookup_insert_eq. unfold lift, load_charset_text.
  destruct (load_lines_contributes ∅
              (file_lines (charset_text codepoints header)))
    as (s & -> & Hin).
  cbn. do 3 f_equal. apply set_eq. intros x. rewrite Hin.
  fold (stripped_lines (charset_text codepoints header)).
  rewrite charset_text_lines, stripped_lines_unlines
    by apply charset_lines_lines.
  rewrite charset_lines_contribute. split; [|by right].
  intros [Hx|?]; [by apply not_elem_of_empty in Hx | done].
Qed.

End RoundTrip.

(** A set with a negative number, written under a two-line header and
    read back. *)
Example charset_file_round_trip_run :
  let w := Sample.world_of [] [] in
  let cps : gset Z := {[ 19968; 65; -65; 1114111 ]} in
  charset_text cps (lit "Unified
common") = lit "# Unified
# common

-041
0041
4E00
10FFFF
" /\
  (load_charset_file (U := Sample.unicode) "charsets/cjk.txt"
     (save_charset_file "charsets/cjk.txt" cps (lit "Unified
common") w).1).2 = Ok [-65; 65; 19968; 1114111].
Proof. split; vm_compute; reflexivity. Qed.


(** ** extract.py *)

Section ReplaceLemmas.
Context {A : Type} `{EqDecision A}.

Lemma replace_from_elem (old new : list A) (skip : nat) (s : list A) (x : A) :
  x ∈ replace_from old new skip s -> x ∈ s \/ x ∈ new.
Proof.
  revert skip. induction s as [|c s IH]; intros skip; cbn [replace_from].
  - by intros ?%elem_of_nil.
  - destruct skip as [|k].
    + destruct (bool_decide _).
      * intros [?|Hx%IH]%elem_of_app; [by right|].
        destruct Hx; [left; by apply list_elem_of_further | by right].
      * intros [-> |Hx%IH]%elem_of_cons; [left; apply list_elem_of_here|].
        destruct Hx; [left; by apply list_elem_of_further | by right].
    + intros Hx%IH.
      destruct Hx; [left; by apply list_elem_of_further | by right].
Qed.

Lemma replace_elem (old new s : list A) (x : A) :
  x ∈ replace old new s -> x ∈ s \/ x ∈ new.
Proof.
  unfold replace. destruct old as [|o old]; [|apply replace_from_elem].
  intros [?|Hx]%elem_of_app; [by right|].
  apply list_elem_of_In, in_flat_map in Hx as (c & Hc & Hx).
  apply list_elem_of_In, elem_of_cons in Hx as [-> |?];
    [left; by apply list_elem_of_In | by right].
Qed.

End ReplaceLemmas.

Section ExtractLemmas.
Context {U : UnicodeData}.

Lemma lstrip_by_elem (p : Z -> bool) (s : pystr) (x : Z) :
  x ∈ lstrip_by p s -> x ∈ s.
Proof.
  induction s as [|c s IH]; [done|]. cbn [lstrip_by].
  destruct (p c); [|done]. intros Hx. by apply list_elem_of_further, IH.
Qed.

Lemma elem_of_rev (s : pystr) (x : Z) : x ∈ rev s <-> x ∈ s.
Proof. rewrite !list_elem_of_In. symmetry. apply in_rev. Qed.

Lemma strip_elem (s : pystr) (x : Z) : x ∈ strip s -> x ∈ s.
Proof.
  unfold strip, rstrip_by. rewrite elem_of_rev. intros Hx%lstrip_by_elem.
  rewrite elem_of_rev in Hx. by apply lstrip_by_elem in Hx.
Qed.

Lemma removelast_elem (s : pystr) (x : Z) : x ∈ removelast s -> x ∈ s.
Proof.
  induction s as [|c s IH]; [done|]. cbn [removelast].
  destruct s as [|d s]; [by intros ?%elem_of_nil|].
  intros [-> |Hx]%elem_of_cons; [apply list_elem_of_here|].
  by apply list_elem_of_further, IH.
Qed.

Lemma drop_elem (n : nat) (s : pystr) (x : Z) : x ∈ drop n s -> x ∈ s.
Proof.
  intros Hx. rewrite <- (take_drop n s). apply elem_of_app. by right.
Qed.

Lemma extract_from_quoted_elem (s : pystr) (out : gset Z) (x : Z) :
  x ∈ _extract_from_quoted s out -> x ∈ out \/ x ∈ s \/ x ∈ [34; 10; 9].
Proof.
  unfold _extract_from_quoted. destruct (_ || _); [by left|].
  intros [?|Hx]%elem_of_union; [by left|]. right.
  apply elem_of_list_to_set in Hx.
  apply replace_elem in Hx as [Hx|Hx];
    [|right; apply list_elem_of_singleton in Hx as ->; list_mem].
  apply replace_elem in Hx as [Hx|Hx];
    [|right; apply list_elem_of_singleton in Hx as ->; list_mem].
  apply replace_elem in Hx as [Hx|Hx];
    [|right; apply list_elem_of_singleton in Hx as ->; list_mem].
  left. unfold slice_1_m1 in Hx.
  by apply removelast_elem, drop_elem, strip_elem in Hx.
Qed.

Lemma msgid_lines_elem (in_msgid : bool) (codepoints : gset Z)
  (lines : list pystr) (x : Z) :
  x ∈ msgid_lines in_msgid codepoints lines ->
  x ∈ codepoints \/ (exists line, line ∈ lines /\ x ∈ line) \/ x ∈ [34; 10; 9].
Proof.
  revert in_msgid codepoints.
  induction lines as [|line lines IH]; intros in_msgid codepoints;
    cbn [msgid_lines]; [by left|].
  assert (Hrest : forall l, l ∈ lines -> l ∈ line :: lines)
    by (intros l; apply list_elem_of_further).
  assert (Hstep : forall flag s,
            (forall y, y ∈ s -> y ∈ line) ->
            x ∈ msgid_lines flag (_extract_from_quoted s codepoints) lines ->
            x ∈ codepoints \/
            (exists l, l ∈ line :: lines /\ x ∈ l) \/ x ∈ [34; 10; 9]).
  { intros flag s Hs Hx. apply IH in Hx as [Hx|[(l & Hl & Hx)|Hx]].
    - apply extract_from_quoted_elem in Hx as [Hx|[Hx|Hx]]; [by left | | by right; right].
      right; left. exists line. split; [apply list_elem_of_here | by apply Hs].
    - right; left. exists l. split; [by apply Hrest | done].
    - by right; right. }
  assert (Hskip : forall flag,
            x ∈ msgid_lines flag codepoints lines ->
            x ∈ codepoints \/
            (exists l, l ∈ line :: lines /\ x ∈ l) \/ x ∈ [34; 10; 9]).
  { intros flag Hx. apply IH in Hx as [Hx|[(l & Hl & Hx)|Hx]];
      [by left | | by right; right].
    right; left. exists l. split; [by apply Hrest | done]. }
  destruct (startswith (lit "msgid ") line).
  { apply Hstep. intros y. apply drop_elem. }
  destruct (startswith (lit "msgstr ") line); [apply Hskip|].
  destruct (in_msgid && _); [by apply Hstep | apply Hskip].
Qed.

Lemma splitlines_from_elem (cur s l : pystr) (x : Z) :
  l ∈ splitlines_from cur s -> x ∈ l -> x ∈ cur \/ x ∈ s.
Proof.
  remember (length s) as n eqn:Hn. revert s cur Hn.
  induction n as [n IH] using lt_wf_ind. intros s cur -> Hl Hx.
  destruct s as [|c s]; cbn [splitlines_from] in Hl.
  - destruct cur; [by apply elem_of_nil in Hl|].
    apply list_elem_of_singleton in Hl as ->. by left.
  - destruct (is_linebreak c).
    + apply elem_of_cons in Hl as [-> |Hl]; [by left|]. right.
      destruct s as [|d s]; [by apply elem_of_nil in Hl|].
      apply list_elem_of_further.
      destruct ((c =? 13) && (d =? 10)).
      * destruct (IH (length s) ltac:(cbn; lia) s [] eq_refl Hl Hx)
          as [?%elem_of_nil|?]; [done|]. by apply list_elem_of_further.
      * destruct (IH (length (d :: s)) ltac:(cbn; lia) (d :: s) [] eq_refl Hl Hx)
          as [?%elem_of_nil|?]; done.
    + destruct (IH (length s) ltac:(cbn; lia) s (cur ++ [c]) eq_refl Hl Hx)
        as [[?| ->%list_elem_of_singleton]%elem_of_app|?].
      * by left.
      * right. apply list_elem_of_here.
      * right. by apply list_elem_of_further.
Qed.

Lemma msgid_lines_closed (codepoints : gset Z) (lines : list pystr) :
  Forall (fun line => startswith (lit "msgid ") line = false) lines ->
  msgid_lines false codepoints lines = codepoints.
Proof.
  induction 1 as [|line lines Hline _ IH]; [done|]. cbn [msgid_lines].
  rewrite Hline. cbn [andb]. by destruct (startswith (lit "msgstr ") line).
Qed.

(** X18. Every code point [extract_from_pot] extracts from a catalogue
    is outside ASCII and occurs in the text.  Nothing is extracted from a
    text no line of which begins with [msgid ]: quoted lines count only
    when they continue a [msgid] entry. *)
Theorem extract_from_text_non_ascii (text : pystr) :
  (forall cp, cp ∈ extract_from_text text -> 127 < cp /\ cp ∈ text) /\
  (Forall (fun line => startswith (lit "msgid ") line = false)
     (splitlines text) ->
   extract_from_text text = ∅).
Proof.
  unfold extract_from_text. split.
  - intros cp [Hbig Hcp]%elem_of_filter. split; [done|].
    apply msgid_lines_elem in Hcp
      as [Hcp%not_elem_of_empty|[(line & Hline & Hcp)|Hcp]]; [done | |].
    + destruct (splitlines_from_elem [] text line cp Hline Hcp)
        as [?%elem_of_nil|?]; done.
    + exfalso. repeat (apply elem_of_cons in Hcp as [->|Hcp]; [lia|]).
      by apply elem_of_nil in Hcp.
  - intros Hno. rewrite msgid_lines_closed by done.
    apply set_eq. intros x. rewrite elem_of_filter.
    split; [by intros [_ ?%not_elem_of_empty] | by intros ?%not_elem_of_empty].
Qed.

End ExtractLemmas.

(** A catalogue entry with an escaped quote, a continuation line and a
    translation: only the non-ASCII characters of the [msgid] are
    extracted (U+00E9 and U+2026), not those of the [msgstr] (U+0416). *)
Example extract_from_text_run :
  extract_from_text (U := Sample.unicode)
    (lit "msgid " ++ [34; 67; 97; 102; 233; 92; 34; 33; 34; 10]
     ++ [34; 8230; 92; 110; 34; 10]
     ++ lit "msgstr " ++ [34; 1046; 34; 10]
     ++ [34; 1046; 34; 10])
  = {[ 233; 8230 ]}.
Proof. vm_compute. reflexivity. Qed.


(** ** download.py: the download plan *)

Section Plan.
Context {P : Platform} {N : Network}.

(** Something is at the path. *)
Definition file_at (w : World) (p : string) : Prop :=
  is_Some (fonts w !! p) \/ is_Some (texts w !! p).

Lemma ensure_font_grows (cache_dir font_name url : string) (w w' : World)
  (p : string) :
  ensure_font cache_dir font_name url w = (w', Ok p) ->
  p = _cache_path cache_dir font_name /\ file_at w' p /\
  forall q, file_at w q -> file_at w' q.
Proof.
  unfold ensure_font, exists_.
  unfold mbind at 1, M_bind at 1.
  destruct (_ || _) eqn:Hex.
  - intros [= <- <-]. split; [done|]. split; [|done].
    apply orb_true_iff in Hex as [H|H]; apply bool_decide_eq_true in H;
      [by left | by right].
  - unfold mbind at 1, M_bind at 1.
    destruct (_download _ _ _) as [w2 [[]|e]] eqn:Hd; [|done].
    intros [= <- <-].
    destruct (download_outcome _ _ _ _ _ Hd)
      as [(data & _ & ->)|(_ & e & He)]; [|done].
    split; [done|]. unfold file_at. cbn. split.
    + left. rewrite lookup_insert_eq. by eexists.
    + intros q [Hq|Hq]; [|by right]. left.
      destruct (decide (q = _cache_path cache_dir font_name)) as [->|];
        [rewrite lookup_insert_eq; by eexists | by rewrite lookup_insert_ne].
Qed.

Lemma download_all_plan (config : BuildConfig)
  (font_paths paths : gmap string string) (enabled : list ScriptEntry)
  (w w' : World) :
  download_all config font_paths enabled w = (w', Ok paths) ->
  (forall q, file_at w q -> file_at w' q) /\
  Forall (fun s => file_at w' (_cache_path (cache_dir config) (font s)))
    enabled /\
  (forall n, is_Some (font_paths !! n) -> is_Some (paths !! n)) /\
  (forall s, s ∈ enabled -> is_Some (paths !! name s)) /\
  (forall n p, paths !! n = Some p ->
     font_paths !! n = Some p \/
     exists s, s ∈ enabled /\ name s = n /\
               p = _cache_path (cache_dir config) (font s)).
Proof.
  revert font_paths w. induction enabled as [|script rest IH];
    intros font_paths w; cbn [download_all].
  - intros [= <- <-]. split; [done|]. split; [constructor|].
    split; [done|]. split; [by intros s ?%elem_of_nil | by left].
  - unfold mbind at 1, M_bind at 1.
    destruct (ensure_font _ _ _ w) as [w1 [p|e]] eqn:Hens; [|done].
    destruct (ensure_font_grows _ _ _ _ _ _ Hens) as (-> & Hat & Hgrow).
    intros Hrest.
    destruct (IH _ _ Hrest) as (Hgrow' & Hall & Hkeys & Hen & Hval).
    split; [intros q Hq; by apply Hgrow', Hgrow|].
    split; [constructor; [by apply Hgrow' | done]|].
    split; [|split].
    + intros n Hn. apply Hkeys.
      destruct (decide (n = name script)) as [->|];
        [rewrite lookup_insert_eq; by eexists | by rewrite lookup_insert_ne].
    + intros s [-> |Hs]%elem_of_cons; [|by apply Hen].
      apply Hkeys. rewrite lookup_insert_eq. by eexists.
    + intros n p Hp. destruct (Hval n p Hp) as [Hin|(s & Hs & Hn & Hpath)].
      * destruct (decide (n = name script)) as [->|Hne].
        -- rewrite lookup_insert_eq in Hin. injection Hin as <-.
           right. exists script. split; [apply list_elem_of_here | done].
        -- rewrite lookup_insert_ne in Hin by done. by left.
      * right. exists s. split; [by apply list_elem_of_further | done].
Qed.

(** X19. The download plan is what step 1 of [build] carries out: the
    plan lists font, URL and cache path of the enabled scripts, in order;
    when step 1 ends normally a file is at every cache path of the plan,
    every enabled script has its entry in the [font_paths] dict, and every
    path in the dict is a path of the plan. *)
Theorem download_plan_carried_out (config : BuildConfig)
  (paths : gmap string string) (w w' : World) :
  download_all config ∅ (List.filter enabled (scripts config)) w
  = (w', Ok paths) ->
  length (get_download_plan config)
  = length (List.filter enabled (scripts config)) /\
  Forall (fun e : string * string * string => file_at w' e.2)
    (get_download_plan config) /\
  (forall s, s ∈ scripts config -> enabled s = true ->
             is_Some (paths !! name s)) /\
  (forall n p, paths !! n = Some p ->
     exists f u, (f, u, p) ∈ get_download_plan config).
Proof.
  intros Hrun. unfold get_download_plan.
  destruct (download_all_plan _ _ _ _ _ _ Hrun) as (_ & Hall & _ & Hen & Hval).
  split; [by rewrite length_fmap|]. split; [by apply Forall_fmap|].
  split.
  - intros s Hs Hon. apply Hen. apply list_elem_of_In, filter_In.
    split; [by apply list_elem_of_In | done].
  - intros n p Hp. destruct (Hval n p Hp) as [Hin|(s & Hs & _ & ->)];
      [by rewrite lookup_empty in Hin|].
    exists (font s), (url s). apply list_elem_of_fmap. by exists s.
Qed.

End Plan.

(** The [font_paths] dict of the sample configuration. *)
Definition sample_font_paths : gmap string string :=
  <["other"%string := "cache/b.ttf"%string]>
    (<["latin"%string := "cache/a.otf"%string]> ∅).

(** X19 on the sample configuration, with nothing to download. *)
Lemma download_plan_carried_out_witness :
  length (get_download_plan (P := Sample.platform) Sample.config)
  = length (List.filter enabled (scripts Sample.config)) /\
  Forall (fun e : string * string * string =>
            file_at (download_all (P := Sample.platform)
                       (N := Sample.network) Sample.config ∅
                       (List.filter enabled (scripts Sample.config))
                       Sample.world_ab).1 e.2)
    (get_download_plan (P := Sample.platform) Sample.config) /\
  (forall s, s ∈ scripts Sample.config -> enabled s = true ->
     is_Some (sample_font_paths !! name s)) /\
  (forall n p, sample_font_paths !! n = Some p ->
     exists f u,
       (f, u, p) ∈ get_download_plan (P := Sample.platform) Sample.config).
Proof.
  apply (download_plan_carried_out (P := Sample.platform)
           (N := Sample.network) Sample.config sample_font_paths
           Sample.world_ab).
  refine (eq_trans (surjective_pairing _) _). f_equal.
Defined.


(** ** pipeline.py: the weight variants of build_all *)

Section ReplaceSame.
Context {A : Type} `{EqDecision A}.

Lemma replace_from_skip (old new : list A) (skip : nat) (s : list A) :
  replace_from old new skip s = replace_from old new 0 (drop skip s).
Proof.
  revert skip. induction s as [|c s IH]; intros [|k]; try done.
  cbn [replace_from drop]. apply IH.
Qed.

Lemma replace_from_match (o : A) (old new t : list A) :
  replace_from (o :: old) new 0 ((o :: old) ++ t)
  = new ++ replace_from (o :: old) new 0 t.
Proof.
  cbn [app replace_from].
  rewrite bool_decide_eq_true_2 by by exists t.
  f_equal. rewrite replace_from_skip. f_equal.
  replace (length (o :: old) - 1)%nat with (length old) by (cbn; lia).
  apply drop_app_length.
Qed.

Lemma replace_same (old s : list A) : old <> [] -> replace old old s = s.
Proof.
  destruct old as [|o old]; [done|]. intros _. unfold replace.
  remember (length s) as n eqn:Hn. revert s Hn.
  induction n as [n IH] using lt_wf_ind. intros s ->.
  destruct s as [|c s]; [done|].
  destruct (decide ((o :: old) `prefix_of` (c :: s))) as [[t Ht]|Hno].
  - rewrite Ht, replace_from_match. f_equal.
    apply (IH (length t)); [|done]. rewrite Ht, length_app. cbn. lia.
  - cbn [replace_from]. rewrite bool_decide_eq_false_2 by done. f_equal.
    apply (IH (length s)); [cbn; lia | done].
Qed.

End ReplaceSame.

Lemma str_replace_same (old s : string) :
  old <> ""%string -> str_replace old old s = s.
Proof.
  intros Hne. unfold str_replace. rewrite replace_same.
  - apply string_of_list_ascii_of_string.
  - intros Hnil. apply Hne.
    rewrite <- (string_of_list_ascii_of_string old). by rewrite Hnil.
Qed.

Section Weights.
Context {U : UnicodeData} {P : Platform}.

Lemma weight_script_keeps (weight : string) (script : ScriptEntry) :
  name (weight_script weight script) = name script /\
  enabled (weight_script weight script) = enabled script /\
  unicode_ranges (weight_script weight script) = unicode_ranges script /\
  charset_file (weight_script weight script) = charset_file script /\
  scale (weight_script weight script) = scale script.
Proof. unfold weight_script. by destruct (_ || _). Qed.

(** X20. Every weight variant [build_all] builds asks for the same code
    points: the configuration of a weight has the same scripts in the same
    order, each with its name, enabled flag and scale flag, and each
    resolves to the code points it resolves to in the configuration
    itself; only fonts and URLs (and style and output name) differ.  A
    script that lists its weights keeps font and URL for a weight it does
    not list. *)
Theorem weight_config_same_coverage (config : BuildConfig) (weight : string) :
  List.filter enabled (scripts (weight_config config weight))
  = weight_script weight <$> List.filter enabled (scripts config) /\
  (forall script,
     name (weight_script weight script) = name script /\
     scale (weight_script weight script) = scale script /\
     _resolve_codepoints (weight_script weight script)
       (weight_config config weight)
     = _resolve_codepoints script config) /\
  (forall script,
     weights script <> [] -> weight ∉ weights script ->
     weight_script weight script = script).
Proof.
  split; [|split].
  - cbn [weight_config scripts].
    induction (scripts config) as [|s l IH]; [done|].
    cbn [fmap list_fmap List.filter].
    destruct (weight_script_keeps weight s) as (_ & -> & _).
    change (list_fmap _ _ (weight_script weight) l)
      with (weight_script weight <$> l).
    rewrite IH. by destruct (enabled s).
  - intros script.
    destruct (weight_script_keeps weight script) as (Hn & _ & Hr & Hc & Hs).
    split; [done|]. split; [done|].
    unfold _resolve_codepoints. by rewrite Hr, Hc.
  - intros script Hne Hnot. unfold weight_script.
    rewrite (bool_decide_eq_false_2 _ Hne), (bool_decide_eq_false_2 _ Hnot).
    done.
Qed.

(** X21. The weight [Regular] is built from the configured sources:
    replacing [Regular] by itself changes no font name and no URL, so the
    scripts of that variant are the scripts of the configuration; the
    output is [<name>-Regular.otf]. *)
Theorem weight_config_regular (config : BuildConfig) :
  scripts (weight_config config "Regular") = scripts config /\
  style (weight_config config "Regular") = "Regular"%string /\
  output (weight_config config "Regular")
  = (cfg_name config ++ "-Regular.otf")%string.
Proof.
  split; [|done]. cbn [weight_config scripts].
  induction (scripts config) as [|s l IH]; [done|].
  cbn [fmap list_fmap]. f_equal; [|exact IH].
  unfold weight_script. destruct (_ || _); [|done].
  rewrite !str_replace_same by done. by destruct s.
Qed.

End Weights.

(** A script of the Noto family, its [Bold] variant, and a script that
    comes in one weight only. *)
Example weight_script_run :
  let noto :=
    {| name := "latin"; enabled := true; font := "NotoSans-Regular.ttf";
       unicode_ranges := [lit "U+0020-007E"];
       url := "https://fonts.example/NotoSans-Regular.ttf";
       charset_file := None; scale := true; weights := [] |} in
  let emoji :=
    {| name := "emoji"; enabled := true; font := "Emoji-Regular.ttf";
       unicode_ranges := [lit "U+2600-26FF"];
       url := "https://fonts.example/Emoji-Regular.ttf";
       charset_file := None; scale := false;
       weights := ["Regular"%string] |} in
  (font (weight_script "Bold" noto), url (weight_script "Bold" noto))
  = ("NotoSans-Bold.ttf"%string,
     "https://fonts.example/NotoSans-Bold.ttf"%string) /\
  weight_script "Bold" emoji = emoji.
Proof. split; vm_compute; reflexivity. Qed.


(** ** naming.py: the name table rename_font writes *)

Section NameTable.

(** The record [setName] writes. *)
Definition name_record (value : string) (n p e l : Z) : NameRecord :=
  {| nameID := n; name_platformID := p; name_platEncID := e; langID := l;
     name_string := value |}.

Definition has_key (n p e l : Z) (r : NameRecord) : bool :=
  (nameID r =? n) && (name_platformID r =? p)
  && (name_platEncID r =? e) && (langID r =? l).

Lemma has_key_spec (n p e l : Z) (r : NameRecord) :
  has_key n p e l r = true <->
  nameID r = n /\ name_platformID r = p /\ name_platEncID r = e /\ langID r = l.
Proof. unfold has_key. rewrite !andb_true_iff, !Z.eqb_eq. tauto. Qed.

Lemma getName_setName_same (value : string) (n p e l : Z)
  (names : list NameRecord) :
  getName n p e l (setName value n p e l names)
  = Some (name_record value n p e l).
Proof.
  unfold getName. fold (has_key n p e l).
  induction names as [|r names IH]; cbn [setName List.find].
  - fold (name_record value n p e l).
    assert (has_key n p e l (name_record value n p e l) = true) as ->; [|done].
    apply has_key_spec. done.
  - fold (has_key n p e l r). destruct (has_key n p e l r) eqn:Hr.
    + cbn [List.find]. fold (name_record value n p e l).
      assert (has_key n p e l (name_record value n p e l) = true) as ->; [|done].
      apply has_key_spec. done.
    + cbn [List.find]. by rewrite Hr.
Qed.

Lemma getName_setName_other (value : string) (n p e l n' p' e' l' : Z)
  (names : list NameRecord) :
  (n', p', e', l') <> (n, p, e, l) ->
  getName n' p' e' l' (setName value n p e l names)
  = getName n' p' e' l' names.
Proof.
  intros Hne. unfold getName. fold (has_key n' p' e' l').
  assert (Hnew : has_key n' p' e' l' (name_record value n p e l) = false).
  { apply not_true_iff_false. rewrite has_key_spec. cbn.
    intros (-> & -> & -> & ->). done. }
  induction names as [|r names IH]; cbn [setName List.find].
  - fold (name_record value n p e l). by rewrite Hnew.
  - fold (has_key n p e l r). destruct (has_key n p e l r) eqn:Hr.
    + cbn [List.find]. fold (name_record value n p e l). rewrite Hnew.
      assert (has_key n' p' e' l' r = false) as ->; [|done].
      apply not_true_iff_false. rewrite has_key_spec.
      apply has_key_spec in Hr as (H1 & H2 & H3 & H4).
      intros (G1 & G2 & G3 & G4). apply Hne. congruence.
    + cbn [List.find]. by rewrite IH.
Qed.

(** The two records [rename_font] writes for every entry. *)
Definition written (p e l : Z) : Prop :=
  (p, e, l) = (3, 1, 1033) \/ (p, e, l) = (1, 0, 0).

Lemma set_names_other (entries : list (Z * string)) (n p e l : Z)
  (names : list NameRecord) :
  n ∉ entries.*1 \/ ~ written p e l ->
  getName n p e l (set_names entries names) = getName n p e l names.
Proof.
  unfold set_names. revert names.
  induction entries as [|[id v] entries IH]; intros names Hk; [done|].
  cbn [fold_left fst snd]. rewrite IH.
  2:{ destruct Hk as [Hk|Hk]; [left|by right].
      intros Hin. apply Hk. cbn. by apply list_elem_of_further. }
  assert (Hdiff : forall p0 e0 l0, written p0 e0 l0 ->
                    (n, p, e, l) <> (id, p0, e0, l0)).
  { intros p0 e0 l0 Hw [= -> -> -> ->]. destruct Hk as [Hk|Hk]; [|done].
    apply Hk. cbn. apply list_elem_of_here. }
  rewrite !getName_setName_other; [done | apply Hdiff | apply Hdiff].
  - by left.
  - by right.
Qed.

Lemma set_names_sets (entries : list (Z * string)) (id : Z) (v : string)
  (p e l : Z) (names : list NameRecord) :
  NoDup entries.*1 -> (id, v) ∈ entries -> written p e l ->
  getName id p e l (set_names entries names) = Some (name_record v id p e l).
Proof.
  intros Hnd Hin Hw. revert names Hnd Hin.
  induction entries as [|[id' v'] entries IH]; intros names Hnd Hin;
    [by apply elem_of_nil in Hin|].
  apply NoDup_cons in Hnd as [Hfresh Hnd].
  apply elem_of_cons in Hin as [[= <- <-]|Hin].
  - change (set_names ((id, v) :: entries) names)
      with (set_names entries
              (setName v id 1 0 0 (setName v id 3 1 1033 names))).
    rewrite set_names_other by by left.
    destruct Hw as [[= -> -> ->]|[= -> -> ->]].
    + rewrite getName_setName_other by done. apply getName_setName_same.
    + apply getName_setName_same.
  - change (set_names ((id', v') :: entries) names)
      with (set_names entries
              (setName v' id' 1 0 0 (setName v' id' 3 1 1033 names))).
    by apply IH.
Qed.

Lemma name_entries_ids (family_name style_name version copyright
  designer : string) :
  NoDup (name_entries family_name style_name version copyright designer).*1 /\
  forall id, id ∈ (name_entries family_name style_name version copyright
                     designer).*1 ->
    id ∈ [1; 2; 3; 4; 5; 6] \/ (id = 0 /\ copyright <> ""%string)
    \/ (id = 9 /\ designer <> ""%string).
Proof.
  unfold name_entries.
  destruct (decide (copyright = ""%string)), (decide (designer = ""%string));
    cbn; (split; [apply (bool_decide_unpack _); vm_compute; exact I|]);
    intros id Hid;
    repeat (apply elem_of_cons in Hid as [-> |Hid];
            [first [ left; list_mem | right; left; done | right; right; done ]|]);
    by apply elem_of_nil in Hid.
Qed.

Lemma replace_char_removed {A} `{EqDecision A} (x : A) (s : list A) :
  x ∉ replace [x] [] s.
Proof.
  unfold replace. induction s as [|c s IH]; cbn [replace_from];
    [apply not_elem_of_nil|].
  destruct (decide (c = x)) as [-> |Hne].
  - rewrite bool_decide_eq_true_2 by by exists s. exact IH.
  - rewrite bool_decide_eq_false_2.
    + by apply not_elem_of_cons.
    + intros [t Ht]. by injection Ht.
Qed.

(** X22. The name table [rename_font] writes: every entry it makes
    (family 1, style 2, unique id 3, full name 4, version 5, PostScript
    name 6, and copyright 0, designer 9 when given) is afterwards the
    Windows English record and the Macintosh Roman record of its name id,
    whatever the table held; and the PostScript name, [family-style] with
    the spaces removed, contains no space. *)
Theorem rename_names_sets (family_name style_name version copyright
  designer : string) (names : list NameRecord) :
  let ps_name := str_replace " " "" (family_name ++ "-" ++ style_name) in
  let names' :=
    rename_names family_name style_name version copyright designer names in
  (forall id value p e l,
     (id, value)
       ∈ name_entries family_name style_name version copyright designer ->
     written p e l ->
     getName id p e l names' = Some (name_record value id p e l)) /\
  (6, ps_name)
    ∈ name_entries family_name style_name version copyright designer /\
  " "%char ∉ list_ascii_of_string ps_name.
Proof.
  intros ps_name names'. split; [|split].
  - intros id value p e l Hin Hw. apply set_names_sets; [|done|done].
    apply name_entries_ids.
  - unfold name_entries. fold ps_name. apply elem_of_app. left. list_mem.
  - unfold ps_name, str_replace. rewrite list_ascii_of_string_of_list_ascii.
    apply (replace_char_removed " "%char).
Qed.

(** X23. [rename_font] leaves every other record of the name table as
    it is: a record of another platform, encoding or language, and any
    record of a name id it makes no entry for.  So without a copyright
    (or designer) argument the copyright (designer) the font came with
    stays. *)
Theorem rename_names_keeps (family_name style_name version copyright
  designer : string) (names : list NameRecord) (n p e l : Z) :
  ~ written p e l \/
  ((n ∉ [1; 2; 3; 4; 5; 6]) /\
   (n = 0 -> copyright = ""%string) /\ (n = 9 -> designer = ""%string)) ->
  getName n p e l
    (rename_names family_name style_name version copyright designer names)
  = getName n p e l names.
Proof.
  intros Hk. apply set_names_other.
  destruct Hk as [Hk|(Hn & Hc & Hd)]; [by right|]. left.
  intros Hin.
  destruct (proj2 (name_entries_ids family_name style_name version copyright
                     designer) n Hin) as [?|[[-> ?]|[-> ?]]]; auto.
Qed.

End NameTable.

(** A name table with a copyright and a trademark record, renamed
    without a copyright argument. *)
Definition sample_names : list NameRecord :=
  [ name_record "Source Sans" 1 3 1 1033;
    name_record "(c) The Authors" 0 3 1 1033;
    name_record "A trademark" 7 3 1 1033 ].

(** X23 on the copyright record of [sample_names]. *)
Lemma rename_names_keeps_witness :
  getName 0 3 1 1033
    (rename_names "Op Font" "Semi Bold" "1.000" "" "" sample_names)
  = getName 0 3 1 1033 sample_names.
Proof.
  apply (rename_names_keeps "Op Font" "Semi Bold" "1.000" "" ""
           sample_names 0 3 1 1033).
  right. split; [|split; [done | discriminate]].
  apply (bool_decide_unpack _). vm_compute. exact I.
Defined.

(** The same table after the renaming: family and PostScript name are
    set, copyright and trademark are as before. *)
Example rename_names_run :
  (fun n => name_string <$>
              getName n 3 1 1033
                (rename_names "Op Font" "Semi Bold" "1.000" "" ""
                   sample_names)) <$> [1; 6; 3; 0; 7]
  = [Some "Op Font"; Some "OpFont-SemiBold"; Some "1.000;OpFont-SemiBold";
     Some "(c) The Authors"; Some "A trademark"]%string.
Proof. vm_compute. reflexivity. Qed.


(** ** charsets.py: the Unihan mappings *)

Section Unihan.
Context {U : UnicodeData}.

(** What a line of [Unihan_OtherMappings.txt] says: the code point [cp]
    (written [U+XXXX] in the first tab-separated column) has the field
    [field] (second column), which is one of the three locale fields; for
    [kBigFive] the value (third column) begins, white space apart, with a
    four-character Big5 code of Level 1, A440 to C67E. *)
Definition unihan_entry (line field : pystr) (cp : Z) : Prop :=
  line <> [] /\ startswith (lit "#") line = false /\
  exists cp_str value rest,
    split 9 line = cp_str :: field :: value :: rest /\
    field ∈ LOCALE_FIELDS /\
    int16 (drop 2 cp_str) = Ok cp /\
    (field = lit "kBigFive" ->
     exists big5_code,
       int16 (take 4 (strip value)) = Ok big5_code /\
       42048 <= big5_code <= 50814).

(** The code point is in the set of the field. *)
Definition in_field (result : gmap pystr (gset Z)) (field : pystr) (cp : Z)
  : Prop :=
  exists s, result !! field = Some s /\ cp ∈ s.

Lemma unihan_line_step (result result' : gmap pystr (gset Z)) (line : pystr) :
  (forall f, f ∈ LOCALE_FIELDS -> is_Some (result !! f)) ->
  unihan_line result line = Ok result' ->
  dom result' = dom result /\
  forall field cp,
    in_field result' field cp
    <-> in_field result field cp \/ unihan_entry line field cp.
Proof.
  intros Hdom Hrun.
  assert (Hnone : (forall field cp, ~ unihan_entry line field cp) ->
            result' = result ->
            dom result' = dom result /\
            forall field cp,
              in_field result' field cp
              <-> in_field result field cp \/ unihan_entry line field cp).
  { intros Hno ->. split; [done|]. intros field cp.
    split; [by left | intros [?|?%Hno]; done]. }
  unfold unihan_line in Hrun. destruct line as [|c l].
  { injection Hrun as <-. apply Hnone; [|done]. by intros f cp [? _]. }
  destruct (startswith (lit "#") (c :: l)) eqn:Hhash.
  { injection Hrun as <-. apply Hnone; [|done].
    intros f cp (_ & Hh & _). congruence. }
  destruct (split 9 (c :: l)) as [|cp_str [|field [|value rest]]] eqn:Hsplit;
    try (injection Hrun as <-; apply Hnone; [|done];
         intros f cp (_ & _ & a & b & r & Hs & _); congruence).
  destruct (bool_decide (field ∈ LOCALE_FIELDS)) eqn:Hwant.
  2:{ injection Hrun as <-. apply Hnone; [|done].
      intros f cp (_ & _ & a & b & r & Hs & Hf & _).
      rewrite Hsplit in Hs. injection Hs as <- <- <- <-.
      apply bool_decide_eq_false in Hwant. done. }
  apply bool_decide_eq_true in Hwant.
  destruct (int16 (drop 2 cp_str)) as [cp0|e] eqn:Hcp; [|done].
  cbn [mbind result_bind] in Hrun.
  destruct (Hdom field Hwant) as [s Hs]. rewrite Hs in Hrun.
  assert (Hadd : (field = lit "kBigFive" ->
                  exists b, int16 (take 4 (strip value)) = Ok b /\
                            42048 <= b <= 50814) ->
            result' = <[field := s ∪ {[cp0]}]> result ->
            dom result' = dom result /\
            forall f cp,
              in_field result' f cp
              <-> in_field result f cp \/ unihan_entry (c :: l) f cp).
  { intros Hbig ->. split.
    { rewrite dom_insert_L. apply set_eq. intros x.
      rewrite elem_of_union, elem_of_singleton, elem_of_dom.
      split; [intros [-> |?]; [by eexists | done] | by right]. }
    intros f cp. unfold in_field. split.
    - intros (s' & Hs' & Hin).
      destruct (decide (f = field)) as [-> |Hne].
      + rewrite lookup_insert_eq in Hs'. injection Hs' as <-.
        apply elem_of_union in Hin as [Hin|Hin%elem_of_singleton].
        * left. by exists s.
        * subst cp. right. split; [done|]. split; [done|].
          by exists cp_str, value, rest.
      + rewrite lookup_insert_ne in Hs' by done. left. by exists s'.
    - intros [(s' & Hs' & Hin)|(_ & _ & a & b & r & Hsp & _ & Hint & _)].
      + destruct (decide (f = field)) as [-> |Hne].
        * rewrite Hs in Hs'. injection Hs' as <-.
          exists (s ∪ {[cp0]}). rewrite lookup_insert_eq.
          split; [done|]. apply elem_of_union. by left.
        * exists s'. by rewrite lookup_insert_ne.
      + rewrite Hsplit in Hsp. injection Hsp as <- <- <- <-.
        rewrite Hcp in Hint. injection Hint as <-.
        exists (s ∪ {[cp0]}). rewrite lookup_insert_eq.
        split; [done|]. apply elem_of_union. right. by apply elem_of_singleton. }
  assert (Hskip : field = lit "kBigFive" ->
            (forall b, int16 (take 4 (strip value)) = Ok b ->
                       ~ 42048 <= b <= 50814) ->
            result' = result ->
            dom result' = dom result /\
            forall f cp,
              in_field result' f cp
              <-> in_field result f cp \/ unihan_entry (c :: l) f cp).
  { intros Hfield Hbad. apply Hnone.
    intros f cp (_ & _ & a & b & r & Hsp & _ & _ & Hbig).
    rewrite Hsplit in Hsp. injection Hsp as <- <- <- <-.
    destruct (Hbig Hfield) as (b5 & Hb5 & Hrange). by apply (Hbad b5). }
  destruct (bool_decide (field = lit "kBigFive")) eqn:Hfield.
  2:{ apply bool_decide_eq_false in Hfield. injection Hrun as <-.
      by apply Hadd. }
  apply bool_decide_eq_true in Hfield.
  destruct (int16 (take 4 (strip value))) as [b|e] eqn:Hb.
  - destruct (Z.ltb_spec b 42048); cbn [orb] in Hrun.
    { injection Hrun as <-. apply Hskip; [done | | done].
      intros b' [= <-]. lia. }
    destruct (Z.ltb_spec 50814 b).
    { injection Hrun as <-. apply Hskip; [done | | done].
      intros b' [= <-]. lia. }
    injection Hrun as <-. apply Hadd; [|done].
    intros _. exists b. split; [done | lia].
  - unfold int16 in Hb. destruct (int16_opt _); [done|].
    injection Hb as <-. injection Hrun as <-. by apply Hskip.
Qed.

Lemma unihan_lines_steps (result result' : gmap pystr (gset Z))
  (lines : list pystr) :
  (forall f, f ∈ LOCALE_FIELDS -> is_Some (result !! f)) ->
  unihan_lines result lines = Ok result' ->
  dom result' = dom result /\
  forall field cp,
    in_field result' field cp
    <-> in_field result field cp \/
        exists line, line ∈ lines /\ unihan_entry line field cp.
Proof.
  revert result. induction lines as [|line lines IH]; intros result Hdom;
    cbn [unihan_lines].
  - intros [= <-]. split; [done|]. intros field cp.
    split; [by left|]. intros [?|(l & ?%elem_of_nil & _)]; done.
  - destruct (unihan_line result line) as [r1|] eqn:Hone; [|done].
    cbn [mbind result_bind]. intros Hrest.
    destruct (unihan_line_step _ _ _ Hdom Hone) as [Hd1 H1].
    assert (Hdom1 : forall f, f ∈ LOCALE_FIELDS -> is_Some (r1 !! f)).
    { intros f Hf. apply elem_of_dom. rewrite Hd1. by apply elem_of_dom, Hdom. }
    destruct (IH _ Hdom1 Hrest) as [Hd2 H2].
    split; [congruence|]. intros field cp. rewrite H2, H1. split.
    + intros [[?|Hc]|(l & Hl & Hc)]; [by left | right | right].
      * exists line. split; [apply list_elem_of_here | done].
      * exists l. split; [by apply list_elem_of_further | done].
    + intros [?|(l & [-> |Hl]%elem_of_cons & Hc)];
        [by left; left | by left; right | right; by exists l].
Qed.

(** X24. When [_parse_unihan_mappings] returns, the keys of its result
    are the three locale fields [kGB0], [kBigFive] and [kJis0], and a code
    point is in the set of a field exactly when a line of the data gives
    it that field; a [kBigFive] line counts only if its Big5 code reads as
    a number from A440 to C67E (Level 1), and is otherwise passed over
    without an error. *)
Theorem parse_unihan_mappings_fields (data : pystr)
  (result : gmap pystr (gset Z)) :
  _parse_unihan_mappings data = Ok result ->
  dom result = list_to_set LOCALE_FIELDS /\
  forall field cp,
    in_field result field cp
    <-> exists line, line ∈ splitlines data /\ unihan_entry line field cp.
Proof.
  unfold _parse_unihan_mappings. intros Hrun.
  apply unihan_lines_steps in Hrun as [Hdom Hin].
  - split.
    + rewrite Hdom. apply (bool_decide_unpack _). vm_compute. exact I.
    + intros field cp. rewrite Hin. split; [|by right].
      intros [(s & Hs & Hcp)|?]; [|done]. exfalso.
      unfold LOCALE_FIELDS in Hs. cbn in Hs.
      destruct (decide (field = lit "kGB0")) as [-> |?];
        [rewrite lookup_insert_eq in Hs; injection Hs as <-;
         by apply not_elem_of_empty in Hcp|].
      rewrite lookup_insert_ne in Hs by done.
      destruct (decide (field = lit "kBigFive")) as [-> |?];
        [rewrite lookup_insert_eq in Hs; injection Hs as <-;
         by apply not_elem_of_empty in Hcp|].
      rewrite lookup_insert_ne in Hs by done.
      destruct (decide (field = lit "kJis0")) as [-> |?];
        [rewrite lookup_insert_eq in Hs; injection Hs as <-;
         by apply not_elem_of_empty in Hcp|].
      rewrite lookup_insert_ne in Hs by done. by rewrite lookup_empty in Hs.
  - intros f Hf. apply elem_of_dom. apply (elem_of_list_to_set (C := gset pystr)) in Hf.
    revert Hf. generalize f. apply (bool_decide_unpack _). vm_compute. exact I.
Qed.

End Unihan.

(** Four lines of the mappings file: U+4E00 in GB 2312 and in Big5
    Level 1, U+4E0F in Big5 Level 2, and a field that is not wanted. *)
Definition sample_unihan : pystr :=
  lit "# Unihan_OtherMappings.txt" ++ [10]
  ++ lit "U+4E00" ++ [9] ++ lit "kGB0" ++ [9] ++ lit "5027" ++ [10]
  ++ lit "U+4E00" ++ [9] ++ lit "kBigFive" ++ [9] ++ lit "A440" ++ [10]
  ++ lit "U+4E0F" ++ [9] ++ lit "kBigFive" ++ [9] ++ lit "C945" ++ [10]
  ++ lit "U+4E00" ++ [9] ++ lit "kCCCII" ++ [9] ++ lit "213021" ++ [10].

Definition sample_unihan_result : gmap pystr (gset Z) :=
  <[lit "kBigFive" := {[ 19968 ]}]>
    (<[lit "kGB0" := {[ 19968 ]}]>
       (list_to_map ((fun f => (f, ∅)) <$> LOCALE_FIELDS))).

(** X24 on [sample_unihan]. *)
Lemma parse_unihan_mappings_fields_witness :
  dom sample_unihan_result = list_to_set LOCALE_FIELDS /\
  forall field cp,
    in_field sample_unihan_result field cp
    <-> exists line,
          line ∈ splitlines sample_unihan /\
          unihan_entry (U := Sample.unicode) line field cp.
Proof.
  apply (parse_unihan_mappings_fields (U := Sample.unicode) sample_unihan
           sample_unihan_result).
  vm_compute. reflexivity.
Defined.


(** ** pipeline.py: subsetter calls and subset entries *)

Section Calls.
Context {U : UnicodeData} {FT : FontTools} {P : Platform}.

Lemma parse_unicode_ranges_raises (ranges : list pystr) (e : exn) :
  parse_unicode_ranges ranges = Raise e -> exists v, e = ValueError v.
Proof.
  unfold parse_unicode_ranges. generalize (∅ : gset Z).
  induction ranges as [|r ranges IH]; intros acc; cbn [parse_loop]; [done|].
  destruct (parse_one acc r) as [acc'|e1] eqn:Hone; cbn.
  - apply IH.
  - intros [= <-]. by eapply parse_one_raises.
Qed.

Lemma resolve_codepoints_raises (script : ScriptEntry) (config : BuildConfig)
  (w w' : World) (e : exn) :
  _resolve_codepoints script config w = (w', Raise e) ->
  forall re, e <> RuntimeError re.
Proof.
  unfold _resolve_codepoints, load_charset_file.
  assert (Hparse : forall w0,
            lift (parse_unicode_ranges (unicode_ranges script)) w0
            = (w', Raise e) -> forall re, e <> RuntimeError re).
  { unfold lift. intros w0 [= _ Hr] re ->.
    by apply parse_unicode_ranges_raises in Hr as [v ?]. }
  destruct (charset_file script) as [cf|]; [|apply Hparse].
  destruct (decide (cf = ""%string)); [apply Hparse|].
  unfold_M. destruct (texts w !! _) as [text|]; [|by intros [= _ <-]].
  unfold load_charset_text.
  destruct (load_lines_contributes ∅ (file_lines text)) as (s & -> & _). cbn.
  destruct (unicode_ranges script) as [|r rs]; [done|].
  destruct (parse_unicode_ranges (r :: rs)) as [l|e1] eqn:Hr; cbn; [done|].
  intros [= _ <-] re ->. by apply parse_unicode_ranges_raises in Hr as [v ?].
Qed.

Lemma subset_script_outcome (config : BuildConfig)
  (font_paths : gmap string string) (work_dir : string) (st : subsets)
  (script : ScriptEntry) (w w' : World) (r : result subsets) :
  subset_script config font_paths work_dir st script w = (w', r) ->
  match r with
  | Ok st' =>
      (subset_entries st' = subset_entries st /\ trace w' = trace w) \/
      (exists entry e,
         subset_entries st' = subset_entries st ++ [entry] /\
         trace w' = trace w ++ [e])
  | Raise e => forall re, e <> RuntimeError re
  end.
Proof.
  intros Hrun.
  pose proof (resolve_codepoints_pure script config w) as Hpure.
  unfold subset_script in Hrun.
  unfold mbind at 1, M_bind at 1, lift at 1 in Hrun.
  destruct (font_paths !! name script) as [src|];
    [|by injection Hrun as <- <-].
  unfold mbind at 1, M_bind at 1 in Hrun.
  destruct (_resolve_codepoints script config w) as [w0 [resolved|e]] eqn:Hres;
    cbn in Hpure; subst w0.
  2:{ injection Hrun as <- <-. by eapply resolve_codepoints_raises. }
  destruct (not_covered _ resolved) as [|cp0 req'] eqn:Hreq.
  { injection Hrun as <- <-. by left. }
  unfold subset_font in Hrun. unfold_M.
  destruct (fonts w !! src) as [font|]; cbn -[present_in getBestCmap] in Hrun;
    [|by injection Hrun as <- <-].
  destruct (getBestCmap font) as [best|e] eqn:Hbest;
    cbn -[present_in getBestCmap] in Hrun.
  2:{ apply getBestCmap_raises in Hbest as ->.
      cbn -[present_in getBestCmap] in Hrun. by injection Hrun as <- <-. }
  destruct (present_in _ _); cbn -[present_in getBestCmap] in Hrun.
  { injection Hrun as <- <-. by left. }
  rewrite lookup_insert_eq in Hrun. cbn -[present_in getBestCmap] in Hrun.
  destruct (getBestCmap (ft_subset (cp0 :: req') font)) as [[cmap|]|e]
    eqn:Hbest'; cbn -[present_in getBestCmap] in Hrun.
  - injection Hrun as <- <-. right. by eexists _, _.
  - by injection Hrun as <- <-.
  - apply getBestCmap_raises in Hbest' as ->.
    cbn -[present_in getBestCmap] in Hrun. by injection Hrun as <- <-.
Qed.

Lemma subset_loop_calls (config : BuildConfig)
  (font_paths : gmap string string) (work_dir : string) (st : subsets)
  (enabled : list ScriptEntry) (w w' : World) (r : result subsets) :
  subset_loop config font_paths work_dir st enabled w = (w', r) ->
  match r with
  | Ok st' =>
      exists evs,
        trace w' = trace w ++ evs /\
        length (subset_entries st')
        = (length (subset_entries st) + length evs)%nat
  | Raise e => forall re, e <> RuntimeError re
  end.
Proof.
  revert st w. induction enabled as [|script rest IH]; intros st w;
    cbn [subset_loop].
  - intros [= <- <-]. exists []. by rewrite app_nil_r, Nat.add_0_r.
  - unfold mbind at 1, M_bind at 1.
    destruct (subset_script _ _ _ st script w) as [w1 [st1|e]] eqn:Hstep.
    2:{ intros [= <- <-].
        exact (subset_script_outcome _ _ _ _ _ _ _ _ Hstep). }
    intros Hrest. specialize (IH _ _ Hrest).
    pose proof (subset_script_outcome _ _ _ _ _ _ _ _ Hstep) as Hone.
    cbv beta iota in Hone.
    destruct r as [st'|e]; [|done].
    destruct IH as (evs & Htr & Hlen).
    destruct Hone as [[He Ht]|(entry & ev & He & Ht)].
    + exists evs. split; congruence.
    + exists (ev :: evs). rewrite Htr, Ht, <- app_assoc. split; [done|].
      rewrite Hlen, He, length_app. cbn. lia.
Qed.

Lemma download_all_trace {N : Network} (config : BuildConfig)
  (font_paths : gmap string string) (enabled : list ScriptEntry)
  (w w' : World) (r : result (gmap string string)) :
  download_all config font_paths enabled w = (w', r) ->
  trace w' = trace w /\
  forall e, r = Raise e -> e <> RuntimeError all_subsets_empty.
Proof.
  revert font_paths w. induction enabled as [|script rest IH];
    intros font_paths w; cbn [download_all].
  - by intros [= <- <-].
  - unfold mbind at 1, M_bind at 1.
    destruct (ensure_font _ _ _ w) as [w1 [p|e]] eqn:Hens.
    + intros Hrest. destruct (IH _ _ Hrest) as [Ht He]. split; [|done].
      rewrite Ht. revert Hens. unfold ensure_font, exists_.
      unfold mbind at 1, M_bind at 1.
      destruct (_ || _); [by intros [= <- _]|].
      unfold mbind at 1, M_bind at 1.
      destruct (_download _ _ _) as [w2 [[]|e]] eqn:Hd; [|done].
      intros [= <- _].
      by destruct (download_outcome _ _ _ _ _ Hd)
        as [(data & _ & ->)|(_ & e & He')].
    + intros [= <- <-]. revert Hens. unfold ensure_font, exists_.
      unfold mbind at 1, M_bind at 1.
      destruct (_ || _); [done|].
      unfold mbind at 1, M_bind at 1.
      destruct (_download _ _ _) as [w2 [[]|e1]] eqn:Hd; [done|].
      intros [= <- <-].
      destruct (download_raises _ _ _ _ _ Hd) as [-> Hcause].
      split; [done|]. intros e [= <-].
      by destruct Hcause as [-> |[-> |[what ->]]].
Qed.

(** X25. When steps 1 and 2 of [build] end normally, the subsetter has
    been called exactly once for every subset entry handed on (a skipped
    script leaves no call behind); and when they end in [RuntimeError]
    "all subsets empty", the subsetter has not been called at all. *)
Theorem build_subsets_calls {N : Network} (config : BuildConfig)
  (w w' : World) (r : result (list (string * bool))) :
  build_subsets config w = (w', r) ->
  (forall entries, r = Ok entries ->
     exists evs,
       trace w' = trace w ++ evs /\ length evs = length entries) /\
  (r = Raise (RuntimeError all_subsets_empty) -> trace w' = trace w).
Proof.
  unfold build_subsets.
  destruct (List.filter _ _) as [|s0 en] eqn:Hen; [by intros [= <- <-]|].
  unfold mbind at 1, M_bind at 1.
  destruct (download_all _ _ _ w) as [w1 [paths|e]] eqn:Hdl;
    destruct (download_all_trace _ _ _ _ _ _ Hdl) as [Ht1 He1].
  2:{ intros [= <- <-]. split; [done|]. intros [= ->].
      by destruct (He1 _ eq_refl). }
  unfold mbind at 1, M_bind at 1. unfold mkdtemp at 1.
  unfold mbind at 1, M_bind at 1.
  destruct (subset_loop _ _ _ _ _ _) as [w2 [st|e]] eqn:Hloop;
    pose proof (subset_loop_calls _ _ _ _ _ _ _ _ Hloop) as Hcalls;
    cbv beta iota in Hcalls.
  2:{ intros [= <- <-]. split; [done|]. intros [= ->].
      by destruct (Hcalls all_subsets_empty). }
  destruct Hcalls as (evs & Htr & Hlen). cbn in Htr, Hlen.
  destruct (subset_entries st) as [|e0 es] eqn:Hes.
  - intros [= <- <-]. split; [done|]. intros _.
    destruct evs; [|done]. rewrite Htr, app_nil_r. done.
  - intros [= <- <-]. split; [|done]. intros entries [= <-].
    exists evs. split; [congruence | done].
Qed.

End Calls.

(** X25 on the sample configuration: two entries, two calls. *)
Lemma build_subsets_calls_witness :
  (forall entries,
     (build_subsets (U := Sample.unicode) (FT := Sample.fonttools)
        (P := Sample.platform) (N := Sample.network) Sample.config
        Sample.world_ab).2 = Ok entries ->
     exists evs,
       trace (build_subsets (U := Sample.unicode) (FT := Sample.fonttools)
                (P := Sample.platform) (N := Sample.network) Sample.config
                Sample.world_ab).1
       = trace Sample.world_ab ++ evs /\
       length evs = length entries) /\
  ((build_subsets (U := Sample.unicode) (FT := Sample.fonttools)
      (P := Sample.platform) (N := Sample.network) Sample.config
      Sample.world_ab).2 = Raise (RuntimeError all_subsets_empty) ->
   trace (build_subsets (U := Sample.unicode) (FT := Sample.fonttools)
            (P := Sample.platform) (N := Sample.network) Sample.config
            Sample.world_ab).1 = trace Sample.world_ab).
Proof.
  apply (build_subsets_calls (U := Sample.unicode) (FT := Sample.fonttools)
           (P := Sample.platform) (N := Sample.network) Sample.config
           Sample.world_ab _ _ (surjective_pairing _)).
Defined.


(** ** pipeline.py: the reference cap height *)

Section Reference.
Context {FT : FontTools}.

(** X26. With no target cap ratio configured ([target_cap_ratio <= 0])
    the ratio is read from the first subset; when that font has no
    positive cap height (or zero units per em) the ratio is 0.0 and no
    subset is scaled: the scaling step returns normally and changes
    nothing. *)
Theorem scale_subsets_no_reference (config : BuildConfig)
  (entries : list (string * bool)) (w : World) (p : string) (flag : bool)
  (rest : list (string * bool)) (font : TTFont) (upm cap : Z) (o : OS2) :
  PrimFloat.leb (target_cap_ratio (metrics config)) 0%float = true ->
  entries = (p, flag) :: rest ->
  fonts w !! p = Some font ->
  head_unitsPerEm font = Some upm ->
  os2 font = Some o ->
  sCapHeight o = Some cap ->
  upm = 0 \/ cap <= 0 ->
  scale_subsets config entries w = (w, Ok tt).
Proof.
  intros Hle -> Hp Hupm Ho Hcap Hzero.
  unfold scale_subsets. rewrite Hle.
  unfold mbind at 1, M_bind at 1.
  assert (Hratio : _get_cap_ratio p w = (w, Ok 0%float)).
  { unfold _get_cap_ratio. unfold_M. rewrite Hp, Hupm. cbn.
    rewrite Ho. cbn. rewrite Hcap. cbn -[Z.eqb Z.ltb].
    destruct Hzero as [-> |Hneg]; [done|].
    destruct (Z.ltb_spec 0 cap); [lia|]. by rewrite andb_false_r. }
  rewrite Hratio. done.
Qed.

End Reference.

(** A font without a cap height, as the first of two subsets. *)
Definition font_flat : TTFont :=
  Sample.font_of ["A"]%string [(65, "A"%string)] true 1000 0.

Definition world_flat : World :=
  Sample.world_of [("work/flat.otf"%string, font_flat);
                   ("work/b.ttf"%string, Sample.font_bc)] [].

(** X26 on [font_flat]. *)
Lemma scale_subsets_no_reference_witness :
  scale_subsets (FT := Sample.fonttools) Sample.config
    [("work/flat.otf"%string, true); ("work/b.ttf"%string, true)] world_flat
  = (world_flat, Ok tt).
Proof.
  apply (scale_subsets_no_reference (FT := Sample.fonttools) Sample.config
           [("work/flat.otf"%string, true); ("work/b.ttf"%string, true)]
           world_flat "work/flat.otf" true [("work/b.ttf"%string, true)]
           font_flat 1000 0
           {| sTypoAscender := 800; sTypoDescender := -200;
              sTypoLineGap := 90; usWinAscent := 900; usWinDescent := 250;
              sxHeight := Some 500; sCapHeight := Some 0 |}).
  - reflexivity.
  - reflexivity.
  - reflexivity.
  - reflexivity.
  - reflexivity.
  - reflexivity.
  - right. lia.
Defined.


(** ** subset_font: the arguments *)

Section SubsetArguments.
Context {U : UnicodeData} {FT : FontTools} {P : Platform}.

(** X27. [subset_font] checks its arguments before it opens the font:
    without code points and without ranges it raises [ValueError]
    "ranges or code points required"; with ranges that parse to no code
    point at all (a reversed range, say) it raises [ValueError] "no code
    points resolved"; a range that does not parse raises its own
    error.  In each case nothing is read or written, and the font file
    need not exist. *)
Theorem subset_font_checks_arguments (font_path : string)
  (unicode_ranges : option (list pystr)) (output_path : option string)
  (w : World) :
  match unicode_ranges with
  | None | Some [] =>
      subset_font font_path unicode_ranges output_path None w
      = (w, Raise (ValueError ranges_or_codepoints_required))
  | Some ranges =>
      match parse_unicode_ranges ranges with
      | Ok [] =>
          subset_font font_path unicode_ranges output_path None w
          = (w, Raise (ValueError no_codepoints_resolved))
      | Ok codepoints =>
          subset_font font_path unicode_ranges output_path None w
          = subset_font font_path None output_path (Some codepoints) w
      | Raise e =>
          subset_font font_path unicode_ranges output_path None w
          = (w, Raise e)
      end
  end.
Proof.
  unfold subset_font. destruct unicode_ranges as [[|r rs]|]; [done | | done].
  unfold mbind at 1, M_bind at 1, lift at 1.
  destruct (parse_unicode_ranges (r :: rs)) as [[|cp cps]|e]; done.
Qed.

End SubsetArguments.

(** A reversed range alone, for a font file that does not exist. *)
Example subset_font_reversed_range :
  subset_font (U := Sample.unicode) (FT := Sample.fonttools)
    (P := Sample.platform) "cache/missing.otf" (Some [lit "U+0700-0600"])
    None None Sample.world_ab
  = (Sample.world_ab, Raise (ValueError no_codepoints_resolved)).
Proof. vm_compute. reflexivity. Qed.

(** ** _scale_to_target: what scaling keeps *)

Section ScaleKeeps.
Context {FT : FontTools}.

Lemma for_each_names {A B} (f : string * A -> result (string * B))
  (l : list (string * A)) (l' : list (string * B)) :
  (forall x y, f x = Ok y -> y.1 = x.1) ->
  for_each f l = Ok l' -> l'.*1 = l.*1.
Proof.
  intros Hf. revert l'. induction l as [|x l IH]; intros l'; cbn [for_each].
  - by intros [= <-].
  - destruct (f x) as [y|] eqn:Hy; cbn; [|done].
    destruct (for_each f l) as [ys|]; cbn; [|done].
    intros [= <-]. cbn. f_equal; [by eapply Hf | by apply IH].
Qed.

Lemma scale_cff_keeps (scale : float) (font font' : TTFont) :
  scale_cff scale font = Ok font' ->
  glyphOrder font' = glyphOrder font /\
  cmap_tables font' = cmap_tables font /\
  head_unitsPerEm font' = head_unitsPerEm font /\
  hhea font' = hhea font /\ os2 font' = os2 font /\
  gsub font' = gsub font /\ other_tables font' = other_tables font /\
  (forall m m', hmtx_metrics font = Some m -> hmtx_metrics font' = Some m' ->
     m'.*1 = m.*1) /\
  (forall c c', cff font = Some c -> cff font' = Some c' ->
     (CharStrings c').*1 = (CharStrings c).*1 /\ ROS c' = ROS c) /\
  (is_Some (cff font') <-> is_Some (cff font)).
Proof.
  unfold scale_cff. destruct (cff font) as [c|] eqn:Hc.
  2:{ intros [= <-]. rewrite Hc. repeat split; try done.
      - intros m m' -> [= <-]. done. }
  destruct (hmtx_metrics font) as [m|] eqn:Hm; cbn; [|done].
  destruct (for_each _ (CharStrings c)) as [cs|] eqn:Hcs; cbn; [|done].
  destruct (for_each _ m) as [m1|] eqn:Hm1; cbn; [|done].
  intros [= <-]. cbn.
  repeat split; try done; try (by eexists).
  - intros ? ? [= <-] [= <-]. eapply for_each_names; [|exact Hm1].
    intros x y. cbn. destruct (scaled scale x.2.1); cbn; [|done].
    destruct (scaled scale x.2.2); cbn; [|done]. by intros [= <-].
  - simplify_eq/=. eapply for_each_names; [|exact Hcs].
    intros x y. cbn. destruct (scaled scale _); cbn; [|done]. by intros [= <-].
  - by simplify_eq/=.
Qed.

(** X28. Whatever the scale, [_scale_to_target] keeps the glyphs of a
    font and changes their size only: in the file it leaves the glyph
    order, the character map, the units per em, [hhea], GSUB and the
    untyped tables are those of the source, the horizontal metrics and
    the charstrings are there for the same glyph names in the same order,
    and of OS/2 only [sxHeight] and [sCapHeight] can differ. *)
Theorem scale_to_target_keeps_glyphs (font_path : string) (target : float)
  (w w' : World) (font : TTFont) (r : result unit) :
  fonts w !! font_path = Some font ->
  _scale_to_target font_path target w = (w', r) ->
  exists font',
    fonts w' !! font_path = Some font' /\
    glyphOrder font' = glyphOrder font /\
    cmap_tables font' = cmap_tables font /\
    head_unitsPerEm font' = head_unitsPerEm font /\
    hhea font' = hhea font /\
    gsub font' = gsub font /\
    other_tables font' = other_tables font /\
    (forall m m', hmtx_metrics font = Some m -> hmtx_metrics font' = Some m' ->
       m'.*1 = m.*1) /\
    (forall c c', cff font = Some c -> cff font' = Some c' ->
       (CharStrings c').*1 = (CharStrings c).*1 /\ ROS c' = ROS c) /\
    (forall o o', os2 font = Some o -> os2 font' = Some o' ->
       sTypoAscender o' = sTypoAscender o /\
       sTypoDescender o' = sTypoDescender o /\
       sTypoLineGap o' = sTypoLineGap o /\
       usWinAscent o' = usWinAscent o /\
       usWinDescent o' = usWinDescent o).
Proof.
  intros Hp. unfold _scale_to_target. unfold_M. rewrite Hp.
  assert (Hsame : exists font',
    fonts w !! font_path = Some font' /\
    glyphOrder font' = glyphOrder font /\
    cmap_tables font' = cmap_tables font /\
    head_unitsPerEm font' = head_unitsPerEm font /\
    hhea font' = hhea font /\
    gsub font' = gsub font /\
    other_tables font' = other_tables font /\
    (forall m m', hmtx_metrics font = Some m -> hmtx_metrics font' = Some m' ->
       m'.*1 = m.*1) /\
    (forall c c', cff font = Some c -> cff font' = Some c' ->
       (CharStrings c').*1 = (CharStrings c).*1 /\ ROS c' = ROS c) /\
    (forall o o', os2 font = Some o -> os2 font' = Some o' ->
       sTypoAscender o' = sTypoAscender o /\
       sTypoDescender o' = sTypoDescender o /\
       sTypoLineGap o' = sTypoLineGap o /\
       usWinAscent o' = usWinAscent o /\
       usWinDescent o' = usWinDescent o)).
  { exists font. repeat split; try done; intros; by simplify_eq. }
  destruct (table "head" _) as [upm|];
    cbn -[Z.leb near_one scale_factor scaled_or_zero scale_cff attr];
    [|by intros [= <- <-]].
  destruct (os2 font) as [o|] eqn:Ho;
    cbn -[Z.leb near_one scale_factor scaled_or_zero scale_cff attr];
    [|by intros [= <- <-]].
  destruct (attr "sCapHeight" _) as [cap|];
    cbn -[Z.leb near_one scale_factor scaled_or_zero scale_cff attr];
    [|by intros [= <- <-]].
  destruct (cap <=? 0);
    cbn -[Z.leb near_one scale_factor scaled_or_zero scale_cff attr];
    [by intros [= <- <-]|].
  destruct (scale_factor _ _ _) as [scale|];
    cbn -[Z.leb near_one scale_factor scaled_or_zero scale_cff attr];
    [|by intros [= <- <-]].
  destruct (near_one scale);
    cbn -[Z.leb near_one scale_factor scaled_or_zero scale_cff attr];
    [by intros [= <- <-]|].
  destruct (scale_cff scale font) as [font1|] eqn:Hcff;
    cbn -[Z.leb near_one scale_factor scaled_or_zero scale_cff attr];
    [|by intros [= <- <-]].
  destruct (attr "sxHeight" _) as [xh|];
    cbn -[Z.leb near_one scale_factor scaled_or_zero scale_cff attr];
    [|by intros [= <- <-]].
  destruct (scaled_or_zero scale xh) as [xh'|];
    cbn -[Z.leb near_one scale_factor scaled_or_zero scale_cff attr];
    [|by intros [= <- <-]].
  destruct (scaled_or_zero scale cap) as [cap'|];
    cbn -[Z.leb near_one scale_factor scaled_or_zero scale_cff attr];
    [|by intros [= <- <-]].
  intros [= <- <-]. cbn. rewrite lookup_insert_eq. eexists. split; [done|].
  destruct (scale_cff_keeps _ _ _ Hcff)
    as (Hg & Hc & Hh & Hhh & _ & Hgs & Hot & Hm & Hcs & _).
  cbn. repeat split; try done;
    first [ by apply Hm
          | by (eapply proj1, Hcs)
          | by (eapply proj2, Hcs)
          | by (intros; simplify_eq/=) ].
Qed.

End ScaleKeeps.

(** X28 on [font_ab], which has CFF outlines and a cap height of 700 at
    1000 units per em, scaled to a ratio of 0.75. *)
Lemma scale_to_target_keeps_glyphs_witness :
  exists font',
    fonts (_scale_to_target (FT := Sample.fonttools) "cache/a.otf"
             0x1.8p-1%float Sample.world_ab).1 !! "cache/a.otf"%string
    = Some font' /\
    glyphOrder font' = glyphOrder Sample.font_ab /\
    cmap_tables font' = cmap_tables Sample.font_ab /\
    head_unitsPerEm font' = head_unitsPerEm Sample.font_ab /\
    hhea font' = hhea Sample.font_ab /\
    gsub font' = gsub Sample.font_ab /\
    other_tables font' = other_tables Sample.font_ab /\
    (forall m m', hmtx_metrics Sample.font_ab = Some m ->
       hmtx_metrics font' = Some m' -> m'.*1 = m.*1) /\
    (forall c c', cff Sample.font_ab = Some c -> cff font' = Some c' ->
       (CharStrings c').*1 = (CharStrings c).*1 /\ ROS c' = ROS c) /\
    (forall o o', os2 Sample.font_ab = Some o -> os2 font' = Some o' ->
       sTypoAscender o' = sTypoAscender o /\
       sTypoDescender o' = sTypoDescender o /\
       sTypoLineGap o' = sTypoLineGap o /\
       usWinAscent o' = usWinAscent o /\
       usWinDescent o' = usWinDescent o).
Proof.
  apply (scale_to_target_keeps_glyphs (FT := Sample.fonttools) "cache/a.otf"
           0x1.8p-1%float Sample.world_ab _ Sample.font_ab _
           eq_refl (surjective_pairing _)).
Defined.


(** ** merge_fonts: what the merger is given *)

Section MergerInputs.
Context {FT : FontTools} {P : Platform}.

Lemma merge_tail_outcome (inputs : list TTFont) (output_path : string)
  (w w' : World) (r : result string) :
  merge_tail inputs output_path w = (w', r) ->
  trace w' = trace w ++ [Merged inputs] /\
  forall q, q <> output_path -> fonts w' !! q = fonts w !! q.
Proof.
  unfold merge_tail. unfold_M.
  destruct (ft_merge inputs) as [m|e]; cbn; [|by intros [= <- <-]].
  destruct (_TTF_GLYPH_LIMIT <? _); cbn; [by intros [= <- <-]|].
  destruct (_rebuild_cmap m); cbn; intros [= <- <-]; [|done].
  split; [done|]. cbn. intros q Hq. by apply lookup_insert_ne.
Qed.

(** X29. The merger is given the prepared inputs in the order of the
    input list: in a run of [merge_fonts] on two or more inputs that
    reaches the merger, the fonts handed over are, one for each input and
    in order, the contents of a working path of that input (the path
    itself or a sibling written by a conversion), and they are what those
    files still hold afterwards, the output path apart.  So the first
    input is the first font of the merge. *)
Theorem merge_fonts_inputs_in_order (font_paths : list string)
  (output_path : string) (drop_tables : option (list string))
  (w w' : World) (r : result string) (inputs : list TTFont) :
  (2 <= length font_paths)%nat ->
  merge_fonts font_paths output_path drop_tables w = (w', r) ->
  trace w' = trace w ++ [Merged inputs] ->
  exists processed,
    Forall2 (fun p c => c ∈ derived p) font_paths processed /\
    Forall2 (fun c f => c <> output_path -> fonts w' !! c = Some f)
      processed inputs.
Proof.
  intros Hlen Hrun Htrace.
  destruct font_paths as [|p0 [|p1 rest]]; [simpl in Hlen; lia ..|].
  destruct (merge_fonts_run _ _ _ _ _ _ _ _ Hrun)
    as [(Ht & _ & _) | (wa & w1 & u & upm & processed & ins & Hp & Hin & T1 & _ & Htail)].
  { rewrite Ht in Htrace. exfalso.
    apply (f_equal length) in Htrace. rewrite length_app in Htrace.
    simpl in Htrace. lia. }
  destruct (merge_tail_outcome _ _ _ _ _ Htail) as [Ht Hf].
  assert (ins = inputs) as ->.
  { rewrite Ht, T1 in Htrace. apply app_inv_head in Htrace.
    by injection Htrace. }
  exists processed. split.
  - destruct (touches_for_each (process_font u upm drop_tables) derived
                (fun p c => c ∈ derived p) (p0 :: p1 :: rest)
                (touches_process_font _ _ _) _ _ _ Hp) as (_ & _ & _ & _ & HQ).
    by apply HQ.
  - eapply Forall2_impl; [exact Hin|]. intros c f Hc Hne. cbn beta in Hc.
    by rewrite Hf.
Qed.

End MergerInputs.

(** X29 on the two sample fonts. *)
Lemma merge_fonts_inputs_in_order_witness :
  exists processed,
    Forall2 (fun p c => c ∈ derived (P := Sample.platform) p)
      ["cache/a.otf"; "cache/b.ttf"]%string processed /\
    Forall2 (fun c f =>
               c <> "dist/out.otf"%string ->
               fonts (merge_fonts (FT := Sample.fonttools)
                        (P := Sample.platform)
                        ["cache/a.otf"; "cache/b.ttf"]%string "dist/out.otf"
                        None Sample.world_ab).1 !! c = Some f)
      processed Sample.prepared_ab.
Proof.
  apply (merge_fonts_inputs_in_order (FT := Sample.fonttools)
           (P := Sample.platform) ["cache/a.otf"; "cache/b.ttf"]%string
           "dist/out.otf" None Sample.world_ab _
           (merge_fonts (FT := Sample.fonttools) (P := Sample.platform)
              ["cache/a.otf"; "cache/b.ttf"]%string "dist/out.otf" None
              Sample.world_ab).2 Sample.prepared_ab).
  - simpl. lia.
  - apply surjective_pairing.
  - vm_compute. reflexivity.
Defined.
